(** * Arrow C++ array builders (cpp/src/arrow/builder.h): a shallow embedding

    The builders of [builder.h] are modelled as records and state-passing
    functions.  A member function that returns [Status] becomes a function
    to [Status * state]; a [void] member function becomes a function to the
    new state.  Pointers into buffers ([uint8_t*]) are modelled by the
    bytes they point to, as a [list Z] with one entry of [0..255] per byte.

    The counters [length_], [null_count_] and [capacity_] are [int64_t] in
    the source.  Overflow of a signed integer is undefined in C++ and the
    counters are bounded by the memory the builder holds, so they are
    modelled in [Z] and their increments are plain additions.  Unsigned
    conversions ([static_cast<uint64_t>]) have their wrap-around written
    out. *)

From Stdlib Require Import ZArith Lia Bool String.
From stdpp Require Import base tactics option list.

Local Open Scope Z_scope.

(* ===================================================================== *)
(** * Definitions *)
(* ===================================================================== *)

(** ** Status (arrow/status.h) *)

(** Modelled from the spec: the status a fallible operation returns
    (arrow/status.h is not among the sources).  Section 7 names the kinds;
    [Invalid] carries the message given at the call site in [builder.h]. *)
Inductive Status : Type :=
  | OK
  | OutOfMemory
  | Invalid (msg : string)
  | NotImplemented (msg : string)
  | TypeError (msg : string).

(** [ARROW_RETURN_NOT_OK(call); rest]: run [call]; if its status is not
    OK, return it at once (with the state as the call left it), otherwise
    go on with [rest]. *)
Definition RETURN_NOT_OK {B : Type} (r : Status * B) (rest : B -> Status * B)
  : Status * B :=
  match r with
  | (OK, b) => rest b
  | (err, b) => (err, b)
  end.

Notation "'ARROW_RETURN_NOT_OK' r ';;' rest" :=
  (RETURN_NOT_OK r rest)
  (at level 10, r at level 9, rest at level 200, only parsing).

(** ** Memory pool (arrow/memory_pool.h) *)

(** Modelled from the spec: the memory pool, whose header is not among the
    sources.  Section 6.1: the pool allocates and reallocates buffers and
    its failures surface as OutOfMemory.  A pool is modelled by the largest
    buffer it is able to hand out ([pool_limit], in bytes) and by the byte
    that uninitialised memory happens to hold ([pool_junk]). *)
Record MemoryPool : Type := mkPool {
  pool_limit : Z;
  pool_junk : Z
}.

(** Modelled from the spec: reallocation of a resizable buffer to [nbytes]
    bytes (arrow/buffer.h is not among the sources).  Section 8: a resize
    preserves all prior data.  The bytes gained hold [fill]. *)
Definition resize_bytes (fill : Z) (nbytes : Z) (buf : list Z) : list Z :=
  take (Z.to_nat nbytes) buf ++ replicate (Z.to_nat nbytes - length buf)%nat fill.

(** Modelled from the spec: whether the pool hands out a buffer of
    [nbytes] bytes (section 6.1: a request may fail). *)
Definition pool_grants (pool : MemoryPool) (nbytes : Z) : bool :=
  nbytes <=? pool_limit pool.

(** ** BitUtil (arrow/util/bit-util.h) *)

Module BitUtil.

(** Modelled from the spec: the bit primitives, which the spec treats as
    an external collaborator (section 1) and whose header is not among
    the sources.  The validity bitmap is a packed bit vector, one bit per
    element (glossary); the source addresses bit [i] in byte [i / 8] at
    position [i % 8] (builder.h, lines 158-159), and [kBitmask] and
    [kFlippedBitmask] are the tables of the single-bit masks and of
    their complements in a byte. *)
Definition kBitmask : list Z := [1; 2; 4; 8; 16; 32; 64; 128].
Definition kFlippedBitmask : list Z := [254; 253; 251; 247; 239; 223; 191; 127].

(** [table[i]] and [bits[i]] on the bytes a pointer points to: a read
    outside the list yields 0. *)
Definition at_ (bytes : list Z) (i : Z) : Z :=
  default 0 (bytes !! Z.to_nat i).

(** Modelled from the spec: [BitUtil::SetBit(bits, i)], the primitive that
    sets bit [i] of a bitmap: [bits[i / 8] |= kBitmask[i % 8]]. *)
Definition SetBit (bits : list Z) (i : Z) : list Z :=
  <[Z.to_nat (Z.quot i 8) :=
      Z.lor (at_ bits (Z.quot i 8)) (at_ kBitmask (Z.rem i 8))]> bits.

(** Modelled from the spec: [BitUtil::ClearBit(bits, i)], the primitive
    that clears bit [i]: [bits[i / 8] &= kFlippedBitmask[i % 8]]. *)
Definition ClearBit (bits : list Z) (i : Z) : list Z :=
  <[Z.to_nat (Z.quot i 8) :=
      Z.land (at_ bits (Z.quot i 8)) (at_ kFlippedBitmask (Z.rem i 8))]> bits.

(** Modelled from the spec: [BitUtil::GetBit(bits, i)], the primitive that
    reads bit [i]: [(bits[i / 8] >> (i % 8)) & 1]. *)
Definition GetBit (bits : list Z) (i : Z) : bool :=
  Z.testbit (at_ bits (Z.quot i 8)) (Z.rem i 8).

(** Modelled from the spec: [BitUtil::BytesForBits(n)], the number of
    bytes that hold [n] bits (section 3.1, invariant 2). *)
Definition BytesForBits (n : Z) : Z := Z.quot (n + 7) 8.

(** Modelled from the spec: [BitUtil::NextPower2(n)], the least power of
    two that is at least [n] (section 4.1, Reserve). *)
Definition NextPower2 (n : Z) : Z := 2 ^ Z.log2_up n.

End BitUtil.

(** ** ArrayBuilder: the state and helpers every builder shares *)

Definition kMinBuilderCapacity : Z := Z.shiftl 1 5.

Module ArrayBuilder.

(** The members of [ArrayBuilder] (lines 209-222).  [null_bitmap_] and
    [null_bitmap_data_] are one buffer and the pointer to its bytes; the
    list is empty while the pointer is [NULLPTR].  [type_] is never
    written after construction and [children_] is not used by the code
    modelled here; both are left out. *)
Record t : Type := mk {
  pool_ : MemoryPool;
  null_bitmap_data_ : list Z;
  null_count_ : Z;
  length_ : Z;
  capacity_ : Z
}.

(** The constructor (lines 65-72). *)
Definition new (pool : MemoryPool) : t :=
  {| pool_ := pool; null_bitmap_data_ := []; null_count_ := 0;
     length_ := 0; capacity_ := 0 |}.

(** Accessors (lines 82-84). *)
Definition length (b : t) : Z := length_ b.
Definition null_count (b : t) : Z := null_count_ b.
Definition capacity (b : t) : Z := capacity_ b.

Definition set_bitmap (bits : list Z) (b : t) : t :=
  {| pool_ := pool_ b; null_bitmap_data_ := bits; null_count_ := null_count_ b;
     length_ := length_ b; capacity_ := capacity_ b |}.
Definition set_null_count (n : Z) (b : t) : t :=
  {| pool_ := pool_ b; null_bitmap_data_ := null_bitmap_data_ b; null_count_ := n;
     length_ := length_ b; capacity_ := capacity_ b |}.
Definition set_length (n : Z) (b : t) : t :=
  {| pool_ := pool_ b; null_bitmap_data_ := null_bitmap_data_ b;
     null_count_ := null_count_ b; length_ := n; capacity_ := capacity_ b |}.
Definition set_capacity (n : Z) (b : t) : t :=
  {| pool_ := pool_ b; null_bitmap_data_ := null_bitmap_data_ b;
     null_count_ := null_count_ b; length_ := length_ b; capacity_ := n |}.

(** [UnsafeAppendToBitmap(bool is_valid)] (lines 147-154). *)
Definition UnsafeAppendToBitmap (is_valid : bool) (b : t) : t :=
  let b1 :=
    if is_valid
    then set_bitmap (BitUtil.SetBit (null_bitmap_data_ b) (length_ b)) b
    else set_null_count (null_count_ b + 1) b in
  set_length (length_ b1 + 1) b1.

(** [UnsafeAppendNull()] (line 144). *)
Definition UnsafeAppendNull (b : t) : t := UnsafeAppendToBitmap false b.

(** The local variables of the iterator-based [UnsafeAppendToBitmap]
    together with the two members its loop writes. *)
Record cursor : Type := mkCursor {
  byte_offset : Z;
  bit_offset : Z;
  bitset : Z;
  c_bitmap : list Z;
  c_null_count : Z
}.

(** One iteration of the loop (lines 162-179), [v] being [*iter]. *)
Definition loop_body (c : cursor) (v : bool) : cursor :=
  let c1 :=
    if bit_offset c =? 8 then
      let bitmap1 := <[Z.to_nat (byte_offset c) := bitset c]> (c_bitmap c) in
      {| byte_offset := byte_offset c + 1;
         bit_offset := 0;
         bitset := BitUtil.at_ bitmap1 (byte_offset c + 1);
         c_bitmap := bitmap1;
         c_null_count := c_null_count c |}
    else c in
  let c2 :=
    if v then
      {| byte_offset := byte_offset c1; bit_offset := bit_offset c1;
         bitset := Z.lor (bitset c1) (BitUtil.at_ BitUtil.kBitmask (bit_offset c1));
         c_bitmap := c_bitmap c1; c_null_count := c_null_count c1 |}
    else
      {| byte_offset := byte_offset c1; bit_offset := bit_offset c1;
         bitset := Z.land (bitset c1)
                     (BitUtil.at_ BitUtil.kFlippedBitmask (bit_offset c1));
         c_bitmap := c_bitmap c1; c_null_count := c_null_count c1 + 1 |} in
  {| byte_offset := byte_offset c2; bit_offset := bit_offset c2 + 1;
     bitset := bitset c2; c_bitmap := c_bitmap c2;
     c_null_count := c_null_count c2 |}.

(** [UnsafeAppendToBitmap(begin, end)] (lines 156-186); the range
    [begin .. end) is given as the list of the flags it yields. *)
Definition UnsafeAppendToBitmap_range (flags : list bool) (b : t) : t :=
  let byte_offset0 := Z.quot (length_ b) 8 in
  let c0 :=
    {| byte_offset := byte_offset0;
       bit_offset := Z.rem (length_ b) 8;
       bitset := BitUtil.at_ (null_bitmap_data_ b) byte_offset0;
       c_bitmap := null_bitmap_data_ b;
       c_null_count := null_count_ b |} in
  let c := fold_left loop_body flags c0 in
  let bitmap :=
    if negb (bit_offset c =? 0)
    then <[Z.to_nat (byte_offset c) := bitset c]> (c_bitmap c)
    else c_bitmap c in
  {| pool_ := pool_ b;
     null_bitmap_data_ := bitmap;
     null_count_ := c_null_count c;
     length_ := length_ b + Z.of_nat (List.length flags);
     capacity_ := capacity_ b |}.

(** [CheckCapacity] (lines 199-207). *)
Definition CheckCapacity (new_capacity old_capacity : Z) : Status :=
  if new_capacity <? 0 then Invalid "Resize capacity must be positive"
  else if new_capacity <? old_capacity then Invalid "Resize cannot downsize"
  else OK.

(** Modelled from the spec: the body of [ArrayBuilder::Resize], declared
    at line 95 and defined in builder.cc, which is not among the sources.
    Spec section 4.1: Resize fails with Invalid on a negative value or an
    attempt to reduce the capacity (the check is [CheckCapacity]) and
    otherwise reallocates the null bitmap to hold [capacity] elements; a
    pool failure surfaces as OutOfMemory (section 6.1).  An allocated
    capacity is never below [kMinBuilderCapacity] (section 3.1, invariant
    3, and section 6.5: 32 is the floor for any allocated capacity), so a
    smaller request that passes the check is rounded up to it.  The bytes
    the bitmap gains are zero: the source records a null by leaving its
    bit alone ([UnsafeAppendToBitmap(false)] only counts it), which the
    spec describes as the validity bit being clear. *)
Definition Resize (capacity : Z) (b : t) : Status * t :=
  ARROW_RETURN_NOT_OK (CheckCapacity capacity (capacity_ b), b) ;; fun b =>
  let capacity := Z.max capacity kMinBuilderCapacity in
  let new_bitmap_size := BitUtil.BytesForBits capacity in
  if pool_grants (pool_ b) new_bitmap_size then
    (OK, set_capacity capacity
           (set_bitmap (resize_bytes 0 new_bitmap_size (null_bitmap_data_ b)) b))
  else (OutOfMemory, b).

End ArrayBuilder.

(** The virtual interface of [ArrayBuilder] that the shared code calls:
    a builder of class [B] holds the base members and overrides [Resize]. *)
Module Virtual.

Class Builder (B : Type) : Type := {
  base : B -> ArrayBuilder.t;
  Resize : Z -> B -> Status * B
}.

End Virtual.
Export Virtual.

#[global] Instance ArrayBuilder_Builder : Builder ArrayBuilder.t :=
  {| base := fun b => b; Resize := ArrayBuilder.Resize |}.

(** Modelled from the spec: the body of [ArrayBuilder::Reserve], declared at
    line 103 and defined in builder.cc, which is not among the sources.
    Spec section 4.1: Reserve ensures [capacity >= length + additional]; if that
    does not hold yet it computes the next power of two that is at least
    what is required, floor-clamped at 32, and delegates to Resize. *)
Definition Reserve {B : Type} `{Builder B} (additional_capacity : Z) (b : B)
  : Status * B :=
  let required := ArrayBuilder.length_ (base b) + additional_capacity in
  if required >? ArrayBuilder.capacity_ (base b)
  then Resize (Z.max (BitUtil.NextPower2 required) kMinBuilderCapacity) b
  else (OK, b).

(** ** NullBuilder (lines 228-242) *)

Module NullBuilder.

(** [NullBuilder] adds no member to [ArrayBuilder]. *)
Definition t : Type := ArrayBuilder.t.

(** The constructor (lines 230-231). *)
Definition new (pool : MemoryPool) : t := ArrayBuilder.new pool.

(** [AppendNull()] (lines 233-237). *)
Definition AppendNull (b : t) : Status * t :=
  let b1 := ArrayBuilder.set_null_count (ArrayBuilder.null_count_ b + 1) b in
  let b2 := ArrayBuilder.set_length (ArrayBuilder.length_ b1 + 1) b1 in
  (OK, b2).

(** [Append(std::nullptr_t value)] (line 239); the only value of
    [std::nullptr_t] is [nullptr]. *)
Definition Append (value : unit) (b : t) : Status * t := AppendNull b.

(** The appends a client can issue, and a run of them in order. *)
Inductive op : Type := OpAppendNull | OpAppend (value : unit).

Definition step (o : op) (b : t) : Status * t :=
  match o with
  | OpAppendNull => AppendNull b
  | OpAppend v => Append v b
  end.

Definition run (ops : list op) (b : t) : t :=
  fold_left (fun b o => snd (step o b)) ops b.

End NullBuilder.

(** ** PrimitiveBuilder<T> (lines 244-374) *)

(** [memset(dst + offset, value, n)] on the bytes of a buffer. *)
Definition memset (bytes : list Z) (offset value n : Z) : list Z :=
  list_inserts (Z.to_nat offset) (replicate (Z.to_nat n) value) bytes.

Module PrimitiveBuilder.

(** [raw_data_] points to the bytes of [data_]; as a [value_type*] its
    element [i] starts at byte [i * sizeof(value_type)].  The size of
    [value_type] is fixed by the template argument. *)
Record t : Type := mk {
  base_ : ArrayBuilder.t;
  sizeof_value_type : Z;
  raw_data_ : list Z
}.

(** The constructor (lines 249-250); [sizeof_T] is the size of the
    [value_type] of the template argument. *)
Definition new (sizeof_T : Z) (pool : MemoryPool) : t :=
  {| base_ := ArrayBuilder.new pool; sizeof_value_type := sizeof_T;
     raw_data_ := [] |}.

Definition set_base (a : ArrayBuilder.t) (b : t) : t :=
  {| base_ := a; sizeof_value_type := sizeof_value_type b;
     raw_data_ := raw_data_ b |}.
Definition set_raw_data (bytes : list Z) (b : t) : t :=
  {| base_ := base_ b; sizeof_value_type := sizeof_value_type b;
     raw_data_ := bytes |}.

(** Modelled from the spec: [PrimitiveBuilder<T>::Resize], declared at
    line 369 and defined in builder.cc, which is not among the sources.
    Spec section 4.1: Resize checks the capacity, then reallocates the data
    buffer and the null bitmap to hold [capacity] elements, at least
    [kMinBuilderCapacity] of them (section 6.5).  The bytes the data
    buffer gains are uninitialised. *)
Definition Resize (capacity : Z) (b : t) : Status * t :=
  ARROW_RETURN_NOT_OK
    (ArrayBuilder.CheckCapacity capacity (ArrayBuilder.capacity_ (base_ b)), b) ;;
  fun b =>
  let capacity := Z.max capacity kMinBuilderCapacity in
  let nbytes := capacity * sizeof_value_type b in
  if pool_grants (ArrayBuilder.pool_ (base_ b)) nbytes then
    let data1 :=
      resize_bytes (pool_junk (ArrayBuilder.pool_ (base_ b))) nbytes (raw_data_ b) in
    match ArrayBuilder.Resize capacity (base_ b) with
    | (OK, a) => (OK, set_base a (set_raw_data data1 b))
    | (err, _) => (err, b)
    end
  else (OutOfMemory, b).

#[global] Instance PrimitiveBuilder_Builder : Builder t :=
  Build_Builder t base_ Resize.

(** [AppendNull()] (lines 266-271). *)
Definition AppendNull (b : t) : Status * t :=
  ARROW_RETURN_NOT_OK (Reserve 1 b) ;; fun b =>
  let b1 :=
    set_raw_data
      (memset (raw_data_ b)
         (ArrayBuilder.length_ (base_ b) * sizeof_value_type b) 0
         (sizeof_value_type b)) b in
  let b2 := set_base (ArrayBuilder.UnsafeAppendToBitmap false (base_ b1)) b1 in
  (OK, b2).

End PrimitiveBuilder.

(** ** AdaptiveIntBuilderBase, AdaptiveUIntBuilder, AdaptiveIntBuilder
       (lines 438-584) *)

(** [static_cast<uint64_t>(val)] *)
Definition to_uint64 (val : Z) : Z := val mod 2 ^ 64.

Module AdaptiveIntBuilderBase.

(** [static constexpr int32_t pending_size_ = 1024] (line 475). *)
Definition pending_size_ : Z := 1024.

(** The members (lines 471-479); [pending_valid_] and [pending_data_] are
    arrays of [pending_size_] entries. *)
Record t : Type := mk {
  base_ : ArrayBuilder.t;
  raw_data_ : list Z;
  int_size_ : Z;
  pending_valid_ : list Z;
  pending_data_ : list Z;
  pending_pos_ : Z;
  pending_has_nulls_ : bool
}.

(** What the accessors and the finished array are built from: the base
    members, the data buffer and its element width. *)
Definition committed (b : t) : ArrayBuilder.t * list Z * Z :=
  (base_ b, raw_data_ b, int_size_ b).

(** The first four statements of [AppendNull] and the first three of the
    two [Append]s: the write into the pending arrays.  [touch_nulls] is
    true for [AppendNull], which also sets [pending_has_nulls_]. *)
Definition write_pending (data valid : Z) (touch_nulls : bool) (b : t) : t :=
  {| base_ := base_ b;
     raw_data_ := raw_data_ b;
     int_size_ := int_size_ b;
     pending_valid_ := <[Z.to_nat (pending_pos_ b) := valid]> (pending_valid_ b);
     pending_data_ := <[Z.to_nat (pending_pos_ b) := data]> (pending_data_ b);
     pending_pos_ := pending_pos_ b + 1;
     pending_has_nulls_ :=
       if touch_nulls then true else pending_has_nulls_ b |}.

(** How a scalar append ends: it returns a status, or it returns what the
    virtual [CommitPendingData()] returns on the state reached. *)
Inductive outcome : Type :=
  | Returns (s : Status) (b : t)
  | CallsCommitPendingData (b : t).

(** [if (pending_pos_ >= pending_size_) return CommitPendingData();
     return Status::OK();] *)
Definition commit_if_full (b : t) : outcome :=
  if pending_pos_ b >=? pending_size_
  then CallsCommitPendingData b
  else Returns OK b.

(** [AppendNull()] (lines 453-463), up to the virtual call. *)
Definition AppendNull_body (b : t) : outcome :=
  commit_if_full (write_pending 0 0 true b).

Section VirtualCall.

(** [CommitPendingData] is pure virtual in the base class (line 469);
    its overrides are defined in builder.cc, which is not among the
    sources. *)
Variable CommitPendingData : t -> Status * t.

Definition finish (o : outcome) : Status * t :=
  match o with
  | Returns s b => (s, b)
  | CallsCommitPendingData b => CommitPendingData b
  end.

Definition AppendNull (b : t) : Status * t := finish (AppendNull_body b).

(** Modelled from the spec: [AdaptiveIntBuilderBase::Resize], declared at
    line 466 and defined in builder.cc, which is not among the sources.
    Spec section 4.1: Resize fails with Invalid on a negative value or an
    attempt to reduce the capacity, and otherwise reallocates the data
    buffer, of [int_size_] bytes per element (section 3.2), and the null
    bitmap to hold [capacity] elements, at least [kMinBuilderCapacity] of
    them (section 6.5).  Section 4.5: before Resize works on the committed
    buffer, [CommitPendingData] drains the pending region; a failure of
    the drain is returned with the builder as the drain left it. *)
Definition Resize (capacity : Z) (b : t) : Status * t :=
  ARROW_RETURN_NOT_OK
    (ArrayBuilder.CheckCapacity capacity (ArrayBuilder.capacity_ (base_ b)), b) ;;
  fun b =>
  ARROW_RETURN_NOT_OK (CommitPendingData b) ;; fun b =>
  let capacity := Z.max capacity kMinBuilderCapacity in
  let nbytes := capacity * int_size_ b in
  if pool_grants (ArrayBuilder.pool_ (base_ b)) nbytes then
    let data1 :=
      resize_bytes (pool_junk (ArrayBuilder.pool_ (base_ b))) nbytes (raw_data_ b) in
    match ArrayBuilder.Resize capacity (base_ b) with
    | (OK, a) =>
        (OK, {| base_ := a; raw_data_ := data1; int_size_ := int_size_ b;
                pending_valid_ := pending_valid_ b; pending_data_ := pending_data_ b;
                pending_pos_ := pending_pos_ b;
                pending_has_nulls_ := pending_has_nulls_ b |})
    | (err, _) => (err, b)
    end
  else (OutOfMemory, b).

End VirtualCall.

End AdaptiveIntBuilderBase.

Module AdaptiveUIntBuilder.
Import AdaptiveIntBuilderBase.

(** [Append(const uint64_t val)] (lines 492-501), up to the virtual call. *)
Definition Append_body (val : Z) (b : t) : outcome :=
  commit_if_full (write_pending val 1 false b).

Definition Append (CommitPendingData : t -> Status * t) (val : Z) (b : t)
  : Status * t :=
  finish CommitPendingData (Append_body val b).

End AdaptiveUIntBuilder.

Module AdaptiveIntBuilder.
Import AdaptiveIntBuilderBase.

(** [Append(const int64_t val)] (lines 542-553), up to the virtual call. *)
Definition Append_body (val : Z) (b : t) : outcome :=
  let v := to_uint64 val in
  commit_if_full (write_pending v 1 false b).

Definition Append (CommitPendingData : t -> Status * t) (val : Z) (b : t)
  : Status * t :=
  finish CommitPendingData (Append_body val b).

End AdaptiveIntBuilder.

(** A scalar append to an adaptive builder; [signed] tells which of the
    two classes the builder is. *)
Inductive adaptive_op : Type :=
  | AdaptiveAppend (val : Z)
  | AdaptiveAppendNull.

Definition adaptive_body (signed : bool) (o : adaptive_op)
  (b : AdaptiveIntBuilderBase.t) : AdaptiveIntBuilderBase.outcome :=
  match o with
  | AdaptiveAppend val =>
      if signed then AdaptiveIntBuilder.Append_body val b
      else AdaptiveUIntBuilder.Append_body val b
  | AdaptiveAppendNull => AdaptiveIntBuilderBase.AppendNull_body b
  end.

Definition adaptive_step (signed : bool)
  (CommitPendingData : AdaptiveIntBuilderBase.t -> Status * AdaptiveIntBuilderBase.t)
  (o : adaptive_op) (b : AdaptiveIntBuilderBase.t)
  : Status * AdaptiveIntBuilderBase.t :=
  match o with
  | AdaptiveAppend val =>
      if signed then AdaptiveIntBuilder.Append CommitPendingData val b
      else AdaptiveUIntBuilder.Append CommitPendingData val b
  | AdaptiveAppendNull => AdaptiveIntBuilderBase.AppendNull CommitPendingData b
  end.

(** A client that issues the appends in order and stops at the first
    status that is not OK. *)
Fixpoint adaptive_run (signed : bool)
  (CommitPendingData : AdaptiveIntBuilderBase.t -> Status * AdaptiveIntBuilderBase.t)
  (ops : list adaptive_op) (b : AdaptiveIntBuilderBase.t)
  : Status * AdaptiveIntBuilderBase.t :=
  match ops with
  | [] => (OK, b)
  | o :: ops' =>
      ARROW_RETURN_NOT_OK (adaptive_step signed CommitPendingData o b) ;;
      adaptive_run signed CommitPendingData ops'
  end.

(** The 64-bit value and the validity flag an append stores. *)
Definition adaptive_value (signed : bool) (o : adaptive_op) : Z :=
  match o with
  | AdaptiveAppend val => if signed then to_uint64 val else val
  | AdaptiveAppendNull => 0
  end.

Definition adaptive_valid (o : adaptive_op) : Z :=
  match o with AdaptiveAppend _ => 1 | AdaptiveAppendNull => 0 end.

Definition adaptive_is_null (o : adaptive_op) : bool :=
  match o with AdaptiveAppend _ => false | AdaptiveAppendNull => true end.

(** ** BooleanBuilder (lines 586-746) *)

Module BooleanBuilder.

(** The members: the base and the bit-packed data buffer, [raw_data_]
    pointing to the bytes of [data_] (lines 744-745). *)
Record t : Type := mk {
  base_ : ArrayBuilder.t;
  raw_data_ : list Z
}.

(** Modelled from the spec: the constructor, declared at lines 589-591 and
    defined in builder.cc, which is not among the sources.  Spec section
    3.3: a builder is constructed empty. *)
Definition new (pool : MemoryPool) : t :=
  {| base_ := ArrayBuilder.new pool; raw_data_ := [] |}.

Definition set_base (a : ArrayBuilder.t) (b : t) : t :=
  {| base_ := a; raw_data_ := raw_data_ b |}.
Definition set_raw_data (bytes : list Z) (b : t) : t :=
  {| base_ := base_ b; raw_data_ := bytes |}.

(** Modelled from the spec: [BooleanBuilder::Resize], declared at line 741
    and defined in builder.cc, which is not among the sources.  Section
    4.1 and 3.2: the data buffer is bit-packed, one bit per element; the
    capacity allocated is at least [kMinBuilderCapacity] (section 6.5). *)
Definition Resize (capacity : Z) (b : t) : Status * t :=
  ARROW_RETURN_NOT_OK
    (ArrayBuilder.CheckCapacity capacity (ArrayBuilder.capacity_ (base_ b)), b) ;;
  fun b =>
  let capacity := Z.max capacity kMinBuilderCapacity in
  let nbytes := BitUtil.BytesForBits capacity in
  if pool_grants (ArrayBuilder.pool_ (base_ b)) nbytes then
    let data1 :=
      resize_bytes (pool_junk (ArrayBuilder.pool_ (base_ b))) nbytes (raw_data_ b) in
    match ArrayBuilder.Resize capacity (base_ b) with
    | (OK, a) => (OK, set_base a (set_raw_data data1 b))
    | (err, _) => (err, b)
    end
  else (OutOfMemory, b).

#[global] Instance BooleanBuilder_Builder : Builder t :=
  Build_Builder t base_ Resize.

(** [AppendNull()] (lines 604-609). *)
Definition AppendNull (b : t) : Status * t :=
  ARROW_RETURN_NOT_OK (Reserve 1 b) ;; fun b =>
  (OK, set_base (ArrayBuilder.UnsafeAppendToBitmap false (base_ b)) b).

(** [UnsafeAppend(const bool val)] (lines 621-629). *)
Definition UnsafeAppend (val : bool) (b : t) : t :=
  let b1 :=
    set_base
      (ArrayBuilder.set_bitmap
         (BitUtil.SetBit (ArrayBuilder.null_bitmap_data_ (base_ b))
            (ArrayBuilder.length_ (base_ b)))
         (base_ b)) b in
  let b2 :=
    if val
    then set_raw_data
           (BitUtil.SetBit (raw_data_ b1) (ArrayBuilder.length_ (base_ b1))) b1
    else set_raw_data
           (BitUtil.ClearBit (raw_data_ b1) (ArrayBuilder.length_ (base_ b1))) b1 in
  set_base
    (ArrayBuilder.set_length (ArrayBuilder.length_ (base_ b2) + 1) (base_ b2)) b2.

(** [UnsafeAppend(const uint8_t val)] (line 631). *)
Definition UnsafeAppend_uint8 (val : Z) (b : t) : t :=
  UnsafeAppend (negb (val =? 0)) b.

(** [Append(const bool val)] (lines 612-616). *)
Definition Append (val : bool) (b : t) : Status * t :=
  ARROW_RETURN_NOT_OK (Reserve 1 b) ;; fun b =>
  (OK, UnsafeAppend val b).

(** [Append(const uint8_t val)] (line 618). *)
Definition Append_uint8 (val : Z) (b : t) : Status * t :=
  Append (negb (val =? 0)) b.

End BooleanBuilder.

(** ** BufferBuilder and TypedBufferBuilder<T> (arrow/buffer.h) *)

Module BufferBuilder.

(** Modelled from the spec: the growable byte buffer of section 2,
    component 1 (arrow/buffer.h is not among the sources): the bytes
    appended so far and the number of bytes allocated for them. *)
Record t : Type := mk {
  pool_ : MemoryPool;
  data_ : list Z;
  capacity_ : Z
}.

(** Modelled from the spec: a buffer builder is constructed empty. *)
Definition new (pool : MemoryPool) : t :=
  {| pool_ := pool; data_ := []; capacity_ := 0 |}.

(** Modelled from the spec: [length()], the bytes appended, and
    [capacity()], the bytes allocated. *)
Definition length (bb : t) : Z := Z.of_nat (List.length (data_ bb)).
Definition capacity (bb : t) : Z := capacity_ bb.

(** Modelled from the spec: reallocation to [new_capacity] bytes; a
    failure of the pool surfaces as OutOfMemory (section 6.1). *)
Definition Resize (new_capacity : Z) (bb : t) : Status * t :=
  if pool_grants (pool_ bb) new_capacity
  then (OK, {| pool_ := pool_ bb; data_ := data_ bb; capacity_ := new_capacity |})
  else (OutOfMemory, bb).

(** Modelled from the spec: append without a capacity check. *)
Definition UnsafeAppend (bytes : list Z) (bb : t) : t :=
  {| pool_ := pool_ bb; data_ := data_ bb ++ bytes; capacity_ := capacity_ bb |}.

(** Modelled from the spec: append with amortised reallocation (section
    2, component 1, and section 5: next-power-of-two sizing). *)
Definition Append (bytes : list Z) (bb : t) : Status * t :=
  let needed := length bb + Z.of_nat (List.length bytes) in
  ARROW_RETURN_NOT_OK
    (if capacity_ bb <? needed
     then Resize (BitUtil.NextPower2 needed) bb
     else (OK, bb)) ;;
  fun bb => (OK, UnsafeAppend bytes bb).

End BufferBuilder.

Module TypedBufferBuilder.

(** Modelled from the spec: a buffer builder seen as an array of [T]
    (arrow/buffer.h is not among the sources); [length()] counts
    elements.  The elements appended so far are kept as values of [T]. *)
Record t : Type := mk {
  values_ : list Z;
  capacity_ : Z
}.

(** Modelled from the spec: a typed buffer builder is constructed empty. *)
Definition new : t := {| values_ := []; capacity_ := 0 |}.

(** Modelled from the spec: [length()], the number of elements appended. *)
Definition length (tb : t) : Z := Z.of_nat (List.length (values_ tb)).

(** Modelled from the spec: [UnsafeAppend(T value)] appends one element
    and [UnsafeAppend(const T* values, int64_t n)] appends [n] of them,
    without a capacity check.  The caller is to have reserved the room
    (builder.h, lines 823-826: offsets and data should have been
    presized); without it the source writes outside the buffer, which
    the model does not represent: what is proved of the unchecked appends
    assumes the room. *)
Definition UnsafeAppend (value : Z) (tb : t) : t :=
  {| values_ := values_ tb ++ [value]; capacity_ := capacity_ tb |}.

(** Modelled from the spec: the append of several elements, see above. *)
Definition UnsafeAppend_bytes (bytes : list Z) (tb : t) : t :=
  {| values_ := values_ tb ++ bytes; capacity_ := capacity_ tb |}.

End TypedBufferBuilder.

(** ** BinaryBuilder and StringBuilder (lines 805-914) *)

(** [static_cast<int32_t>(x)] for a 64-bit [x]: two's-complement wrap. *)
Definition to_int32 (x : Z) : Z := (x + 2 ^ 31) mod 2 ^ 32 - 2 ^ 31.

Module BinaryBuilder.

(** The members (lines 872-873) next to the base: the offsets, as [int32_t]
    values, and the value bytes. *)
Record t : Type := mk {
  base_ : ArrayBuilder.t;
  offsets_builder_ : TypedBufferBuilder.t;
  value_data_builder_ : TypedBufferBuilder.t
}.

(** Modelled from the spec: the constructor, declared at lines 807-809
    and defined in builder.cc, which is not among the sources.  Section
    3.3: a builder is constructed empty. *)
Definition new (pool : MemoryPool) : t :=
  {| base_ := ArrayBuilder.new pool;
     offsets_builder_ := TypedBufferBuilder.new;
     value_data_builder_ := TypedBufferBuilder.new |}.

Definition set_base (a : ArrayBuilder.t) (b : t) : t :=
  {| base_ := a; offsets_builder_ := offsets_builder_ b;
     value_data_builder_ := value_data_builder_ b |}.
Definition set_offsets (tb : TypedBufferBuilder.t) (b : t) : t :=
  {| base_ := base_ b; offsets_builder_ := tb;
     value_data_builder_ := value_data_builder_ b |}.
Definition set_value_data (tb : TypedBufferBuilder.t) (b : t) : t :=
  {| base_ := base_ b; offsets_builder_ := offsets_builder_ b;
     value_data_builder_ := tb |}.

(** Modelled from the spec: [BinaryBuilder::Resize], declared at line 848
    and defined in builder.cc, which is not among the sources.  Section
    4.1 and 3.2: Resize checks the capacity, then makes room in the
    offsets buffer, which is to hold one offset more than there are
    elements, and in the null bitmap; the capacity allocated is at least
    [kMinBuilderCapacity] (section 6.5). *)
Definition Resize (capacity : Z) (b : t) : Status * t :=
  ARROW_RETURN_NOT_OK
    (ArrayBuilder.CheckCapacity capacity (ArrayBuilder.capacity_ (base_ b)), b) ;;
  fun b =>
  let capacity := Z.max capacity kMinBuilderCapacity in
  if pool_grants (ArrayBuilder.pool_ (base_ b)) ((capacity + 1) * 4) then
    match ArrayBuilder.Resize capacity (base_ b) with
    | (OK, a) =>
        (OK, set_base a
               (set_offsets
                  {| TypedBufferBuilder.values_ :=
                       TypedBufferBuilder.values_ (offsets_builder_ b);
                     TypedBufferBuilder.capacity_ := capacity + 1 |} b))
    | (err, _) => (err, b)
    end
  else (OutOfMemory, b).

#[global] Instance BinaryBuilder_Builder : Builder t :=
  Build_Builder t base_ Resize.

(** [value_data_length()] (line 857) and [value_data_capacity()] (line
    859). *)
Definition value_data_length (b : t) : Z :=
  TypedBufferBuilder.length (value_data_builder_ b).

Definition value_data_capacity (b : t) : Z :=
  TypedBufferBuilder.capacity_ (value_data_builder_ b).

(** Modelled from the spec: [BinaryBuilder::ReserveData], declared at line
    852 and defined in builder.cc, which is not among the sources.  Spec
    section 4.6: ReserveData ensures that the value-data buffer has room
    for [elements] more bytes without reallocation; section 5: a
    reallocation uses next-power-of-two sizing, and a failure of the pool
    surfaces as OutOfMemory (section 6.1). *)
Definition ReserveData (elements : Z) (b : t) : Status * t :=
  let needed := value_data_length b + elements in
  if needed >? value_data_capacity b then
    let new_capacity := BitUtil.NextPower2 needed in
    if pool_grants (ArrayBuilder.pool_ (base_ b)) new_capacity
    then (OK, set_value_data
                {| TypedBufferBuilder.values_ :=
                     TypedBufferBuilder.values_ (value_data_builder_ b);
                   TypedBufferBuilder.capacity_ := new_capacity |} b)
    else (OutOfMemory, b)
  else (OK, b).

(** [UnsafeAppendNextOffset()] (lines 877-880). *)
Definition UnsafeAppendNextOffset (b : t) : t :=
  let num_bytes := TypedBufferBuilder.length (value_data_builder_ b) in
  set_offsets (TypedBufferBuilder.UnsafeAppend (to_int32 num_bytes)
                 (offsets_builder_ b)) b.

(** [UnsafeAppend(const uint8_t* value, int32_t length)] (lines 827-831);
    [value] holds the bytes the pointer points to, of which the first
    [length] are copied. *)
Definition UnsafeAppend (value : list Z) (length : Z) (b : t) : t :=
  let b1 := UnsafeAppendNextOffset b in
  let b2 :=
    set_value_data
      (TypedBufferBuilder.UnsafeAppend_bytes (take (Z.to_nat length) value)
         (value_data_builder_ b1)) b1 in
  set_base (ArrayBuilder.UnsafeAppendToBitmap true (base_ b2)) b2.

(** [UnsafeAppendNull()] (lines 841-845). *)
Definition UnsafeAppendNull (b : t) : t :=
  let num_bytes := TypedBufferBuilder.length (value_data_builder_ b) in
  let b1 :=
    set_offsets (TypedBufferBuilder.UnsafeAppend (to_int32 num_bytes)
                   (offsets_builder_ b)) b in
  set_base (ArrayBuilder.UnsafeAppendToBitmap false (base_ b1)) b1.

(** A logical append: a value (the bytes of the slot) or a null. *)
Inductive op : Type :=
  | OpAppend (value : list Z)
  | OpAppendNull.

Definition step (b : t) (o : op) : t :=
  match o with
  | OpAppend value => UnsafeAppend value (Z.of_nat (List.length value)) b
  | OpAppendNull => UnsafeAppendNull b
  end.

Definition run (ops : list op) (b : t) : t := fold_left step ops b.

End BinaryBuilder.

(** ** FixedSizeBinaryBuilder (lines 919-985) *)

Module FixedSizeBinaryBuilder.

(** The members (lines 979-980) next to the base. *)
Record t : Type := mk {
  base_ : ArrayBuilder.t;
  byte_width_ : Z;
  byte_builder_ : BufferBuilder.t
}.

(** Modelled from the spec: the constructor, declared at lines 921-922
    and defined in builder.cc, which is not among the sources.  Section
    3.3: a builder is constructed empty; the byte width comes from the
    type descriptor (section 6.2). *)
Definition new (byte_width : Z) (pool : MemoryPool) : t :=
  {| base_ := ArrayBuilder.new pool; byte_width_ := byte_width;
     byte_builder_ := BufferBuilder.new pool |}.

Definition set_base (a : ArrayBuilder.t) (b : t) : t :=
  {| base_ := a; byte_width_ := byte_width_ b; byte_builder_ := byte_builder_ b |}.
Definition set_byte_builder (bb : BufferBuilder.t) (b : t) : t :=
  {| base_ := base_ b; byte_width_ := byte_width_ b; byte_builder_ := bb |}.

(** What a client reads through the accessors [length()], [null_count()],
    [capacity()], [value_data_length()] and through [GetValue]: the
    counters, the validity bitmap and the value bytes. *)
Definition observable (b : t) : Z * Z * Z * list Z * list Z :=
  (ArrayBuilder.length (base_ b), ArrayBuilder.null_count (base_ b),
   ArrayBuilder.capacity (base_ b),
   ArrayBuilder.null_bitmap_data_ (base_ b), BufferBuilder.data_ (byte_builder_ b)).

(** Modelled from the spec: [FixedSizeBinaryBuilder::Resize], declared at
    line 960 and defined in builder.cc, which is not among the sources.
    Spec section 4.1 and 3.2: Resize checks the capacity, then reallocates the
    data buffer, of [byte_width] bytes per element, and the null bitmap
    to hold [capacity] elements, at least [kMinBuilderCapacity] of them
    (section 6.5). *)
Definition Resize (capacity : Z) (b : t) : Status * t :=
  ARROW_RETURN_NOT_OK
    (ArrayBuilder.CheckCapacity capacity (ArrayBuilder.capacity_ (base_ b)), b) ;;
  fun b =>
  let capacity := Z.max capacity kMinBuilderCapacity in
  match BufferBuilder.Resize (capacity * byte_width_ b) (byte_builder_ b) with
  | (OK, bb) =>
      match ArrayBuilder.Resize capacity (base_ b) with
      | (OK, a) => (OK, set_base a (set_byte_builder bb b))
      | (err, _) => (err, b)
      end
  | (err, _) => (err, b)
  end.

#[global] Instance FixedSizeBinaryBuilder_Builder : Builder t :=
  Build_Builder t base_ Resize.

(** [Append(const uint8_t* value)] (lines 924-928); [value] holds the
    [byte_width_] bytes the pointer points to. *)
Definition Append (value : list Z) (b : t) : Status * t :=
  ARROW_RETURN_NOT_OK (Reserve 1 b) ;; fun b =>
  let b1 := set_base (ArrayBuilder.UnsafeAppendToBitmap true (base_ b)) b in
  let '(s, bb) :=
    BufferBuilder.Append (take (Z.to_nat (byte_width_ b1)) value) (byte_builder_ b1) in
  (s, set_byte_builder bb b1).

(** [Append(const std::array<uint8_t, NBYTES>& value)] (lines 948-953);
    the array is given as the list of its [NBYTES] bytes. *)
Definition Append_array (value : list Z) (b : t) : Status * t :=
  ARROW_RETURN_NOT_OK (Reserve 1 b) ;; fun b =>
  let b1 := set_base (ArrayBuilder.UnsafeAppendToBitmap true (base_ b)) b in
  let '(s, bb) := BufferBuilder.Append value (byte_builder_ b1) in
  (s, set_byte_builder bb b1).

End FixedSizeBinaryBuilder.

(** ** ListBuilder (lines 764-798) *)

Module ListBuilder.

(** The members: the base, the offsets and the child builder, of which
    the code modelled here reads only the length. *)
Record t : Type := mk {
  base_ : ArrayBuilder.t;
  offsets_builder_ : TypedBufferBuilder.t;
  value_builder_length : Z
}.

(** Modelled from the spec: [ListBuilder::Resize], declared at line 771
    and defined in builder.cc, which is not among the sources.  Spec
    sections 4.1 and 3.2: Resize checks the capacity, then makes room in
    the offsets buffer, which is to hold one offset more than there are
    elements, and in the null bitmap; the capacity allocated is at least
    [kMinBuilderCapacity] (section 6.5).  The child builder is resized by
    its owner's appends, not here. *)
Definition Resize (capacity : Z) (b : t) : Status * t :=
  ARROW_RETURN_NOT_OK
    (ArrayBuilder.CheckCapacity capacity (ArrayBuilder.capacity_ (base_ b)), b) ;;
  fun b =>
  let capacity := Z.max capacity kMinBuilderCapacity in
  if pool_grants (ArrayBuilder.pool_ (base_ b)) ((capacity + 1) * 4) then
    match ArrayBuilder.Resize capacity (base_ b) with
    | (OK, a) =>
        (OK, {| base_ := a;
                offsets_builder_ :=
                  {| TypedBufferBuilder.values_ :=
                       TypedBufferBuilder.values_ (offsets_builder_ b);
                     TypedBufferBuilder.capacity_ := capacity + 1 |};
                value_builder_length := value_builder_length b |})
    | (err, _) => (err, b)
    end
  else (OutOfMemory, b).

#[global] Instance ListBuilder_Builder : Builder t :=
  Build_Builder t base_ Resize.

Section Declared.

(** [Append(bool is_valid = true)] is declared at line 786; its body is
    in builder.cc, which is not among the sources. *)
Variable Append : bool -> t -> Status * t.

(** [AppendNull()] (line 788). *)
Definition AppendNull (b : t) : Status * t := Append false b.

End Declared.

End ListBuilder.

(** ** StructBuilder (lines 1011-1046) *)

Module StructBuilder.

(** The appends of [StructBuilder] touch the base members only, the
    field builders being appended to by the caller; of [field_builders_]
    the model keeps the number ([num_fields()], line 1042). *)
Record t : Type := mk {
  base_ : ArrayBuilder.t;
  num_fields : Z
}.

Definition set_base (a : ArrayBuilder.t) (b : t) : t :=
  {| base_ := a; num_fields := num_fields b |}.

(** [StructBuilder] does not override [Resize]: it is [ArrayBuilder::Resize]
    on the base members. *)
Definition Resize (capacity : Z) (b : t) : Status * t :=
  let '(s, a) := ArrayBuilder.Resize capacity (base_ b) in (s, set_base a b).

#[global] Instance StructBuilder_Builder : Builder t :=
  Build_Builder t base_ Resize.

(** [Append(bool is_valid = true)] (lines 1030-1034). *)
Definition Append (is_valid : bool) (b : t) : Status * t :=
  ARROW_RETURN_NOT_OK (Reserve 1 b) ;; fun b =>
  (OK, set_base (ArrayBuilder.UnsafeAppendToBitmap is_valid (base_ b)) b).

(** [AppendNull()] (line 1036). *)
Definition AppendNull (b : t) : Status * t := Append false b.

End StructBuilder.

(** ** DictionaryBuilder<T> and DictionaryBuilder<NullType> (lines 1083-1157) *)

Module DictionaryBuilder.

(** The members (lines 1130-1137) next to the base.  Of the memo table,
    whose class is declared only, the model keeps the dense list of the
    distinct values in code order (spec section 4.10); [values_builder_]
    is the embedded adaptive builder of the codes. *)
Record t : Type := mk {
  base_ : ArrayBuilder.t;
  memo_table_ : list (list Z);
  delta_offset_ : Z;
  byte_width_ : Z;
  values_builder_ : AdaptiveIntBuilderBase.t
}.

(** [is_building_delta()] (line 1127). *)
Definition is_building_delta (b : t) : bool := delta_offset_ b >? 0.

Section VirtualCall.

(** The override of [CommitPendingData] of the embedded
    [AdaptiveIntBuilder], defined in builder.cc, which is not among the
    sources. *)
Variable CommitPendingData : AdaptiveIntBuilderBase.t -> Status * AdaptiveIntBuilderBase.t.

(** Modelled from the spec: [DictionaryBuilder<T>::Resize], declared at
    line 1123 and defined in builder.cc, which is not among the sources.
    Spec section 4.1: Resize fails with Invalid on a negative value or an
    attempt to reduce the capacity, and otherwise reallocates the data
    buffers, which are those of the embedded builder of the codes (section
    4.10), and the null bitmap to hold [capacity] elements, at least
    [kMinBuilderCapacity] of them (section 6.5).  The memo table is kept. *)
Definition Resize (capacity : Z) (b : t) : Status * t :=
  ARROW_RETURN_NOT_OK
    (ArrayBuilder.CheckCapacity capacity (ArrayBuilder.capacity_ (base_ b)), b) ;;
  fun b =>
  let capacity := Z.max capacity kMinBuilderCapacity in
  match AdaptiveIntBuilderBase.Resize CommitPendingData capacity (values_builder_ b) with
  | (OK, vb) =>
      match ArrayBuilder.Resize capacity (base_ b) with
      | (OK, a) =>
          (OK, {| base_ := a; memo_table_ := memo_table_ b;
                  delta_offset_ := delta_offset_ b; byte_width_ := byte_width_ b;
                  values_builder_ := vb |})
      | (err, _) => (err, b)
      end
  | (err, _) => (err, b)
  end.

Definition Builder_of : Builder t := Build_Builder t base_ Resize.

End VirtualCall.

End DictionaryBuilder.

Module NullDictionaryBuilder.

(** [DictionaryBuilder<NullType>] (lines 1141-1157): the base and the
    embedded builder of the codes (line 1156). *)
Record t : Type := mk {
  base_ : ArrayBuilder.t;
  values_builder_ : AdaptiveIntBuilderBase.t
}.

Section VirtualCall.

Variable CommitPendingData : AdaptiveIntBuilderBase.t -> Status * AdaptiveIntBuilderBase.t.

(** Modelled from the spec: [DictionaryBuilder<NullType>::Resize],
    declared at line 1152 and defined in builder.cc, which is not among
    the sources; as for [DictionaryBuilder<T>], without a memo table. *)
Definition Resize (capacity : Z) (b : t) : Status * t :=
  ARROW_RETURN_NOT_OK
    (ArrayBuilder.CheckCapacity capacity (ArrayBuilder.capacity_ (base_ b)), b) ;;
  fun b =>
  let capacity := Z.max capacity kMinBuilderCapacity in
  match AdaptiveIntBuilderBase.Resize CommitPendingData capacity (values_builder_ b) with
  | (OK, vb) =>
      match ArrayBuilder.Resize capacity (base_ b) with
      | (OK, a) => (OK, {| base_ := a; values_builder_ := vb |})
      | (err, _) => (err, b)
      end
  | (err, _) => (err, b)
  end.

Definition Builder_of : Builder t := Build_Builder t base_ Resize.

End VirtualCall.

End NullDictionaryBuilder.

(** ** The validity bitmap as a sequence of bits *)

(** Number of zero bits of [bits] at the positions [0 .. n). *)
Fixpoint zero_bits (bits : list Z) (n : nat) : Z :=
  match n with
  | O => 0
  | S k => zero_bits bits k + (if BitUtil.GetBit bits (Z.of_nat k) then 0 else 1)
  end.

(** Writing bit [i]: [SetBit] for a valid slot, [ClearBit] for a null. *)
Definition write_bit (bits : list Z) (i : Z) (v : bool) : list Z :=
  if v then BitUtil.SetBit bits i else BitUtil.ClearBit bits i.

(** Writing the flags one bit at a time from position [i] on: what the
    spec calls appending many validity bits, against which the byte-wise
    loop of the source is compared. *)
Fixpoint write_bits (bits : list Z) (i : Z) (flags : list bool) : list Z :=
  match flags with
  | [] => bits
  | v :: flags' => write_bits (write_bit bits i v) (i + 1) flags'
  end.

(** The bit position a cursor of the loop stands at, and the bitmap with
    the byte the loop holds in [bitset] written back. *)
Definition cursor_pos (c : ArrayBuilder.cursor) : Z :=
  8 * ArrayBuilder.byte_offset c + ArrayBuilder.bit_offset c.

Definition cursor_bits (c : ArrayBuilder.cursor) : list Z :=
  <[Z.to_nat (ArrayBuilder.byte_offset c) := ArrayBuilder.bitset c]>
    (ArrayBuilder.c_bitmap c).

(** Number of flags that say "invalid". *)
Fixpoint count_invalid (flags : list bool) : Z :=
  match flags with
  | [] => 0
  | v :: flags' => (if v then 0 else 1) + count_invalid flags'
  end.

(** The unchecked appends to the bitmap and a run of them (lines 144-186);
    the checked appends of the builders reserve and then call these. *)
Inductive bitmap_op : Type :=
  | AppendBit (is_valid : bool)
  | AppendRange (flags : list bool).

Definition bitmap_step (b : ArrayBuilder.t) (o : bitmap_op) : ArrayBuilder.t :=
  match o with
  | AppendBit is_valid => ArrayBuilder.UnsafeAppendToBitmap is_valid b
  | AppendRange flags => ArrayBuilder.UnsafeAppendToBitmap_range flags b
  end.

Definition bitmap_flags (o : bitmap_op) : list bool :=
  match o with
  | AppendBit is_valid => [is_valid]
  | AppendRange flags => flags
  end.

(** All the flags a run of appends hands to the bitmap, in order. *)
Fixpoint bitmap_flags_all (ops : list bitmap_op) : list bool :=
  match ops with
  | [] => []
  | o :: ops' => bitmap_flags o ++ bitmap_flags_all ops'
  end.

Definition bitmap_run (ops : list bitmap_op) (b : ArrayBuilder.t) : ArrayBuilder.t :=
  fold_left bitmap_step ops b.

(** The state in which the bitmap tells the nulls: the counters are
    ordered, the bitmap has a bit for every slot reserved, the nulls
    counted are the zero bits below [length_], and no bit is set at or
    beyond [length_]. *)
Definition bitmap_consistent (b : ArrayBuilder.t) : Prop :=
  0 <= ArrayBuilder.length_ b <= ArrayBuilder.capacity_ b /\
  ArrayBuilder.capacity_ b <= 8 * Z.of_nat (List.length (ArrayBuilder.null_bitmap_data_ b)) /\
  ArrayBuilder.null_count_ b =
    zero_bits (ArrayBuilder.null_bitmap_data_ b) (Z.to_nat (ArrayBuilder.length_ b)) /\
  (forall i, ArrayBuilder.length_ b <= i ->
             BitUtil.GetBit (ArrayBuilder.null_bitmap_data_ b) i = false).

(** A BooleanBuilder in a consistent state: its bitmap is consistent and
    the bit-packed data buffer has a bit for every slot reserved. *)
Definition boolean_consistent (b : BooleanBuilder.t) : Prop :=
  bitmap_consistent (BooleanBuilder.base_ b) /\
  ArrayBuilder.capacity_ (BooleanBuilder.base_ b)
    <= 8 * Z.of_nat (List.length (BooleanBuilder.raw_data_ b)).

(** A PrimitiveBuilder in a consistent state: its bitmap is consistent and
    the data buffer has [sizeof(value_type)] bytes for every slot
    reserved. *)
Definition primitive_consistent (b : PrimitiveBuilder.t) : Prop :=
  bitmap_consistent (PrimitiveBuilder.base_ b) /\
  0 < PrimitiveBuilder.sizeof_value_type b /\
  ArrayBuilder.capacity_ (PrimitiveBuilder.base_ b) * PrimitiveBuilder.sizeof_value_type b
    <= Z.of_nat (List.length (PrimitiveBuilder.raw_data_ b)).

(** ** Properties of the virtual [Resize] *)

(** A [Resize] refuses, with Invalid and without touching the builder, a
    capacity that is negative or below the current one; when it succeeds
    the capacity is the one asked for, or the floor of 32 when that is
    more; and it never leaves the builder with less capacity than it
    had. *)
Definition Resize_only_grows (B : Type) `{Builder B} : Prop :=
  forall (c : Z) (b : B),
    (c < 0 \/ c < ArrayBuilder.capacity (base b) ->
       exists msg, Resize c b = (Invalid msg, b)) /\
    (0 <= c /\ ArrayBuilder.capacity (base b) <= c ->
       ArrayBuilder.CheckCapacity c (ArrayBuilder.capacity (base b)) = OK) /\
    (fst (Resize c b) = OK ->
       ArrayBuilder.capacity (base (snd (Resize c b))) = Z.max c kMinBuilderCapacity) /\
    ArrayBuilder.capacity (base b) <= ArrayBuilder.capacity (base (snd (Resize c b))).

(** What the drain of an adaptive builder is to respect for the builder
    never to lose capacity: it reserves room for the pending entries
    (spec section 4.5, step 3) and so leaves at least the capacity it
    found. *)
Definition keeps_capacity
  (commit : AdaptiveIntBuilderBase.t -> Status * AdaptiveIntBuilderBase.t) : Prop :=
  forall b : AdaptiveIntBuilderBase.t,
    ArrayBuilder.capacity (AdaptiveIntBuilderBase.base_ b)
    <= ArrayBuilder.capacity (AdaptiveIntBuilderBase.base_ (snd (commit b))).

(** ** States used as examples *)

(** A BooleanBuilder holding three valid elements. *)
Definition BooleanBuilder_example : BooleanBuilder.t :=
  {| BooleanBuilder.base_ :=
       {| ArrayBuilder.pool_ := mkPool 64 170; ArrayBuilder.null_bitmap_data_ := [7; 0; 0; 0];
          ArrayBuilder.null_count_ := 0; ArrayBuilder.length_ := 3; ArrayBuilder.capacity_ := 32 |};
     BooleanBuilder.raw_data_ := [255; 170; 170; 170] |}.

(** An adaptive builder with 1022 entries pending and nothing committed. *)
Definition AdaptiveIntBuilder_example : AdaptiveIntBuilderBase.t :=
  {| AdaptiveIntBuilderBase.base_ := ArrayBuilder.new (mkPool 4096 170);
     AdaptiveIntBuilderBase.raw_data_ := [];
     AdaptiveIntBuilderBase.int_size_ := 1;
     AdaptiveIntBuilderBase.pending_valid_ := replicate 1024 0;
     AdaptiveIntBuilderBase.pending_data_ := replicate 1024 0;
     AdaptiveIntBuilderBase.pending_pos_ := 1022;
     AdaptiveIntBuilderBase.pending_has_nulls_ := false |}.

(** A base builder that has reserved 32 slots, and a run of bitmap
    appends that crosses a byte boundary. *)
Definition ArrayBuilder_reserved : ArrayBuilder.t :=
  snd (ArrayBuilder.Resize 32 (ArrayBuilder.new (mkPool 4096 170))).

Definition bitmap_ops_example : list bitmap_op :=
  [AppendBit true; AppendBit false;
   AppendRange [true; false; false; true; true; true; true; false; true]].

(** ** NumericBuilder<T> (lines 376-415) and the inherited bulk append *)

(** The [n] bytes of a buffer that start at byte [offset]. *)
Definition slice (bytes : list Z) (offset n : Z) : list Z :=
  take (Z.to_nat n) (drop (Z.to_nat offset) bytes).

(** Writing the bytes [val] into a buffer from byte [offset] on. *)
Definition store (bytes : list Z) (offset : Z) (val : list Z) : list Z :=
  list_inserts (Z.to_nat offset) val bytes.

Module NumericBuilder.

(** [NumericBuilder<T>] adds no member to [PrimitiveBuilder<T>].  A value
    of [value_type] is given by the [sizeof(value_type)] bytes of its
    object representation. *)
Definition t : Type := PrimitiveBuilder.t.

(** [PrimitiveBuilder<T>::GetValue(index)] (lines 273-275): element [index]
    of the data buffer seen as an array of [value_type]. *)
Definition GetValue (index : Z) (b : PrimitiveBuilder.t) : list Z :=
  slice (PrimitiveBuilder.raw_data_ b)
    (index * PrimitiveBuilder.sizeof_value_type b)
    (PrimitiveBuilder.sizeof_value_type b).

(** [UnsafeAppend(const value_type val)] (lines 406-409):
    [BitUtil::SetBit(null_bitmap_data_, length_); raw_data_[length_++] = val;] *)
Definition UnsafeAppend (val : list Z) (b : PrimitiveBuilder.t) : PrimitiveBuilder.t :=
  let b1 :=
    PrimitiveBuilder.set_base
      (ArrayBuilder.set_bitmap
         (BitUtil.SetBit (ArrayBuilder.null_bitmap_data_ (PrimitiveBuilder.base_ b))
            (ArrayBuilder.length_ (PrimitiveBuilder.base_ b)))
         (PrimitiveBuilder.base_ b)) b in
  let b2 :=
    PrimitiveBuilder.set_raw_data
      (store (PrimitiveBuilder.raw_data_ b1)
         (ArrayBuilder.length_ (PrimitiveBuilder.base_ b1)
          * PrimitiveBuilder.sizeof_value_type b1)
         (take (Z.to_nat (PrimitiveBuilder.sizeof_value_type b1)) val)) b1 in
  PrimitiveBuilder.set_base
    (ArrayBuilder.set_length
       (ArrayBuilder.length_ (PrimitiveBuilder.base_ b2) + 1)
       (PrimitiveBuilder.base_ b2)) b2.

(** [Append(const value_type val)] (lines 395-399). *)
Definition Append (val : list Z) (b : PrimitiveBuilder.t) : Status * PrimitiveBuilder.t :=
  ARROW_RETURN_NOT_OK (Reserve 1 b) ;; fun b =>
  (OK, UnsafeAppend val b).

(** [PrimitiveBuilder<T>::AppendValues(values_begin, values_end,
    valid_begin)] for a [ValidIter] that is not a pointer (lines 331-345).
    The values are given as the list of their object representations, the
    validity iterator as the list of the flags it yields, of which the
    first [length] are read. *)
Definition AppendValues (values : list (list Z)) (valid : list bool)
  (b : PrimitiveBuilder.t) : Status * PrimitiveBuilder.t :=
  let length := Z.of_nat (List.length values) in
  ARROW_RETURN_NOT_OK (Reserve length b) ;; fun b =>
  let b1 :=
    PrimitiveBuilder.set_raw_data
      (store (PrimitiveBuilder.raw_data_ b)
         (ArrayBuilder.length_ (PrimitiveBuilder.base_ b)
          * PrimitiveBuilder.sizeof_value_type b)
         (List.concat
            (List.map (take (Z.to_nat (PrimitiveBuilder.sizeof_value_type b))) values)))
      b in
  let b2 :=
    PrimitiveBuilder.set_base
      (ArrayBuilder.UnsafeAppendToBitmap_range
         (take (Z.to_nat length) valid) (PrimitiveBuilder.base_ b1)) b1 in
  (OK, b2).

(** A scalar append: a value or a null.  A client issues them in order
    and stops at the first status that is not OK. *)
Inductive op : Type :=
  | OpAppend (val : list Z)
  | OpAppendNull.

Definition step (o : op) (b : PrimitiveBuilder.t) : Status * PrimitiveBuilder.t :=
  match o with
  | OpAppend val => Append val b
  | OpAppendNull => PrimitiveBuilder.AppendNull b
  end.

Fixpoint run (ops : list op) (b : PrimitiveBuilder.t) : Status * PrimitiveBuilder.t :=
  match ops with
  | [] => (OK, b)
  | o :: ops' => ARROW_RETURN_NOT_OK (step o b) ;; run ops'
  end.

(** What a slot holds after the append: the value, or zero bytes for a
    null; and the validity flag of the slot. *)
Definition stored (sizeof_T : Z) (o : op) : list Z :=
  match o with
  | OpAppend val => val
  | OpAppendNull => replicate (Z.to_nat sizeof_T) 0
  end.

Definition is_valid (o : op) : bool :=
  match o with OpAppend _ => true | OpAppendNull => false end.

(** Every value of the run has the size of [value_type]. *)
Definition well_sized (sizeof_T : Z) (o : op) : Prop :=
  match o with
  | OpAppend val => Z.of_nat (List.length val) = sizeof_T
  | OpAppendNull => True
  end.

End NumericBuilder.

(** ** Runs of checked appends on BooleanBuilder and StructBuilder *)

Module BooleanRun.

Inductive op : Type :=
  | OpAppend (val : bool)
  | OpAppendNull.

Definition step (o : op) (b : BooleanBuilder.t) : Status * BooleanBuilder.t :=
  match o with
  | OpAppend val => BooleanBuilder.Append val b
  | OpAppendNull => BooleanBuilder.AppendNull b
  end.

Fixpoint run (ops : list op) (b : BooleanBuilder.t) : Status * BooleanBuilder.t :=
  match ops with
  | [] => (OK, b)
  | o :: ops' => ARROW_RETURN_NOT_OK (step o b) ;; run ops'
  end.

Definition is_valid (o : op) : bool :=
  match o with OpAppend _ => true | OpAppendNull => false end.

End BooleanRun.

(** A client that calls [StructBuilder::Append(is_valid)] for each flag
    in order and stops at the first status that is not OK. *)
Fixpoint StructBuilder_run (flags : list bool) (b : StructBuilder.t)
  : Status * StructBuilder.t :=
  match flags with
  | [] => (OK, b)
  | v :: flags' => ARROW_RETURN_NOT_OK (StructBuilder.Append v b) ;; StructBuilder_run flags'
  end.

(** ** The slots of a BinaryBuilder *)

(** The bytes, the byte length and the validity flag of a logical append,
    and the bitmap append it makes. *)
Definition slot_bytes (o : BinaryBuilder.op) : list Z :=
  match o with
  | BinaryBuilder.OpAppend value => value
  | BinaryBuilder.OpAppendNull => []
  end.

Definition slot_valid (o : BinaryBuilder.op) : bool :=
  match o with
  | BinaryBuilder.OpAppend _ => true
  | BinaryBuilder.OpAppendNull => false
  end.

(** The byte offsets at which the slots of a run start, the value data
    being [n] bytes long before the run. *)
Fixpoint slot_starts (n : Z) (ops : list BinaryBuilder.op) : list Z :=
  match ops with
  | [] => []
  | o :: ops' => n :: slot_starts (n + Z.of_nat (List.length (slot_bytes o))) ops'
  end.

(** All the bytes of the slots of a run, in order. *)
Fixpoint slots_data (ops : list BinaryBuilder.op) : list Z :=
  match ops with
  | [] => []
  | o :: ops' => slot_bytes o ++ slots_data ops'
  end.

(** A BinaryBuilder presized for a run of unchecked appends, as builder.h
    (lines 823-826) asks of the caller: [Reserve] has made room for the
    elements, in the bitmap and in the offsets, and [ReserveData] for the
    bytes of the values. *)
Definition BinaryBuilder_presized (ops : list BinaryBuilder.op) (b : BinaryBuilder.t)
  : Prop :=
  0 <= ArrayBuilder.length_ (BinaryBuilder.base_ b) /\
  ArrayBuilder.length_ (BinaryBuilder.base_ b) + Z.of_nat (List.length ops)
    <= ArrayBuilder.capacity_ (BinaryBuilder.base_ b) /\
  ArrayBuilder.capacity_ (BinaryBuilder.base_ b)
    <= 8 * Z.of_nat (List.length (ArrayBuilder.null_bitmap_data_ (BinaryBuilder.base_ b))) /\
  TypedBufferBuilder.length (BinaryBuilder.offsets_builder_ b) + Z.of_nat (List.length ops)
    <= TypedBufferBuilder.capacity_ (BinaryBuilder.offsets_builder_ b) /\
  BinaryBuilder.value_data_length b + Z.of_nat (List.length (slots_data ops))
    <= BinaryBuilder.value_data_capacity b.

(** A new builder presized for four elements and three bytes of values. *)
Definition BinaryBuilder_reserved : BinaryBuilder.t :=
  snd (BinaryBuilder.ReserveData 3
         (snd (Reserve 4 (BinaryBuilder.new (mkPool 4096 170))))).

(** The byte offset at which slot [k] of a run starts, the value data
    being [n] bytes long before the run: [n] plus the bytes of the slots
    before it. *)
Definition slot_start (n : Z) (ops : list BinaryBuilder.op) (k : nat) : Z :=
  n + Z.of_nat (List.length (slots_data (take k ops))).

(** ** FixedSizeBinaryBuilder: accessors *)

(** [value_data_length()] (line 964) and [byte_width()] (line 966). *)
Definition FixedSizeBinaryBuilder_value_data_length (b : FixedSizeBinaryBuilder.t) : Z :=
  BufferBuilder.length (FixedSizeBinaryBuilder.byte_builder_ b).

Definition FixedSizeBinaryBuilder_byte_width (b : FixedSizeBinaryBuilder.t) : Z :=
  FixedSizeBinaryBuilder.byte_width_ b.

(** A FixedSizeBinaryBuilder in a consistent state: the value data holds
    [byte_width] bytes for each element, and the byte buffer has been
    sized for the capacity, as [Resize] sizes it. *)
Definition fixed_size_consistent (b : FixedSizeBinaryBuilder.t) : Prop :=
  0 <= FixedSizeBinaryBuilder.byte_width_ b /\
  0 <= ArrayBuilder.length_ (FixedSizeBinaryBuilder.base_ b) /\
  BufferBuilder.length (FixedSizeBinaryBuilder.byte_builder_ b)
    = ArrayBuilder.length_ (FixedSizeBinaryBuilder.base_ b)
      * FixedSizeBinaryBuilder.byte_width_ b /\
  ArrayBuilder.capacity_ (FixedSizeBinaryBuilder.base_ b)
    * FixedSizeBinaryBuilder.byte_width_ b
    <= BufferBuilder.capacity_ (FixedSizeBinaryBuilder.byte_builder_ b).

(** ** The adaptive builders: what a run leaves pending *)

(** Whether a run of scalar appends holds a null. *)
Definition adaptive_any_null (ops : list adaptive_op) : bool :=
  existsb adaptive_is_null ops.

(** A new builder of 4-byte values that has reserved room, and the
    appends of scenario 1 of the spec: 1, 2, null, 4 as [int32_t]. *)
Definition Int32Builder_reserved : PrimitiveBuilder.t :=
  snd (Reserve 1 (PrimitiveBuilder.new 4 (mkPool 4096 170))).

Definition Int32_scenario : list NumericBuilder.op :=
  [NumericBuilder.OpAppend [1; 0; 0; 0]; NumericBuilder.OpAppend [2; 0; 0; 0];
   NumericBuilder.OpAppendNull; NumericBuilder.OpAppend [4; 0; 0; 0]].

(* ===================================================================== *)
(** * Theorems *)
(* ===================================================================== *)

Import ArrayBuilder.
Import Virtual.

(** ** Resize and its capacity check *)

Lemma CheckCapacity_OK_iff (c old : Z) :
  CheckCapacity c old = OK <-> 0 <= c /\ old <= c.
Proof.
  unfold CheckCapacity.
  destruct (Z.ltb_spec c 0); [split; [discriminate | lia] |].
  destruct (Z.ltb_spec c old); [split; [discriminate | lia] |].
  split; [lia | reflexivity].
Qed.

Lemma CheckCapacity_Invalid_iff (c old : Z) :
  (exists msg, CheckCapacity c old = Invalid msg) <-> c < 0 \/ c < old.
Proof.
  unfold CheckCapacity.
  destruct (Z.ltb_spec c 0); [split; [lia | eauto] |].
  destruct (Z.ltb_spec c old); [split; [lia | eauto] |].
  split; [intros [msg Hm]; discriminate | lia].
Qed.

(** ** NullBuilder *)

Lemma NullBuilder_run_counts (ops : list NullBuilder.op) (b : NullBuilder.t) :
  length_ (NullBuilder.run ops b) = length_ b + Z.of_nat (List.length ops) /\
  null_count_ (NullBuilder.run ops b) = null_count_ b + Z.of_nat (List.length ops) /\
  null_bitmap_data_ (NullBuilder.run ops b) = null_bitmap_data_ b /\
  capacity_ (NullBuilder.run ops b) = capacity_ b.
Proof.
  revert b. induction ops as [| o ops IH]; intros b.
  - simpl. repeat split; lia.
  - change (NullBuilder.run (o :: ops) b)
      with (NullBuilder.run ops (snd (NullBuilder.step o b))).
    destruct (IH (snd (NullBuilder.step o b))) as (Hl & Hn & Hb & Hc).
    rewrite Hl, Hn, Hb, Hc.
    destruct o; simpl; repeat split; lia.
Qed.

(** ** Bits of a byte buffer *)

Ltac enum8 k :=
  let H := fresh "Hk" in
  assert (k = 0 \/ k = 1 \/ k = 2 \/ k = 3 \/ k = 4 \/ k = 5 \/ k = 6 \/ k = 7)
    as H by lia;
  repeat (destruct H as [-> | H]); [ .. | subst k].

Lemma kBitmask_bits (k j : Z) :
  0 <= k < 8 -> 0 <= j < 8 ->
  Z.testbit (BitUtil.at_ BitUtil.kBitmask k) j = (j =? k).
Proof. intros Hk Hj. enum8 k; enum8 j; reflexivity. Qed.

Lemma kFlippedBitmask_bits (k j : Z) :
  0 <= k < 8 -> 0 <= j < 8 ->
  Z.testbit (BitUtil.at_ BitUtil.kFlippedBitmask k) j = negb (j =? k).
Proof. intros Hk Hj. enum8 k; enum8 j; reflexivity. Qed.

Lemma at_insert (l : list Z) (n : nat) (x : Z) (k : Z) :
  0 <= k ->
  BitUtil.at_ (<[n := x]> l) k =
    if decide (n = Z.to_nat k /\ (n < List.length l)%nat) then x else BitUtil.at_ l k.
Proof.
  intros Hk. unfold BitUtil.at_.
  destruct (decide (n = Z.to_nat k /\ (n < List.length l)%nat)) as [[-> Hlt] | Hne].
  - by rewrite list_lookup_insert_eq.
  - destruct (decide (n = Z.to_nat k)) as [-> | Hn].
    + rewrite list_insert_ge by lia. reflexivity.
    + by rewrite list_lookup_insert_ne.
Qed.

Lemma at_ge (l : list Z) (k : Z) :
  Z.of_nat (List.length l) <= k -> BitUtil.at_ l k = 0.
Proof.
  intros Hk. unfold BitUtil.at_. rewrite lookup_ge_None_2 by lia. reflexivity.
Qed.

Lemma length_write_bit (bits : list Z) (i : Z) (v : bool) :
  List.length (write_bit bits i v) = List.length bits.
Proof. destruct v; apply length_insert. Qed.

Lemma GetBit_write_bit (bits : list Z) (i j : Z) (v : bool) :
  0 <= i < 8 * Z.of_nat (List.length bits) -> 0 <= j ->
  BitUtil.GetBit (write_bit bits i v) j = if j =? i then v else BitUtil.GetBit bits j.
Proof.
  intros Hi Hj.
  assert (Hq : forall x, 0 <= x -> Z.quot x 8 = x / 8)
    by (intros; apply Z.quot_div_nonneg; lia).
  assert (Hr : forall x, 0 <= x -> Z.rem x 8 = x mod 8)
    by (intros; apply Z.rem_mod_nonneg; lia).
  unfold BitUtil.GetBit, write_bit, BitUtil.SetBit, BitUtil.ClearBit.
  rewrite !Hq, !Hr by lia.
  assert (Hi8 : 0 <= i mod 8 < 8) by (apply Z.mod_pos_bound; lia).
  assert (Hj8 : 0 <= j mod 8 < 8) by (apply Z.mod_pos_bound; lia).
  assert (Hid : (Z.to_nat (i / 8) < List.length bits)%nat).
  { apply Nat2Z.inj_lt. rewrite Z2Nat.id by (apply Z.div_pos; lia).
    apply Z.div_lt_upper_bound; lia. }
  assert (Hdec : i / 8 = j / 8 /\ i mod 8 = j mod 8 <-> j = i).
  { split; [intros [H1 H2] | intros ->; done].
    rewrite (Z.div_mod i 8), (Z.div_mod j 8) by lia. rewrite H1, H2. reflexivity. }
  assert (Hnat : Z.to_nat (i / 8) = Z.to_nat (j / 8) <-> i / 8 = j / 8).
  { split; [| intros ->; done]. intros H.
    apply Z2Nat.inj in H; [done | apply Z.div_pos; lia | apply Z.div_pos; lia]. }
  destruct v; rewrite at_insert by (apply Z.div_pos; lia);
    (destruct (decide _) as [[Hb _] | Hb];
     [ apply Hnat in Hb; rewrite <- Hb;
       first [ rewrite Z.lor_spec, kBitmask_bits by done
             | rewrite Z.land_spec, kFlippedBitmask_bits by done ];
       destruct (Z.eqb_spec (j mod 8) (i mod 8)) as [Hm | Hm];
       [ rewrite (proj2 (Z.eqb_eq j i)) by (apply Hdec; split; [done | lia]);
         simpl; rewrite ?orb_true_r, ?andb_false_r; reflexivity
       | rewrite (proj2 (Z.eqb_neq j i)) by (intros ->; done);
         simpl; rewrite ?orb_false_r, ?andb_true_r; reflexivity ]
     | rewrite (proj2 (Z.eqb_neq j i));
       [ reflexivity
       | intros ->; apply Hb; split; [reflexivity | exact Hid] ] ]).
Qed.

Lemma quot_rem_8 (a r : Z) :
  0 <= a -> 0 <= r < 8 -> Z.quot (8 * a + r) 8 = a /\ Z.rem (8 * a + r) 8 = r.
Proof.
  intros Ha Hr.
  rewrite Z.quot_div_nonneg, Z.rem_mod_nonneg by lia.
  split; Z.div_mod_to_equations; lia.
Qed.

(** ** The iterator-based append writes the flags bit by bit *)

Lemma loop_body_write (c : cursor) (v : bool) :
  0 <= byte_offset c -> 0 <= bit_offset c <= 8 ->
  cursor_pos c < 8 * Z.of_nat (List.length (c_bitmap c)) ->
  cursor_bits (loop_body c v) = write_bit (cursor_bits c) (cursor_pos c) v /\
  cursor_pos (loop_body c v) = cursor_pos c + 1 /\
  0 <= byte_offset (loop_body c v) /\
  1 <= bit_offset (loop_body c v) <= 8 /\
  List.length (c_bitmap (loop_body c v)) = List.length (c_bitmap c) /\
  c_null_count (loop_body c v) = c_null_count c + (if v then 0 else 1).
Proof.
  intros Hbyte Hbit Hroom. unfold cursor_pos in *.
  unfold loop_body. destruct (Z.eqb_spec (bit_offset c) 8) as [H8 | H8].
  - (* the byte is full: it is written back and the next one is loaded *)
    assert (Hq : Z.quot (8 * byte_offset c + bit_offset c) 8 = byte_offset c + 1 /\
                 Z.rem (8 * byte_offset c + bit_offset c) 8 = 0).
    { replace (8 * byte_offset c + bit_offset c)
        with (8 * (byte_offset c + 1) + 0) by lia. apply quot_rem_8; lia. }
    destruct Hq as [Hq Hr].
    unfold cursor_bits, write_bit, BitUtil.SetBit, BitUtil.ClearBit.
    rewrite Hq, Hr.
    destruct v; simpl; rewrite ?length_insert; repeat split; try lia.
  - assert (Hq : Z.quot (8 * byte_offset c + bit_offset c) 8 = byte_offset c /\
                 Z.rem (8 * byte_offset c + bit_offset c) 8 = bit_offset c)
      by (apply quot_rem_8; lia).
    destruct Hq as [Hq Hr].
    assert (Hin : (Z.to_nat (byte_offset c) < List.length (c_bitmap c))%nat) by lia.
    unfold cursor_bits, write_bit, BitUtil.SetBit, BitUtil.ClearBit.
    rewrite Hq, Hr.
    assert (Hat : BitUtil.at_ (<[Z.to_nat (byte_offset c) := bitset c]> (c_bitmap c))
                    (byte_offset c) = bitset c).
    { rewrite at_insert by lia. rewrite decide_True; [reflexivity | split; [done | lia]]. }
    rewrite Hat.
    destruct v; simpl; rewrite list_insert_insert_eq; repeat split; try lia.
Qed.

Lemma loop_write_bits (flags : list bool) (c : cursor) :
  0 <= byte_offset c -> 0 <= bit_offset c <= 8 ->
  cursor_pos c + Z.of_nat (List.length flags)
    <= 8 * Z.of_nat (List.length (c_bitmap c)) ->
  let c' := fold_left loop_body flags c in
  cursor_bits c' = write_bits (cursor_bits c) (cursor_pos c) flags /\
  c_null_count c' = c_null_count c + count_invalid flags /\
  (flags <> [] -> 1 <= bit_offset c').
Proof.
  revert c. induction flags as [| v flags IH]; intros c Hbyte Hbit Hroom; simpl.
  - repeat split; [lia | congruence].
  - simpl in Hroom.
    destruct (loop_body_write c v) as (Hbits & Hpos & Hbyte' & Hbit' & Hlen & Hnull);
      [lia | lia | lia |].
    destruct (IH (loop_body c v)) as (IHbits & IHnull & IHbit);
      [lia | lia | rewrite Hpos, Hlen; lia |].
    rewrite IHbits, IHnull, Hbits, Hpos, Hnull.
    repeat split; [lia |]. intros _.
    destruct flags as [| v' flags]; [exact (proj1 Hbit') | apply IHbit; discriminate].
Qed.

Lemma length_write_bits (flags : list bool) (bits : list Z) (i : Z) :
  List.length (write_bits bits i flags) = List.length bits.
Proof.
  revert bits i. induction flags as [| v flags IH]; intros bits i; simpl; [done |].
  rewrite IH. apply length_write_bit.
Qed.

(** The byte-wise loop of the source and the bit-by-bit writing agree. *)
Lemma UnsafeAppendToBitmap_range_write_bits (flags : list bool) (b : ArrayBuilder.t) :
  0 <= length_ b ->
  length_ b + Z.of_nat (List.length flags)
    <= 8 * Z.of_nat (List.length (null_bitmap_data_ b)) ->
  UnsafeAppendToBitmap_range flags b =
    {| pool_ := pool_ b;
       null_bitmap_data_ := write_bits (null_bitmap_data_ b) (length_ b) flags;
       null_count_ := null_count_ b + count_invalid flags;
       length_ := length_ b + Z.of_nat (List.length flags);
       capacity_ := capacity_ b |}.
Proof.
  intros Hlen Hroom. unfold UnsafeAppendToBitmap_range.
  set (c0 := {| byte_offset := Z.quot (length_ b) 8;
                bit_offset := Z.rem (length_ b) 8;
                bitset := BitUtil.at_ (null_bitmap_data_ b) (Z.quot (length_ b) 8);
                c_bitmap := null_bitmap_data_ b;
                c_null_count := null_count_ b |}).
  assert (Hq : Z.quot (length_ b) 8 = length_ b / 8)
    by (apply Z.quot_div_nonneg; lia).
  assert (Hr : Z.rem (length_ b) 8 = length_ b mod 8)
    by (apply Z.rem_mod_nonneg; lia).
  assert (Hpos0 : cursor_pos c0 = length_ b).
  { unfold cursor_pos, c0; simpl. rewrite Hq, Hr. Z.div_mod_to_equations; lia. }
  assert (Hbits0 : cursor_bits c0 = null_bitmap_data_ b).
  { unfold cursor_bits, c0; simpl. apply list_insert_id'. intros Hlt.
    unfold BitUtil.at_.
    destruct (lookup_lt_is_Some_2 _ _ Hlt) as [x Hx]. rewrite Hx. reflexivity. }
  destruct (loop_write_bits flags c0) as (Hbits & Hnull & Hbit).
  { unfold c0; simpl. rewrite Hq. apply Z.div_pos; lia. }
  { unfold c0; simpl. rewrite Hr. pose proof (Z.mod_pos_bound (length_ b) 8). lia. }
  { rewrite Hpos0. unfold c0; simpl. lia. }
  rewrite Hbits0, Hpos0 in Hbits. change (c_null_count c0) with (null_count_ b) in Hnull.
  f_equal; [| exact Hnull].
  destruct flags as [| v flags].
  - simpl. destruct (Z.eqb_spec (Z.rem (length_ b) 8) 0); simpl; [reflexivity |].
    exact Hbits0.
  - assert (H1 : 1 <= bit_offset (fold_left loop_body (v :: flags) c0))
      by (apply Hbit; discriminate).
    rewrite (proj2 (Z.eqb_neq _ 0)) by lia. simpl negb. cbv iota.
    exact Hbits.
Qed.

Lemma GetBit_write_bits_outside (flags : list bool) (bits : list Z) (s j : Z) :
  0 <= s -> s + Z.of_nat (List.length flags) <= 8 * Z.of_nat (List.length bits) ->
  0 <= j -> j < s \/ s + Z.of_nat (List.length flags) <= j ->
  BitUtil.GetBit (write_bits bits s flags) j = BitUtil.GetBit bits j.
Proof.
  revert bits s. induction flags as [| v flags IH]; intros bits s Hs Hroom Hj Hout;
    simpl in *; [reflexivity |].
  rewrite IH by (rewrite ?length_write_bit; lia).
  rewrite GetBit_write_bit by lia.
  rewrite (proj2 (Z.eqb_neq j s)) by lia. reflexivity.
Qed.

Lemma GetBit_write_bits_inside (flags : list bool) (bits : list Z) (s : Z)
      (k : nat) (v : bool) :
  0 <= s -> s + Z.of_nat (List.length flags) <= 8 * Z.of_nat (List.length bits) ->
  flags !! k = Some v ->
  BitUtil.GetBit (write_bits bits s flags) (s + Z.of_nat k) = v.
Proof.
  revert bits s k. induction flags as [| w flags IH]; intros bits s k Hs Hroom Hk;
    [discriminate |].
  simpl in Hroom. destruct k as [| k]; simpl in *.
  - injection Hk as ->. rewrite Z.add_0_r.
    rewrite GetBit_write_bits_outside by (rewrite ?length_write_bit; lia).
    rewrite GetBit_write_bit by lia.
    rewrite Z.eqb_refl. reflexivity.
  - replace (s + Z.of_nat (S k)) with ((s + 1) + Z.of_nat k) by lia.
    apply IH; [lia | rewrite length_write_bit; lia | exact Hk].
Qed.

(** ** Counting the zero bits *)

Lemma zero_bits_ext (bits1 bits2 : list Z) (n : nat) :
  (forall i, 0 <= i < Z.of_nat n -> BitUtil.GetBit bits1 i = BitUtil.GetBit bits2 i) ->
  zero_bits bits1 n = zero_bits bits2 n.
Proof.
  induction n as [| n IH]; intros Hext; simpl; [reflexivity |].
  rewrite IH by (intros i Hi; apply Hext; lia).
  rewrite Hext by lia. reflexivity.
Qed.

Lemma zero_bits_flags (flags : list bool) (bits : list Z) (n : nat) :
  (forall k v, flags !! k = Some v -> BitUtil.GetBit bits (Z.of_nat (n + k)) = v) ->
  zero_bits bits (n + List.length flags) = zero_bits bits n + count_invalid flags.
Proof.
  revert n. induction flags as [| w flags IH]; intros n Hbits; simpl.
  - rewrite Nat.add_0_r. lia.
  - replace (n + S (List.length flags))%nat with (S n + List.length flags)%nat by lia.
    rewrite IH.
    + simpl. rewrite <- (Hbits 0%nat w eq_refl). rewrite Nat.add_0_r. lia.
    + intros k v Hk. replace (S n + k)%nat with (n + S k)%nat by lia.
      apply Hbits. exact Hk.
Qed.

(** ** The bitmap appends keep the bitmap consistent *)

Lemma consistent_after_write (b b' : ArrayBuilder.t) (flags : list bool) :
  bitmap_consistent b ->
  length_ b + Z.of_nat (List.length flags) <= capacity_ b ->
  (forall j, 0 <= j ->
     BitUtil.GetBit (null_bitmap_data_ b') j =
     BitUtil.GetBit (write_bits (null_bitmap_data_ b) (length_ b) flags) j) ->
  List.length (null_bitmap_data_ b') = List.length (null_bitmap_data_ b) ->
  length_ b' = length_ b + Z.of_nat (List.length flags) ->
  null_count_ b' = null_count_ b + count_invalid flags ->
  capacity_ b' = capacity_ b ->
  bitmap_consistent b' /\
  (forall k v, flags !! k = Some v ->
     BitUtil.GetBit (null_bitmap_data_ b') (length_ b + Z.of_nat k) = v) /\
  (forall j, 0 <= j < length_ b ->
     BitUtil.GetBit (null_bitmap_data_ b') j = BitUtil.GetBit (null_bitmap_data_ b) j).
Proof.
  intros (Hord & Hcap & Hnull & Hclean) Hroom Hbits Hlen Hlength Hcount Hcapacity.
  assert (Hin : forall k v, flags !! k = Some v ->
     BitUtil.GetBit (null_bitmap_data_ b') (length_ b + Z.of_nat k) = v).
  { intros k v Hk. rewrite Hbits by lia.
    apply GetBit_write_bits_inside; [lia | lia | exact Hk]. }
  assert (Hbelow : forall j, 0 <= j < length_ b ->
     BitUtil.GetBit (null_bitmap_data_ b') j = BitUtil.GetBit (null_bitmap_data_ b) j).
  { intros j Hj. rewrite Hbits by lia.
    apply GetBit_write_bits_outside; lia. }
  split; [| split; assumption].
  unfold bitmap_consistent. rewrite Hlen, Hlength, Hcount, Hcapacity.
  repeat split; try lia.
  - replace (Z.to_nat (length_ b + Z.of_nat (List.length flags)))
      with (Z.to_nat (length_ b) + List.length flags)%nat by lia.
    rewrite zero_bits_flags.
    + rewrite Hnull. f_equal. symmetry. apply zero_bits_ext.
      intros i Hi. apply Hbelow. lia.
    + intros k v Hk. rewrite Nat2Z.inj_add, Z2Nat.id by lia. apply Hin, Hk.
  - intros i Hi. rewrite Hbits by lia.
    rewrite GetBit_write_bits_outside by lia. apply Hclean. lia.
Qed.

Lemma bitmap_step_consistent (o : bitmap_op) (b : ArrayBuilder.t) :
  bitmap_consistent b ->
  length_ b + Z.of_nat (List.length (bitmap_flags o)) <= capacity_ b ->
  bitmap_consistent (bitmap_step b o) /\
  length_ (bitmap_step b o) = length_ b + Z.of_nat (List.length (bitmap_flags o)) /\
  null_count_ (bitmap_step b o) = null_count_ b + count_invalid (bitmap_flags o) /\
  capacity_ (bitmap_step b o) = capacity_ b /\
  (forall k v, bitmap_flags o !! k = Some v ->
     BitUtil.GetBit (null_bitmap_data_ (bitmap_step b o)) (length_ b + Z.of_nat k) = v) /\
  (forall j, 0 <= j < length_ b ->
     BitUtil.GetBit (null_bitmap_data_ (bitmap_step b o)) j
     = BitUtil.GetBit (null_bitmap_data_ b) j).
Proof.
  intros Hcons Hroom.
  pose proof Hcons as (Hord & Hcap & Hnull & Hclean).
  assert (Hgoal : bitmap_consistent (bitmap_step b o) /\
    (forall k v, bitmap_flags o !! k = Some v ->
       BitUtil.GetBit (null_bitmap_data_ (bitmap_step b o)) (length_ b + Z.of_nat k) = v) /\
    (forall j, 0 <= j < length_ b ->
       BitUtil.GetBit (null_bitmap_data_ (bitmap_step b o)) j
       = BitUtil.GetBit (null_bitmap_data_ b) j) /\
    length_ (bitmap_step b o) = length_ b + Z.of_nat (List.length (bitmap_flags o)) /\
    null_count_ (bitmap_step b o) = null_count_ b + count_invalid (bitmap_flags o) /\
    capacity_ (bitmap_step b o) = capacity_ b).
  { destruct o as [is_valid | flags]; simpl in Hroom.
    - destruct (consistent_after_write b (bitmap_step b (AppendBit is_valid)) [is_valid])
        as (H1 & H2 & H3).
      + exact Hcons.
      + simpl; lia.
      + intros j Hj. destruct is_valid; [reflexivity |].
        (* a null: the bit is left alone, and it was zero *)
        change (BitUtil.GetBit (null_bitmap_data_ b) j =
                BitUtil.GetBit (write_bit (null_bitmap_data_ b) (length_ b) false) j).
        rewrite GetBit_write_bit by lia.
        destruct (Z.eqb_spec j (length_ b)) as [-> | Hne]; [| reflexivity].
        apply Hclean. lia.
      + destruct is_valid; simpl; [apply length_insert | reflexivity].
      + destruct is_valid; simpl; lia.
      + destruct is_valid; simpl; lia.
      + destruct is_valid; reflexivity.
      + refine (conj H1 (conj H2 (conj H3 _))).
        destruct is_valid; simpl; repeat split; lia.
    - change (bitmap_step b (AppendRange flags))
        with (UnsafeAppendToBitmap_range flags b).
      change (bitmap_flags (AppendRange flags)) with flags.
      rewrite UnsafeAppendToBitmap_range_write_bits by lia.
      destruct (consistent_after_write b
                  {| pool_ := pool_ b;
                     null_bitmap_data_ := write_bits (null_bitmap_data_ b) (length_ b) flags;
                     null_count_ := null_count_ b + count_invalid flags;
                     length_ := length_ b + Z.of_nat (List.length flags);
                     capacity_ := capacity_ b |} flags) as (H1 & H2 & H3);
        simpl; try lia; try reflexivity; try assumption.
      + apply length_write_bits.
      + refine (conj H1 (conj H2 (conj H3 _))). repeat split. }
  tauto.
Qed.

Lemma count_invalid_app (flags1 flags2 : list bool) :
  count_invalid (flags1 ++ flags2) = count_invalid flags1 + count_invalid flags2.
Proof. induction flags1 as [| v flags1 IH]; simpl; [reflexivity | rewrite IH; lia]. Qed.

Lemma bitmap_run_consistent (ops : list bitmap_op) (b : ArrayBuilder.t) :
  bitmap_consistent b ->
  length_ b + Z.of_nat (List.length (bitmap_flags_all ops)) <= capacity_ b ->
  bitmap_consistent (bitmap_run ops b) /\
  length_ (bitmap_run ops b)
    = length_ b + Z.of_nat (List.length (bitmap_flags_all ops)) /\
  null_count_ (bitmap_run ops b)
    = null_count_ b + count_invalid (bitmap_flags_all ops) /\
  (forall k v, bitmap_flags_all ops !! k = Some v ->
     BitUtil.GetBit (null_bitmap_data_ (bitmap_run ops b)) (length_ b + Z.of_nat k) = v) /\
  (forall j, 0 <= j < length_ b ->
     BitUtil.GetBit (null_bitmap_data_ (bitmap_run ops b)) j
     = BitUtil.GetBit (null_bitmap_data_ b) j).
Proof.
  revert b. induction ops as [| o ops IH]; intros b Hcons Hroom.
  - simpl. split; [exact Hcons |]. repeat split; [lia | lia |].
    intros k v Hk. discriminate.
  - change (bitmap_run (o :: ops) b) with (bitmap_run ops (bitmap_step b o)).
    simpl bitmap_flags_all in *. rewrite length_app in Hroom.
    destruct (bitmap_step_consistent o b Hcons) as (Hc1 & Hl1 & Hn1 & Hcap1 & Hin1 & Hlow1);
      [lia |].
    destruct (IH (bitmap_step b o) Hc1) as (Hc & Hl & Hn & Hin & Hlow);
      [lia |].
    pose proof Hcons as (Hord & _).
    rewrite Hl, Hn, Hl1, Hn1, length_app, count_invalid_app.
    split; [exact Hc |]. repeat split; [lia | lia | |].
    + intros k v Hk. apply lookup_app_Some in Hk as [Hk | [Hge Hk]].
      * rewrite Hlow by (apply lookup_lt_Some in Hk; lia). apply Hin1, Hk.
      * specialize (Hin _ _ Hk). rewrite Hl1 in Hin.
        replace (length_ b + Z.of_nat k)
          with (length_ b + Z.of_nat (List.length (bitmap_flags o))
                + Z.of_nat (k - List.length (bitmap_flags o))) by lia.
        exact Hin.
    + intros j Hj. rewrite Hlow by lia. apply Hlow1, Hj.
Qed.


(** ** Resize and Reserve *)

Lemma NextPower2_ge (n : Z) : n <= BitUtil.NextPower2 n.
Proof.
  unfold BitUtil.NextPower2.
  destruct (Z_lt_le_dec 1 n) as [Hn | Hn].
  - apply (Z.log2_up_spec n Hn).
  - rewrite Z.log2_up_eqn0 by lia. simpl. lia.
Qed.

Lemma BytesForBits_div (c : Z) : 0 <= c -> BitUtil.BytesForBits c = (c + 7) / 8.
Proof. intros Hc. unfold BitUtil.BytesForBits. apply Z.quot_div_nonneg; lia. Qed.

Lemma length_resize_bytes (fill n : Z) (l : list Z) :
  List.length (resize_bytes fill n l) = Z.to_nat n.
Proof.
  unfold resize_bytes. rewrite length_app, length_take, length_replicate. lia.
Qed.

Lemma at_resize_bytes_low (fill n : Z) (l : list Z) (k : Z) :
  0 <= k < n -> k < Z.of_nat (List.length l) ->
  BitUtil.at_ (resize_bytes fill n l) k = BitUtil.at_ l k.
Proof.
  intros Hk Hl. unfold BitUtil.at_, resize_bytes.
  rewrite lookup_app_l by (rewrite length_take; lia).
  rewrite lookup_take_lt by lia. reflexivity.
Qed.

Lemma at_resize_bytes_zero (n : Z) (l : list Z) (k : Z) :
  0 <= k ->
  BitUtil.at_ (resize_bytes 0 n l) k = if k <? n then BitUtil.at_ l k else 0.
Proof.
  intros Hk. destruct (Z.ltb_spec k n) as [Hlt | Hge].
  - destruct (Z_lt_le_dec k (Z.of_nat (List.length l))) as [Hin | Hout].
    + apply at_resize_bytes_low; lia.
    + rewrite (at_ge l k Hout). unfold BitUtil.at_, resize_bytes.
      rewrite lookup_app_r by (rewrite length_take; lia).
      rewrite length_take.
      destruct (replicate _ 0 !! _) as [x |] eqn:Hx; [| reflexivity].
      apply lookup_replicate in Hx as [-> _]. reflexivity.
  - apply at_ge. rewrite length_resize_bytes. lia.
Qed.

Lemma GetBit_zero_byte (bits : list Z) (j : Z) :
  BitUtil.at_ bits (Z.quot j 8) = 0 -> BitUtil.GetBit bits j = false.
Proof. intros H. unfold BitUtil.GetBit. rewrite H. apply Z.testbit_0_l. Qed.

Lemma kMinBuilderCapacity_eq : kMinBuilderCapacity = 32.
Proof. reflexivity. Qed.

Lemma ArrayBuilder_Resize_counters (c : Z) (a a' : ArrayBuilder.t) (s : Status) :
  ArrayBuilder.Resize c a = (s, a') ->
  length_ a' = length_ a /\ null_count_ a' = null_count_ a /\
  pool_ a' = pool_ a /\
  capacity_ a <= capacity_ a' /\
  (s = OK -> capacity_ a' = Z.max c kMinBuilderCapacity /\ 0 <= c /\
             null_bitmap_data_ a'
             = resize_bytes 0 (BitUtil.BytesForBits (Z.max c kMinBuilderCapacity))
                 (null_bitmap_data_ a)) /\
  (s <> OK -> a' = a).
Proof.
  unfold ArrayBuilder.Resize, RETURN_NOT_OK.
  destruct (CheckCapacity c (capacity_ a)) eqn:Hchk;
    try (intros [= <- <-]; repeat split; try lia; congruence).
  apply CheckCapacity_OK_iff in Hchk. cbv zeta.
  destruct (pool_grants (pool_ a) _);
    intros [= <- <-]; simpl; repeat split; try lia; try congruence.
Qed.

Lemma ArrayBuilder_Resize_consistent (c : Z) (a a' : ArrayBuilder.t) :
  ArrayBuilder.Resize c a = (OK, a') ->
  bitmap_consistent a ->
  bitmap_consistent a' /\
  (forall j, 0 <= j ->
     BitUtil.GetBit (null_bitmap_data_ a') j = BitUtil.GetBit (null_bitmap_data_ a) j).
Proof.
  intros HR (Hord & Hcap & Hnull & Hclean).
  destruct (ArrayBuilder_Resize_counters _ _ _ _ HR) as (Hl & Hn & _ & Hle & Hok & _).
  destruct (Hok eq_refl) as (Hc & Hc0' & Hbits). clear Hok.
  pose proof kMinBuilderCapacity_eq as Hmin.
  remember (Z.max c kMinBuilderCapacity) as c' eqn:Hc'.
  assert (Hc0 : 0 <= c') by lia. clear Hc' Hc0' Hmin HR.
  assert (Hget : forall j, 0 <= j ->
     BitUtil.GetBit (null_bitmap_data_ a') j = BitUtil.GetBit (null_bitmap_data_ a) j).
  { intros j Hj. rewrite Hbits. unfold BitUtil.GetBit at 1.
    rewrite at_resize_bytes_zero by (rewrite Z.quot_div_nonneg by lia; apply Z.div_pos; lia).
    destruct (Z.ltb_spec (Z.quot j 8) (BitUtil.BytesForBits c')) as [Hlt | Hge];
      [reflexivity |].
    rewrite Z.testbit_0_l. symmetry. apply Hclean.
    rewrite BytesForBits_div in Hge by lia.
    rewrite Z.quot_div_nonneg in Hge by lia.
    Z.div_mod_to_equations; lia. }
  split; [| exact Hget].
  unfold bitmap_consistent. rewrite Hl, Hn.
  split; [lia |]. split; [| split].
  - rewrite Hbits, length_resize_bytes, Hc, BytesForBits_div by lia.
    rewrite Z2Nat.id by (apply Z.div_pos; lia).
    Z.div_mod_to_equations; lia.
  - rewrite Hnull. apply zero_bits_ext. intros i Hi. symmetry. apply Hget. lia.
  - intros i Hi. rewrite Hget by lia. apply Hclean, Hi.
Qed.

Lemma CheckCapacity_refuses (c old : Z) :
  c < 0 \/ c < old -> exists msg, CheckCapacity c old = Invalid msg.
Proof. apply CheckCapacity_Invalid_iff. Qed.

Lemma ArrayBuilder_Resize_only_grows : Resize_only_grows ArrayBuilder.t.
Proof.
  intros c b. simpl. unfold capacity.
  destruct (ArrayBuilder.Resize c b) as [s a'] eqn:HR.
  destruct (ArrayBuilder_Resize_counters _ _ _ _ HR) as (_ & _ & _ & Hle & Hok & _).
  split; [| split; [| split]].
  - intros Hbad. destruct (CheckCapacity_refuses _ _ Hbad) as [msg Hmsg].
    exists msg. revert HR. unfold ArrayBuilder.Resize, RETURN_NOT_OK.
    rewrite Hmsg. intros [= <- <-]. reflexivity.
  - intros Hgood. apply CheckCapacity_OK_iff, Hgood.
  - simpl. intros ->. apply Hok. reflexivity.
  - exact Hle.
Qed.

(** The overrides of [Resize] share one shape: the capacity check, then
    the reallocation of the data, then the base [Resize]. *)
Ltac derived_Resize_only_grows Resize_def :=
  intros c b; simpl; unfold capacity, Resize_def, RETURN_NOT_OK;
  destruct (CheckCapacity c (capacity_ _)) eqn:Hchk;
  [ pose proof (proj1 (CheckCapacity_OK_iff _ _) Hchk) as Hcap
  | .. ];
  (split; [| split; [| split]]);
  try (intros Hbad; destruct (CheckCapacity_refuses _ _ Hbad) as [m Hm];
       rewrite Hm in Hchk; first [discriminate | injection Hchk as <-; eauto]);
  try (intros Hgood; apply CheckCapacity_OK_iff in Hgood; congruence);
  try (simpl; discriminate);
  try (simpl; lia).

Lemma PrimitiveBuilder_Resize_only_grows : Resize_only_grows PrimitiveBuilder.t.
Proof.
  derived_Resize_only_grows PrimitiveBuilder.Resize.
  - destruct (pool_grants _ _); [| simpl; discriminate].
    destruct (ArrayBuilder.Resize _ (PrimitiveBuilder.base_ b)) as [s a] eqn:HR.
    destruct (ArrayBuilder_Resize_counters _ _ _ _ HR) as (_ & _ & _ & _ & Hok & _).
    destruct s; simpl; try discriminate. intros _.
    destruct (Hok eq_refl) as (-> & _). lia.
  - destruct (pool_grants _ _); [| simpl; lia].
    destruct (ArrayBuilder.Resize _ (PrimitiveBuilder.base_ b)) as [s a] eqn:HR.
    destruct (ArrayBuilder_Resize_counters _ _ _ _ HR) as (_ & _ & _ & Hle & _).
    destruct s; simpl; lia.
Qed.

Lemma BooleanBuilder_Resize_only_grows : Resize_only_grows BooleanBuilder.t.
Proof.
  derived_Resize_only_grows BooleanBuilder.Resize.
  - destruct (pool_grants _ _); [| simpl; discriminate].
    destruct (ArrayBuilder.Resize _ (BooleanBuilder.base_ b)) as [s a] eqn:HR.
    destruct (ArrayBuilder_Resize_counters _ _ _ _ HR) as (_ & _ & _ & _ & Hok & _).
    destruct s; simpl; try discriminate. intros _.
    destruct (Hok eq_refl) as (-> & _). lia.
  - destruct (pool_grants _ _); [| simpl; lia].
    destruct (ArrayBuilder.Resize _ (BooleanBuilder.base_ b)) as [s a] eqn:HR.
    destruct (ArrayBuilder_Resize_counters _ _ _ _ HR) as (_ & _ & _ & Hle & _).
    destruct s; simpl; lia.
Qed.

Lemma FixedSizeBinaryBuilder_Resize_only_grows :
  Resize_only_grows FixedSizeBinaryBuilder.t.
Proof.
  derived_Resize_only_grows FixedSizeBinaryBuilder.Resize.
  - destruct (BufferBuilder.Resize _ _) as [[| | | |] bb]; try (simpl; discriminate).
    destruct (ArrayBuilder.Resize _ (FixedSizeBinaryBuilder.base_ b)) as [s a] eqn:HR.
    destruct (ArrayBuilder_Resize_counters _ _ _ _ HR) as (_ & _ & _ & _ & Hok & _).
    destruct s; simpl; try discriminate. intros _.
    destruct (Hok eq_refl) as (-> & _). lia.
  - destruct (BufferBuilder.Resize _ _) as [[| | | |] bb]; try (simpl; lia).
    destruct (ArrayBuilder.Resize _ (FixedSizeBinaryBuilder.base_ b)) as [s a] eqn:HR.
    destruct (ArrayBuilder_Resize_counters _ _ _ _ HR) as (_ & _ & _ & Hle & _).
    destruct s; simpl; lia.
Qed.

Lemma BinaryBuilder_Resize_only_grows : Resize_only_grows BinaryBuilder.t.
Proof.
  derived_Resize_only_grows BinaryBuilder.Resize.
  - destruct (pool_grants _ _); [| simpl; discriminate].
    destruct (ArrayBuilder.Resize _ (BinaryBuilder.base_ b)) as [s a] eqn:HR.
    destruct (ArrayBuilder_Resize_counters _ _ _ _ HR) as (_ & _ & _ & _ & Hok & _).
    destruct s; simpl; try discriminate. intros _.
    destruct (Hok eq_refl) as (-> & _). lia.
  - destruct (pool_grants _ _); [| simpl; lia].
    destruct (ArrayBuilder.Resize _ (BinaryBuilder.base_ b)) as [s a] eqn:HR.
    destruct (ArrayBuilder_Resize_counters _ _ _ _ HR) as (_ & _ & _ & Hle & _).
    destruct s; simpl; lia.
Qed.

Lemma StructBuilder_Resize_only_grows : Resize_only_grows StructBuilder.t.
Proof.
  intros c b. simpl. unfold StructBuilder.Resize.
  destruct (ArrayBuilder_Resize_only_grows c (StructBuilder.base_ b))
    as (Hbad & Hgood & Hok & Hle). simpl in *.
  destruct (ArrayBuilder.Resize c (StructBuilder.base_ b)) as [s a] eqn:HR.
  split; [| split; [| split]]; try assumption.
  intros H. destruct (Hbad H) as [msg [= -> ->]]. exists msg.
  destruct b; reflexivity.
Qed.

Lemma ListBuilder_Resize_only_grows : Resize_only_grows ListBuilder.t.
Proof.
  derived_Resize_only_grows ListBuilder.Resize.
  - destruct (pool_grants _ _); [| simpl; discriminate].
    destruct (ArrayBuilder.Resize _ (ListBuilder.base_ b)) as [s a] eqn:HR.
    destruct (ArrayBuilder_Resize_counters _ _ _ _ HR) as (_ & _ & _ & _ & Hok & _).
    destruct s; simpl; try discriminate. intros _.
    destruct (Hok eq_refl) as (-> & _). lia.
  - destruct (pool_grants _ _); [| simpl; lia].
    destruct (ArrayBuilder.Resize _ (ListBuilder.base_ b)) as [s a] eqn:HR.
    destruct (ArrayBuilder_Resize_counters _ _ _ _ HR) as (_ & _ & _ & Hle & _).
    destruct s; simpl; lia.
Qed.

(** The adaptive builders drain the pending region between the check and
    the reallocation: what [Resize] returns is decided by the check
    alone when the capacity is refused, and the capacity it leaves is at
    least the one the drain left. *)
Lemma AdaptiveIntBuilderBase_Resize_after_check
      (commit : AdaptiveIntBuilderBase.t -> Status * AdaptiveIntBuilderBase.t)
      (c : Z) (b : AdaptiveIntBuilderBase.t) :
  CheckCapacity c (capacity_ (AdaptiveIntBuilderBase.base_ b)) = OK ->
  (fst (AdaptiveIntBuilderBase.Resize commit c b) = OK ->
     capacity_ (AdaptiveIntBuilderBase.base_ (snd (AdaptiveIntBuilderBase.Resize commit c b)))
     = Z.max c kMinBuilderCapacity) /\
  capacity_ (AdaptiveIntBuilderBase.base_ (snd (commit b)))
  <= capacity_ (AdaptiveIntBuilderBase.base_ (snd (AdaptiveIntBuilderBase.Resize commit c b))).
Proof.
  intros Hchk. unfold AdaptiveIntBuilderBase.Resize, RETURN_NOT_OK. rewrite Hchk.
  destruct (commit b) as [s1 b1]. simpl snd.
  destruct s1; try (split; [simpl; discriminate | simpl; lia]).
  cbv zeta. destruct (pool_grants _ _); [| split; [simpl; discriminate | simpl; lia]].
  destruct (ArrayBuilder.Resize _ (AdaptiveIntBuilderBase.base_ b1)) as [s a] eqn:HR.
  destruct (ArrayBuilder_Resize_counters _ _ _ _ HR) as (_ & _ & _ & Hle & Hok & _).
  destruct s; simpl; try (split; [discriminate | lia]).
  split; [| exact Hle]. intros _. destruct (Hok eq_refl) as (-> & _). lia.
Qed.

Lemma AdaptiveIntBuilderBase_Resize_facts
      (commit : AdaptiveIntBuilderBase.t -> Status * AdaptiveIntBuilderBase.t)
      (c : Z) (b : AdaptiveIntBuilderBase.t) :
  (c < 0 \/ c < capacity (AdaptiveIntBuilderBase.base_ b) ->
     exists msg, AdaptiveIntBuilderBase.Resize commit c b = (Invalid msg, b)) /\
  (fst (AdaptiveIntBuilderBase.Resize commit c b) = OK ->
     capacity (AdaptiveIntBuilderBase.base_ (snd (AdaptiveIntBuilderBase.Resize commit c b)))
     = Z.max c kMinBuilderCapacity) /\
  (0 <= c /\ capacity (AdaptiveIntBuilderBase.base_ b) <= c ->
     capacity (AdaptiveIntBuilderBase.base_ (snd (commit b)))
     <= capacity (AdaptiveIntBuilderBase.base_
                    (snd (AdaptiveIntBuilderBase.Resize commit c b)))) /\
  (keeps_capacity commit ->
     capacity (AdaptiveIntBuilderBase.base_ b)
     <= capacity (AdaptiveIntBuilderBase.base_
                    (snd (AdaptiveIntBuilderBase.Resize commit c b)))).
Proof.
  unfold capacity.
  destruct (CheckCapacity c (capacity_ (AdaptiveIntBuilderBase.base_ b))) eqn:Hchk.
  1: { destruct (AdaptiveIntBuilderBase_Resize_after_check commit c b Hchk) as [Hok Hle].
       pose proof (proj1 (CheckCapacity_OK_iff _ _) Hchk) as Hcap.
       split; [intros Hbad; exfalso; lia |]. split; [exact Hok |].
       split; [intros _; exact Hle |].
       intros Hkeep. pose proof (Hkeep b) as Hk. unfold capacity in Hk. lia. }
  all: unfold AdaptiveIntBuilderBase.Resize, RETURN_NOT_OK; rewrite Hchk; simpl;
    (split; [| split; [discriminate | split; [| intros _; lia]]]);
    [ intros Hbad; destruct (CheckCapacity_refuses _ _ Hbad) as [m Hm];
      rewrite Hm in Hchk; first [discriminate | injection Hchk as <-; eauto]
    | intros Hgood; apply CheckCapacity_OK_iff in Hgood; congruence ].
Qed.

(** The dictionary builders resize the embedded builder of the codes and
    then their own bitmap; their capacity is that of their base. *)
Ltac dictionary_Resize_only_grows Resize_def base_of :=
  intros c b; simpl; unfold capacity, Resize_def, RETURN_NOT_OK;
  destruct (CheckCapacity c (capacity_ _)) eqn:Hchk;
  [ pose proof (proj1 (CheckCapacity_OK_iff _ _) Hchk) as Hcap
  | .. ];
  (split; [| split; [| split]]);
  try (intros Hbad; destruct (CheckCapacity_refuses _ _ Hbad) as [m Hm];
       rewrite Hm in Hchk; first [discriminate | injection Hchk as <-; eauto]);
  try (intros Hgood; apply CheckCapacity_OK_iff in Hgood; congruence);
  try (simpl; discriminate);
  try (simpl; lia);
  cbv zeta;
  destruct (AdaptiveIntBuilderBase.Resize _ _ _) as [[| | | |] vb];
  try (simpl; discriminate); try (simpl; lia);
  destruct (ArrayBuilder.Resize _ (base_of b)) as [s a] eqn:HR;
  destruct (ArrayBuilder_Resize_counters _ _ _ _ HR) as (_ & _ & _ & Hle & Hok & _);
  destruct s; simpl; try discriminate; try lia;
  intros _; destruct (Hok eq_refl) as (-> & _); lia.

Lemma DictionaryBuilder_Resize_only_grows
      (commit : AdaptiveIntBuilderBase.t -> Status * AdaptiveIntBuilderBase.t) :
  @Resize_only_grows _ (DictionaryBuilder.Builder_of commit).
Proof.
  unfold DictionaryBuilder.Builder_of.
  dictionary_Resize_only_grows DictionaryBuilder.Resize DictionaryBuilder.base_.
Qed.

Lemma NullDictionaryBuilder_Resize_only_grows
      (commit : AdaptiveIntBuilderBase.t -> Status * AdaptiveIntBuilderBase.t) :
  @Resize_only_grows _ (NullDictionaryBuilder.Builder_of commit).
Proof.
  unfold NullDictionaryBuilder.Builder_of.
  dictionary_Resize_only_grows NullDictionaryBuilder.Resize NullDictionaryBuilder.base_.
Qed.

(** A drain that fails at once, and one that does nothing, leave the
    capacity they found. *)
Lemma keeps_capacity_examples :
  keeps_capacity (fun b => (OutOfMemory, b)) /\ keeps_capacity (fun b => (OK, b)).
Proof. split; intros b; simpl; lia. Qed.

(** C3: for every builder class of [builder.h] and every capacity
    argument [c], [Resize(c)] fails with an Invalid error, leaving the
    builder as it was, when [c] is negative or less than the current
    capacity; otherwise the capacity check succeeds, and a [Resize] that
    succeeds leaves the capacity asked for, or the floor of 32 when that is
    more; and no [Resize], whatever its status, leaves the builder with a
    smaller capacity.  The classes are those that inherit
    [ArrayBuilder::Resize] (NullBuilder, which adds no member, and
    StructBuilder) and those that override it: PrimitiveBuilder (and
    NumericBuilder), BooleanBuilder, BinaryBuilder (and StringBuilder),
    FixedSizeBinaryBuilder (and Decimal128Builder), ListBuilder,
    AdaptiveIntBuilderBase (and the two adaptive builders), and the two
    dictionary builders (and the binary and string ones).  The [Resize]
    of the adaptive builders drains the pending region through the virtual
    [CommitPendingData] once the check has passed: whatever the drain
    does, a capacity that is negative or too small is refused as for the
    others, a success leaves the capacity asked for, and the capacity left
    is at least the one the drain left; it is at least the one the builder
    had for every drain that itself leaves at least the capacity it
    found. *)
Theorem Resize_never_shrinks :
  (forall c old : Z,
     ((exists msg, CheckCapacity c old = Invalid msg) <-> c < 0 \/ c < old) /\
     (CheckCapacity c old = OK <-> 0 <= c /\ old <= c)) /\
  Resize_only_grows ArrayBuilder.t /\
  @Resize_only_grows NullBuilder.t ArrayBuilder_Builder /\
  Resize_only_grows StructBuilder.t /\
  Resize_only_grows PrimitiveBuilder.t /\
  Resize_only_grows BooleanBuilder.t /\
  Resize_only_grows BinaryBuilder.t /\
  Resize_only_grows FixedSizeBinaryBuilder.t /\
  Resize_only_grows ListBuilder.t /\
  (forall (commit : AdaptiveIntBuilderBase.t -> Status * AdaptiveIntBuilderBase.t)
          (c : Z) (b : AdaptiveIntBuilderBase.t),
     (c < 0 \/ c < capacity (AdaptiveIntBuilderBase.base_ b) ->
        exists msg, AdaptiveIntBuilderBase.Resize commit c b = (Invalid msg, b)) /\
     (fst (AdaptiveIntBuilderBase.Resize commit c b) = OK ->
        capacity (AdaptiveIntBuilderBase.base_
                    (snd (AdaptiveIntBuilderBase.Resize commit c b)))
        = Z.max c kMinBuilderCapacity) /\
     (0 <= c /\ capacity (AdaptiveIntBuilderBase.base_ b) <= c ->
        capacity (AdaptiveIntBuilderBase.base_ (snd (commit b)))
        <= capacity (AdaptiveIntBuilderBase.base_
                       (snd (AdaptiveIntBuilderBase.Resize commit c b)))) /\
     (keeps_capacity commit ->
        capacity (AdaptiveIntBuilderBase.base_ b)
        <= capacity (AdaptiveIntBuilderBase.base_
                       (snd (AdaptiveIntBuilderBase.Resize commit c b))))) /\
  (forall commit : AdaptiveIntBuilderBase.t -> Status * AdaptiveIntBuilderBase.t,
     @Resize_only_grows _ (DictionaryBuilder.Builder_of commit) /\
     @Resize_only_grows _ (NullDictionaryBuilder.Builder_of commit)).
Proof.
  split; [intros c old; split;
          [apply CheckCapacity_Invalid_iff | apply CheckCapacity_OK_iff] |].
  split; [apply ArrayBuilder_Resize_only_grows |].
  split; [apply ArrayBuilder_Resize_only_grows |].
  split; [apply StructBuilder_Resize_only_grows |].
  split; [apply PrimitiveBuilder_Resize_only_grows |].
  split; [apply BooleanBuilder_Resize_only_grows |].
  split; [apply BinaryBuilder_Resize_only_grows |].
  split; [apply FixedSizeBinaryBuilder_Resize_only_grows |].
  split; [apply ListBuilder_Resize_only_grows |].
  split; [apply AdaptiveIntBuilderBase_Resize_facts |].
  intros commit. split;
    [apply DictionaryBuilder_Resize_only_grows
    | apply NullDictionaryBuilder_Resize_only_grows].
Qed.

(** ** NullBuilder: the theorem *)

(** C10: [NullBuilder::AppendNull] always returns an OK status and adds
    exactly one to both the null count and the length, without touching
    any buffer, the capacity or the pool; [Append(nullptr)] is the same
    function; hence after any sequence of appends to a new NullBuilder the
    length equals the null count (and the number of appends). *)
Theorem NullBuilder_length_is_null_count :
  (forall b : NullBuilder.t,
     fst (NullBuilder.AppendNull b) = OK /\
     null_count (snd (NullBuilder.AppendNull b)) = null_count b + 1 /\
     length (snd (NullBuilder.AppendNull b)) = length b + 1 /\
     null_bitmap_data_ (snd (NullBuilder.AppendNull b)) = null_bitmap_data_ b /\
     capacity (snd (NullBuilder.AppendNull b)) = capacity b /\
     pool_ (snd (NullBuilder.AppendNull b)) = pool_ b) /\
  (forall (value : unit) (b : NullBuilder.t),
     NullBuilder.Append value b = NullBuilder.AppendNull b) /\
  (forall (pool : MemoryPool) (ops : list NullBuilder.op),
     length (NullBuilder.run ops (NullBuilder.new pool))
       = null_count (NullBuilder.run ops (NullBuilder.new pool)) /\
     length (NullBuilder.run ops (NullBuilder.new pool))
       = Z.of_nat (List.length ops) /\
     null_bitmap_data_ (NullBuilder.run ops (NullBuilder.new pool)) = []).
Proof.
  split; [| split].
  - intros b. simpl. repeat split.
  - reflexivity.
  - intros pool ops. unfold length, null_count.
    destruct (NullBuilder_run_counts ops (NullBuilder.new pool)) as (Hl & Hn & Hb & _).
    rewrite Hl, Hn, Hb. simpl. repeat split; lia.
Qed.

(** ** BooleanBuilder: the unchecked append *)

Lemma UnsafeAppend_new_bits (val : bool) (b : BooleanBuilder.t) :
  0 <= length_ (BooleanBuilder.base_ b) ->
  length_ (BooleanBuilder.base_ b)
    < 8 * Z.of_nat (List.length (null_bitmap_data_ (BooleanBuilder.base_ b))) ->
  length_ (BooleanBuilder.base_ b)
    < 8 * Z.of_nat (List.length (BooleanBuilder.raw_data_ b)) ->
  BitUtil.GetBit
    (null_bitmap_data_ (BooleanBuilder.base_ (BooleanBuilder.UnsafeAppend val b)))
    (length_ (BooleanBuilder.base_ b)) = true /\
  BitUtil.GetBit (BooleanBuilder.raw_data_ (BooleanBuilder.UnsafeAppend val b))
    (length_ (BooleanBuilder.base_ b)) = val /\
  length_ (BooleanBuilder.base_ (BooleanBuilder.UnsafeAppend val b))
    = length_ (BooleanBuilder.base_ b) + 1.
Proof.
  intros Hlen Hbitmap Hdata.
  pose proof (GetBit_write_bit (null_bitmap_data_ (BooleanBuilder.base_ b))
                (length_ (BooleanBuilder.base_ b)) (length_ (BooleanBuilder.base_ b)) true
                (conj Hlen Hbitmap) Hlen) as Hvalid.
  pose proof (GetBit_write_bit (BooleanBuilder.raw_data_ b)
                (length_ (BooleanBuilder.base_ b)) (length_ (BooleanBuilder.base_ b)) val
                (conj Hlen Hdata) Hlen) as Hvalue.
  rewrite Z.eqb_refl in Hvalid, Hvalue.
  destruct val; (split; [exact Hvalid | split; [exact Hvalue | reflexivity]]).
Qed.

(** C7: [BooleanBuilder::UnsafeAppend(b)], on a builder with room for the
    element, sets the validity bit at index [length], sets the data bit at
    index [length] when [b] is true and clears it when [b] is false, adds
    one to the length, and changes neither the null count nor any other
    bit of the two buffers. *)
Theorem BooleanBuilder_UnsafeAppend_bits (val : bool) (b : BooleanBuilder.t) :
  0 <= length (BooleanBuilder.base_ b) ->
  length (BooleanBuilder.base_ b)
    < 8 * Z.of_nat (List.length (null_bitmap_data_ (BooleanBuilder.base_ b))) ->
  length (BooleanBuilder.base_ b)
    < 8 * Z.of_nat (List.length (BooleanBuilder.raw_data_ b)) ->
  BitUtil.GetBit
    (null_bitmap_data_ (BooleanBuilder.base_ (BooleanBuilder.UnsafeAppend val b)))
    (length (BooleanBuilder.base_ b)) = true /\
  BitUtil.GetBit (BooleanBuilder.raw_data_ (BooleanBuilder.UnsafeAppend val b))
    (length (BooleanBuilder.base_ b)) = val /\
  length (BooleanBuilder.base_ (BooleanBuilder.UnsafeAppend val b))
    = length (BooleanBuilder.base_ b) + 1 /\
  null_count (BooleanBuilder.base_ (BooleanBuilder.UnsafeAppend val b))
    = null_count (BooleanBuilder.base_ b) /\
  (forall j, 0 <= j -> j <> length (BooleanBuilder.base_ b) ->
     BitUtil.GetBit
       (null_bitmap_data_ (BooleanBuilder.base_ (BooleanBuilder.UnsafeAppend val b))) j
     = BitUtil.GetBit (null_bitmap_data_ (BooleanBuilder.base_ b)) j /\
     BitUtil.GetBit (BooleanBuilder.raw_data_ (BooleanBuilder.UnsafeAppend val b)) j
     = BitUtil.GetBit (BooleanBuilder.raw_data_ b) j).
Proof.
  unfold length, null_count. intros Hlen Hbitmap Hdata.
  pose proof (GetBit_write_bit (null_bitmap_data_ (BooleanBuilder.base_ b))
                (length_ (BooleanBuilder.base_ b))) as Hvalid.
  pose proof (GetBit_write_bit (BooleanBuilder.raw_data_ b)
                (length_ (BooleanBuilder.base_ b))) as Hvalue.
  assert (Hraw : BooleanBuilder.raw_data_ (BooleanBuilder.UnsafeAppend val b)
                 = write_bit (BooleanBuilder.raw_data_ b)
                     (length_ (BooleanBuilder.base_ b)) val)
    by (destruct val; reflexivity).
  assert (Hbm : null_bitmap_data_ (BooleanBuilder.base_ (BooleanBuilder.UnsafeAppend val b))
                = write_bit (null_bitmap_data_ (BooleanBuilder.base_ b))
                     (length_ (BooleanBuilder.base_ b)) true)
    by (destruct val; reflexivity).
  rewrite Hraw, Hbm.
  split; [| split; [| split; [| split]]].
  - rewrite Hvalid by lia. rewrite Z.eqb_refl. reflexivity.
  - rewrite Hvalue by lia. rewrite Z.eqb_refl. reflexivity.
  - destruct val; reflexivity.
  - destruct val; reflexivity.
  - intros j Hj Hne. rewrite Hvalid, Hvalue by lia.
    rewrite (proj2 (Z.eqb_neq j _) Hne). split; reflexivity.
Qed.

Lemma BooleanBuilder_UnsafeAppend_bits_witness :
  BitUtil.GetBit
    (null_bitmap_data_
       (BooleanBuilder.base_ (BooleanBuilder.UnsafeAppend false BooleanBuilder_example)))
    3 = true /\
  BitUtil.GetBit
    (BooleanBuilder.raw_data_ (BooleanBuilder.UnsafeAppend false BooleanBuilder_example))
    3 = false /\
  BooleanBuilder.raw_data_ (BooleanBuilder.UnsafeAppend false BooleanBuilder_example)
    = [247; 170; 170; 170] /\
  length (BooleanBuilder.base_ (BooleanBuilder.UnsafeAppend false BooleanBuilder_example))
    = 4.
Proof.
  destruct (BooleanBuilder_UnsafeAppend_bits false BooleanBuilder_example)
    as (Hvalid & Hvalue & Hlen & _); [simpl; lia | simpl; lia | simpl; lia |].
  split; [exact Hvalid |]. split; [exact Hvalue |].
  split; [reflexivity | exact Hlen].
Defined.

(** ** Reserve on the builders *)

Lemma Reserve_cases {B : Type} `{Builder B} (n : Z) (b : B) :
  (length_ (base b) + n <= capacity_ (base b) /\ Reserve n b = (OK, b)) \/
  (capacity_ (base b) < length_ (base b) + n /\
   exists c, length_ (base b) + n <= c /\ Reserve n b = Resize c b).
Proof.
  unfold Reserve. destruct (Z.gtb_spec (length_ (base b) + n) (capacity_ (base b))).
  - right. split; [lia |]. eexists. split; [| reflexivity].
    pose proof (NextPower2_ge (length_ (base b) + n)). lia.
  - left. split; [lia | reflexivity].
Qed.

Lemma bitmap_consistent_new (pool : MemoryPool) : bitmap_consistent (ArrayBuilder.new pool).
Proof.
  unfold bitmap_consistent. simpl. split; [lia |]. split; [lia |].
  split; [reflexivity |]. intros i Hi. apply GetBit_zero_byte. apply at_ge. simpl.
  apply Z.quot_pos; lia.
Qed.

Lemma BooleanBuilder_Resize_inv (c : Z) (b b' : BooleanBuilder.t) (s : Status) :
  BooleanBuilder.Resize c b = (s, b') ->
  (s <> OK -> b' = b) /\
  (s = OK ->
     ArrayBuilder.Resize (Z.max c kMinBuilderCapacity) (BooleanBuilder.base_ b)
     = (OK, BooleanBuilder.base_ b') /\
     BooleanBuilder.raw_data_ b'
     = resize_bytes (pool_junk (pool_ (BooleanBuilder.base_ b)))
         (BitUtil.BytesForBits (Z.max c kMinBuilderCapacity))
         (BooleanBuilder.raw_data_ b)).
Proof.
  unfold BooleanBuilder.Resize, RETURN_NOT_OK.
  destruct (CheckCapacity c _); try (intros [= <- <-]; split; [done | discriminate]).
  cbv zeta.
  destruct (pool_grants _ _); [| intros [= <- <-]; split; [done | discriminate]].
  destruct (ArrayBuilder.Resize _ (BooleanBuilder.base_ b)) as [[| | | |] a] eqn:HR;
    intros [= <- <-]; split; try done; try discriminate.
Qed.

Lemma BooleanBuilder_Reserve (n : Z) (b b' : BooleanBuilder.t) (s : Status) :
  Reserve n b = (s, b') -> boolean_consistent b ->
  (s <> OK -> b' = b) /\
  (s = OK ->
     boolean_consistent b' /\
     length_ (BooleanBuilder.base_ b') = length_ (BooleanBuilder.base_ b) /\
     null_count_ (BooleanBuilder.base_ b') = null_count_ (BooleanBuilder.base_ b) /\
     length_ (BooleanBuilder.base_ b) + n <= capacity_ (BooleanBuilder.base_ b') /\
     (forall j, 0 <= j ->
        BitUtil.GetBit (null_bitmap_data_ (BooleanBuilder.base_ b')) j
        = BitUtil.GetBit (null_bitmap_data_ (BooleanBuilder.base_ b)) j) /\
     (forall j, 0 <= j < length_ (BooleanBuilder.base_ b) ->
        BitUtil.GetBit (BooleanBuilder.raw_data_ b') j
        = BitUtil.GetBit (BooleanBuilder.raw_data_ b) j)).
Proof.
  intros HR [Hcons Hdata].
  destruct (Reserve_cases n b) as [[Hroom Heq] | [Hgrow (c & Hc & Heq)]];
    rewrite Heq in HR; simpl in *.
  - injection HR as <- <-. split; [done |]. intros _.
    split; [split; assumption |]. repeat split; try lia; reflexivity.
  - destruct (BooleanBuilder_Resize_inv _ _ _ _ HR) as [Herr Hok].
    split; [exact Herr |]. intros ->. destruct (Hok eq_refl) as [HRb Hraw].
    pose proof kMinBuilderCapacity_eq as Hmin.
    assert (Hcc : c <= Z.max c kMinBuilderCapacity) by lia.
    remember (Z.max c kMinBuilderCapacity) as c' eqn:Hc'.
    destruct (ArrayBuilder_Resize_counters _ _ _ _ HRb) as (Hl & Hn & _ & _ & Hcap & _).
    destruct (Hcap eq_refl) as (Hcap'' & Hc0 & _).
    assert (Hcap' : capacity_ (BooleanBuilder.base_ b') = c') by lia.
    destruct (ArrayBuilder_Resize_consistent _ _ _ HRb Hcons) as [Hcons' Hbits].
    pose proof Hcons as (Hord & _).
    split; [split; [exact Hcons' |] |].
    { rewrite Hraw, length_resize_bytes, Hcap', BytesForBits_div by lia.
      rewrite Z2Nat.id by (apply Z.div_pos; lia). Z.div_mod_to_equations; lia. }
    split; [exact Hl |]. split; [exact Hn |]. split; [lia |].
    split; [exact Hbits |].
    intros j Hj. unfold BitUtil.GetBit. rewrite Hraw.
    rewrite at_resize_bytes_low; [reflexivity | |];
      rewrite ?BytesForBits_div by lia; rewrite Z.quot_div_nonneg by lia;
      Z.div_mod_to_equations; lia.
Qed.

(** ** BooleanBuilder: the byte overloads *)

(** C9: for every byte value [val], [BooleanBuilder::Append(val)] is
    [Append(val != 0)] and [UnsafeAppend(val)] is [UnsafeAppend(val != 0)];
    every non-zero byte appends as [true] and the zero byte as [false]:
    after a successful [Append(val)], and after [UnsafeAppend(val)] on a
    builder with room, the data bit of the new element is 1 exactly when
    [val] is not zero. *)
Theorem BooleanBuilder_uint8_is_nonzero (val : Z) (b : BooleanBuilder.t) :
  0 <= val < 256 ->
  boolean_consistent b ->
  BooleanBuilder.Append_uint8 val b = BooleanBuilder.Append (negb (val =? 0)) b /\
  BooleanBuilder.UnsafeAppend_uint8 val b
    = BooleanBuilder.UnsafeAppend (negb (val =? 0)) b /\
  (val <> 0 ->
     BooleanBuilder.Append_uint8 val b = BooleanBuilder.Append true b /\
     BooleanBuilder.UnsafeAppend_uint8 val b = BooleanBuilder.UnsafeAppend true b) /\
  (val = 0 ->
     BooleanBuilder.Append_uint8 val b = BooleanBuilder.Append false b /\
     BooleanBuilder.UnsafeAppend_uint8 val b = BooleanBuilder.UnsafeAppend false b) /\
  (forall b', BooleanBuilder.Append_uint8 val b = (OK, b') ->
     BitUtil.GetBit (BooleanBuilder.raw_data_ b') (length (BooleanBuilder.base_ b))
       = negb (val =? 0) /\
     BitUtil.GetBit (null_bitmap_data_ (BooleanBuilder.base_ b'))
       (length (BooleanBuilder.base_ b)) = true /\
     length (BooleanBuilder.base_ b') = length (BooleanBuilder.base_ b) + 1) /\
  (length (BooleanBuilder.base_ b) < capacity (BooleanBuilder.base_ b) ->
     BitUtil.GetBit (BooleanBuilder.raw_data_ (BooleanBuilder.UnsafeAppend_uint8 val b))
       (length (BooleanBuilder.base_ b)) = negb (val =? 0)).
Proof.
  intros Hbyte Hcons. unfold length, capacity.
  split; [reflexivity |]. split; [reflexivity |].
  split; [| split; [| split]].
  - intros Hne. unfold BooleanBuilder.Append_uint8, BooleanBuilder.UnsafeAppend_uint8.
    rewrite (proj2 (Z.eqb_neq val 0) Hne). split; reflexivity.
  - intros ->. split; reflexivity.
  - intros b'. unfold BooleanBuilder.Append_uint8, BooleanBuilder.Append, RETURN_NOT_OK.
    destruct (Reserve 1 b) as [s b1] eqn:HR.
    destruct (BooleanBuilder_Reserve _ _ _ _ HR Hcons) as [_ Hok].
    destruct s; try discriminate. intros [= <-].
    destruct (Hok eq_refl) as ([Hcons1 Hdata1] & Hl & _ & Hroom & _).
    pose proof Hcons1 as (Hord1 & Hcap1 & _).
    destruct (UnsafeAppend_new_bits (negb (val =? 0)) b1) as (Hvalid & Hvalue & Hlen);
      unfold length in *; try lia.
    rewrite <- Hl. split; [exact Hvalue |]. split; [exact Hvalid | exact Hlen].
  - intros Hroom. destruct Hcons as [(Hord & Hcap & _) Hdata].
    destruct (UnsafeAppend_new_bits (negb (val =? 0)) b) as (_ & Hvalue & _);
      unfold length in *; try lia.
    exact Hvalue.
Qed.

Lemma BooleanBuilder_uint8_is_nonzero_witness :
  BooleanBuilder.Append_uint8 200 (BooleanBuilder.new (mkPool 64 170))
    = BooleanBuilder.Append true (BooleanBuilder.new (mkPool 64 170)) /\
  BooleanBuilder.raw_data_ (snd (BooleanBuilder.Append_uint8 200
                                   (BooleanBuilder.new (mkPool 64 170))))
    = [171; 170; 170; 170] /\
  BitUtil.GetBit
    (BooleanBuilder.raw_data_ (snd (BooleanBuilder.Append_uint8 200
                                      (BooleanBuilder.new (mkPool 64 170))))) 0
    = true.
Proof.
  assert (Hcons : boolean_consistent (BooleanBuilder.new (mkPool 64 170)))
    by (split; [apply bitmap_consistent_new | simpl; lia]).
  destruct (BooleanBuilder_uint8_is_nonzero 200 (BooleanBuilder.new (mkPool 64 170)))
    as (_ & _ & Hne & _ & Hbit & _); [lia | exact Hcons |].
  split; [apply Hne; lia |]. split; [reflexivity |].
  apply (Hbit (snd (BooleanBuilder.Append_uint8 200 (BooleanBuilder.new (mkPool 64 170))))).
  reflexivity.
Defined.

(** ** PrimitiveBuilder: the null append *)

Lemma length_memset (bytes : list Z) (offset value n : Z) :
  List.length (memset bytes offset value n) = List.length bytes.
Proof. apply length_inserts. Qed.

Lemma at_memset (bytes : list Z) (offset value n k : Z) :
  0 <= offset -> 0 <= n -> offset + n <= Z.of_nat (List.length bytes) -> 0 <= k ->
  BitUtil.at_ (memset bytes offset value n) k =
    if (offset <=? k) && (k <? offset + n) then value else BitUtil.at_ bytes k.
Proof.
  intros Hoff Hn Hfit Hk. unfold memset, BitUtil.at_.
  destruct (Z.leb_spec offset k) as [Hle | Hlt]; simpl.
  - destruct (Z.ltb_spec k (offset + n)) as [Hin | Hout].
    + rewrite list_lookup_inserts by (rewrite ?length_replicate; lia).
      rewrite lookup_replicate_2 by lia. reflexivity.
    + rewrite list_lookup_inserts_ge by (rewrite length_replicate; lia). reflexivity.
  - rewrite list_lookup_inserts_lt by lia. reflexivity.
Qed.

Lemma PrimitiveBuilder_Resize_inv (c : Z) (b b' : PrimitiveBuilder.t) (s : Status) :
  PrimitiveBuilder.Resize c b = (s, b') ->
  (s <> OK -> b' = b) /\
  (s = OK ->
     ArrayBuilder.Resize (Z.max c kMinBuilderCapacity) (PrimitiveBuilder.base_ b)
     = (OK, PrimitiveBuilder.base_ b') /\
     PrimitiveBuilder.sizeof_value_type b' = PrimitiveBuilder.sizeof_value_type b /\
     PrimitiveBuilder.raw_data_ b'
     = resize_bytes (pool_junk (pool_ (PrimitiveBuilder.base_ b)))
         (Z.max c kMinBuilderCapacity * PrimitiveBuilder.sizeof_value_type b)
         (PrimitiveBuilder.raw_data_ b)).
Proof.
  unfold PrimitiveBuilder.Resize, RETURN_NOT_OK.
  destruct (CheckCapacity c _); try (intros [= <- <-]; split; [done | discriminate]).
  cbv zeta.
  destruct (pool_grants _ _); [| intros [= <- <-]; split; [done | discriminate]].
  destruct (ArrayBuilder.Resize _ (PrimitiveBuilder.base_ b)) as [[| | | |] a] eqn:HR;
    intros [= <- <-]; split; try done; try discriminate.
Qed.

Lemma PrimitiveBuilder_Reserve (n : Z) (b b' : PrimitiveBuilder.t) (s : Status) :
  Reserve n b = (s, b') -> primitive_consistent b ->
  (s <> OK -> b' = b) /\
  (s = OK ->
     primitive_consistent b' /\
     length_ (PrimitiveBuilder.base_ b') = length_ (PrimitiveBuilder.base_ b) /\
     null_count_ (PrimitiveBuilder.base_ b') = null_count_ (PrimitiveBuilder.base_ b) /\
     PrimitiveBuilder.sizeof_value_type b' = PrimitiveBuilder.sizeof_value_type b /\
     length_ (PrimitiveBuilder.base_ b) + n <= capacity_ (PrimitiveBuilder.base_ b') /\
     (forall j, 0 <= j ->
        BitUtil.GetBit (null_bitmap_data_ (PrimitiveBuilder.base_ b')) j
        = BitUtil.GetBit (null_bitmap_data_ (PrimitiveBuilder.base_ b)) j) /\
     (forall k, 0 <= k < length_ (PrimitiveBuilder.base_ b)
                         * PrimitiveBuilder.sizeof_value_type b ->
        BitUtil.at_ (PrimitiveBuilder.raw_data_ b') k
        = BitUtil.at_ (PrimitiveBuilder.raw_data_ b) k)).
Proof.
  intros HR (Hcons & Hsize & Hdata).
  destruct (Reserve_cases n b) as [[Hroom Heq] | [Hgrow (c & Hc & Heq)]];
    rewrite Heq in HR; simpl in *.
  - injection HR as <- <-. split; [done |]. intros _.
    split; [split; [| split]; assumption |]. repeat split; try lia; reflexivity.
  - destruct (PrimitiveBuilder_Resize_inv _ _ _ _ HR) as [Herr Hok].
    split; [exact Herr |]. intros ->. destruct (Hok eq_refl) as (HRb & Hsz & Hraw).
    pose proof kMinBuilderCapacity_eq as Hmin.
    assert (Hcc : c <= Z.max c kMinBuilderCapacity) by lia.
    remember (Z.max c kMinBuilderCapacity) as c' eqn:Hc'.
    destruct (ArrayBuilder_Resize_counters _ _ _ _ HRb) as (Hl & Hn & _ & Hle & Hcap & _).
    destruct (Hcap eq_refl) as (Hcap'' & Hc0 & _).
    assert (Hcap' : capacity_ (PrimitiveBuilder.base_ b') = c') by lia.
    destruct (ArrayBuilder_Resize_consistent _ _ _ HRb Hcons) as [Hcons' Hbits].
    pose proof Hcons as (Hord & _).
    split; [split; [exact Hcons' | split; [lia |]] |].
    { rewrite Hraw, length_resize_bytes, Hcap', Hsz. nia. }
    split; [exact Hl |]. split; [exact Hn |]. split; [exact Hsz |]. split; [lia |].
    split; [exact Hbits |].
    intros k Hk. rewrite Hraw. apply at_resize_bytes_low; nia.
Qed.

(** C6: [PrimitiveBuilder<T>::AppendNull] reserves one slot (its status is
    that of [Reserve(1)], and on an error the builder is as it was); on
    success it has written [sizeof(T)] zero bytes into the data slot at
    index [length], the validity bit of that index is clear, and both the
    null count and the length have grown by one; the slots and bits below
    are as before. *)
Theorem PrimitiveBuilder_AppendNull_zeroes_slot
        (b b' : PrimitiveBuilder.t) (s : Status) :
  primitive_consistent b ->
  PrimitiveBuilder.AppendNull b = (s, b') ->
  s = fst (Reserve 1 b) /\
  (s <> OK -> b' = b) /\
  (s = OK ->
     length (PrimitiveBuilder.base_ b) + 1 <= capacity (PrimitiveBuilder.base_ b') /\
     (forall k, 0 <= k < PrimitiveBuilder.sizeof_value_type b ->
        BitUtil.at_ (PrimitiveBuilder.raw_data_ b')
          (length (PrimitiveBuilder.base_ b) * PrimitiveBuilder.sizeof_value_type b + k)
        = 0) /\
     BitUtil.GetBit (null_bitmap_data_ (PrimitiveBuilder.base_ b'))
       (length (PrimitiveBuilder.base_ b)) = false /\
     null_count (PrimitiveBuilder.base_ b') = null_count (PrimitiveBuilder.base_ b) + 1 /\
     length (PrimitiveBuilder.base_ b') = length (PrimitiveBuilder.base_ b) + 1 /\
     (forall k, 0 <= k < length (PrimitiveBuilder.base_ b)
                         * PrimitiveBuilder.sizeof_value_type b ->
        BitUtil.at_ (PrimitiveBuilder.raw_data_ b') k
        = BitUtil.at_ (PrimitiveBuilder.raw_data_ b) k) /\
     (forall j, 0 <= j < length (PrimitiveBuilder.base_ b) ->
        BitUtil.GetBit (null_bitmap_data_ (PrimitiveBuilder.base_ b')) j
        = BitUtil.GetBit (null_bitmap_data_ (PrimitiveBuilder.base_ b)) j) /\
     primitive_consistent b').
Proof.
  unfold length, null_count, capacity. intros Hcons.
  unfold PrimitiveBuilder.AppendNull, RETURN_NOT_OK.
  destruct (Reserve 1 b) as [s1 b1] eqn:HR.
  destruct (PrimitiveBuilder_Reserve _ _ _ _ HR Hcons) as [Herr Hok].
  destruct s1; try (intros [= <- <-]; simpl;
                    split; [reflexivity | split; [intros _; apply Herr |]]; discriminate).
  intros [= <- <-]. simpl fst.
  split; [reflexivity |]. split; [congruence |]. intros _.
  destruct (Hok eq_refl) as ((Hc1 & Hsz1 & Hd1) & Hl & Hn & Hsz & Hroom & Hbits & Hlow).
  pose proof Hc1 as (Hord1 & Hcap1 & _ & Hclean1).
  destruct (bitmap_step_consistent (AppendBit false) (PrimitiveBuilder.base_ b1) Hc1)
    as (Hc2 & Hl2 & Hn2 & Hcap2 & _ & Hlow2); [simpl; lia |].
  simpl in Hc2, Hl2, Hn2, Hcap2, Hlow2. simpl.
  assert (Hfit : length_ (PrimitiveBuilder.base_ b1) * PrimitiveBuilder.sizeof_value_type b1
                 + PrimitiveBuilder.sizeof_value_type b1
                 <= Z.of_nat (List.length (PrimitiveBuilder.raw_data_ b1))) by nia.
  split; [lia |]. split; [| split; [| split; [| split; [| split; [| split]]]]].
  - intros k Hk. rewrite at_memset by nia.
    rewrite <- Hl, <- Hsz.
    destruct (Z.leb_spec (length_ (PrimitiveBuilder.base_ b1)
                          * PrimitiveBuilder.sizeof_value_type b1)
                (length_ (PrimitiveBuilder.base_ b1)
                 * PrimitiveBuilder.sizeof_value_type b1 + k)); [| lia].
    destruct (Z.ltb_spec (length_ (PrimitiveBuilder.base_ b1)
                          * PrimitiveBuilder.sizeof_value_type b1 + k)
                (length_ (PrimitiveBuilder.base_ b1)
                 * PrimitiveBuilder.sizeof_value_type b1
                 + PrimitiveBuilder.sizeof_value_type b1)); [reflexivity | lia].
  - rewrite <- Hl. apply Hclean1. lia.
  - lia.
  - lia.
  - intros k Hk. rewrite at_memset by nia.
    rewrite <- Hl, <- Hsz in Hk.
    destruct (Z.leb_spec (length_ (PrimitiveBuilder.base_ b1)
                          * PrimitiveBuilder.sizeof_value_type b1) k); [lia |].
    simpl. apply Hlow. rewrite <- Hl, <- Hsz. lia.
  - intros j Hj. apply Hbits. lia.
  - split; [exact Hc2 |]. split; [simpl; lia |]. simpl.
    rewrite length_memset. lia.
Qed.

Lemma primitive_consistent_new (sizeof_T : Z) (pool : MemoryPool) :
  0 < sizeof_T -> primitive_consistent (PrimitiveBuilder.new sizeof_T pool).
Proof.
  intros Hsz. split; [apply bitmap_consistent_new |]. split; [exact Hsz |]. simpl. lia.
Qed.

Lemma PrimitiveBuilder_AppendNull_zeroes_slot_witness :
  fst (PrimitiveBuilder.AppendNull (PrimitiveBuilder.new 4 (mkPool 4096 170))) = OK /\
  take 6 (PrimitiveBuilder.raw_data_
            (snd (PrimitiveBuilder.AppendNull (PrimitiveBuilder.new 4 (mkPool 4096 170)))))
    = [0; 0; 0; 0; 170; 170] /\
  BitUtil.GetBit
    (null_bitmap_data_
       (PrimitiveBuilder.base_
          (snd (PrimitiveBuilder.AppendNull (PrimitiveBuilder.new 4 (mkPool 4096 170))))))
    0 = false /\
  null_count
    (PrimitiveBuilder.base_
       (snd (PrimitiveBuilder.AppendNull (PrimitiveBuilder.new 4 (mkPool 4096 170)))))
    = 1 /\
  length
    (PrimitiveBuilder.base_
       (snd (PrimitiveBuilder.AppendNull (PrimitiveBuilder.new 4 (mkPool 4096 170)))))
    = 1.
Proof.
  destruct (PrimitiveBuilder_AppendNull_zeroes_slot
              (PrimitiveBuilder.new 4 (mkPool 4096 170))
              (snd (PrimitiveBuilder.AppendNull (PrimitiveBuilder.new 4 (mkPool 4096 170))))
              OK)
    as (_ & _ & Hok).
  - apply primitive_consistent_new. lia.
  - reflexivity.
  - destruct (Hok eq_refl) as (_ & _ & Hbit & Hnull & Hlen & _).
    split; [reflexivity |]. split; [reflexivity |].
    split; [exact Hbit |]. split; [exact Hnull | exact Hlen].
Defined.

(** ** The adaptive integer builders: scalar appends go to the pending region *)

Import AdaptiveIntBuilderBase.

Lemma adaptive_body_eq (signed : bool) (o : adaptive_op) (b : AdaptiveIntBuilderBase.t) :
  adaptive_body signed o b
  = commit_if_full
      (write_pending (adaptive_value signed o) (adaptive_valid o) (adaptive_is_null o) b).
Proof. destruct o, signed; reflexivity. Qed.

Lemma adaptive_step_eq (signed : bool) (commit : _ -> Status * AdaptiveIntBuilderBase.t)
      (o : adaptive_op) (b : AdaptiveIntBuilderBase.t) :
  adaptive_step signed commit o b = finish commit (adaptive_body signed o b).
Proof. destruct o, signed; reflexivity. Qed.

Lemma write_pending_facts (data valid : Z) (nulls : bool) (b : AdaptiveIntBuilderBase.t) :
  0 <= pending_pos_ b ->
  pending_pos_ b < Z.of_nat (List.length (pending_data_ b)) ->
  pending_pos_ b < Z.of_nat (List.length (pending_valid_ b)) ->
  committed (write_pending data valid nulls b) = committed b /\
  pending_pos_ (write_pending data valid nulls b) = pending_pos_ b + 1 /\
  BitUtil.at_ (pending_data_ (write_pending data valid nulls b)) (pending_pos_ b) = data /\
  BitUtil.at_ (pending_valid_ (write_pending data valid nulls b)) (pending_pos_ b) = valid /\
  pending_has_nulls_ (write_pending data valid nulls b)
    = (nulls || pending_has_nulls_ b)%bool /\
  List.length (pending_data_ (write_pending data valid nulls b))
    = List.length (pending_data_ b) /\
  List.length (pending_valid_ (write_pending data valid nulls b))
    = List.length (pending_valid_ b) /\
  (forall k, 0 <= k -> k <> pending_pos_ b ->
     BitUtil.at_ (pending_data_ (write_pending data valid nulls b)) k
       = BitUtil.at_ (pending_data_ b) k /\
     BitUtil.at_ (pending_valid_ (write_pending data valid nulls b)) k
       = BitUtil.at_ (pending_valid_ b) k).
Proof.
  intros Hpos Hd Hv. unfold write_pending; simpl.
  rewrite !at_insert by lia.
  rewrite !decide_True by (split; [reflexivity | lia]).
  rewrite !length_insert.
  repeat split; try reflexivity.
  - rewrite at_insert by lia. apply decide_False. lia.
  - rewrite at_insert by lia. apply decide_False. lia.
Qed.

Lemma adaptive_run_stages (signed : bool) (commit : _ -> Status * AdaptiveIntBuilderBase.t)
      (ops : list adaptive_op) (b : AdaptiveIntBuilderBase.t) :
  0 <= pending_pos_ b ->
  pending_pos_ b + Z.of_nat (List.length ops) < pending_size_ ->
  List.length (pending_data_ b) = Z.to_nat pending_size_ ->
  List.length (pending_valid_ b) = Z.to_nat pending_size_ ->
  exists b',
    adaptive_run signed commit ops b = (OK, b') /\
    committed b' = committed b /\
    pending_pos_ b' = pending_pos_ b + Z.of_nat (List.length ops) /\
    (forall k o, ops !! k = Some o ->
       BitUtil.at_ (pending_data_ b') (pending_pos_ b + Z.of_nat k)
         = adaptive_value signed o /\
       BitUtil.at_ (pending_valid_ b') (pending_pos_ b + Z.of_nat k)
         = adaptive_valid o) /\
    (forall k, 0 <= k < pending_pos_ b ->
       BitUtil.at_ (pending_data_ b') k = BitUtil.at_ (pending_data_ b) k /\
       BitUtil.at_ (pending_valid_ b') k = BitUtil.at_ (pending_valid_ b) k).
Proof.
  revert b. induction ops as [| o ops IH]; intros b Hpos Hroom Hd Hv.
  - exists b. simpl. repeat split; try lia. discriminate. discriminate.
  - simpl List.length in Hroom. unfold pending_size_ in *.
    destruct (write_pending_facts (adaptive_value signed o) (adaptive_valid o)
                (adaptive_is_null o) b) as (Hc & Hp & Hdat & Hval & _ & Hld & Hlv & Hoth);
      [lia | lia | lia |].
    set (b1 := write_pending (adaptive_value signed o) (adaptive_valid o)
                 (adaptive_is_null o) b) in *.
    assert (Hstep : adaptive_step signed commit o b = (OK, b1)).
    { rewrite adaptive_step_eq, adaptive_body_eq. fold b1. unfold commit_if_full.
      rewrite Hp. unfold pending_size_.
      destruct (Z.geb_spec (pending_pos_ b + 1) 1024); [lia | reflexivity]. }
    destruct (IH b1) as (b' & Hrun & Hc' & Hp' & Hin & Hlow); [lia | lia | lia | lia |].
    exists b'. simpl adaptive_run. rewrite Hstep. simpl RETURN_NOT_OK.
    change (List.length (o :: ops)) with (S (List.length ops)).
    split; [exact Hrun |]. split; [congruence |]. split; [lia |]. split.
    + intros [| k] o' Hk.
      * injection Hk as <-. simpl Z.of_nat. rewrite Z.add_0_r.
        destruct (Hlow (pending_pos_ b)) as [-> ->]; [lia |]. split; assumption.
      * simpl in Hk. destruct (Hin k o' Hk) as [H1 H2].
        replace (pending_pos_ b + Z.of_nat (S k)) with (pending_pos_ b1 + Z.of_nat k) by lia.
        split; assumption.
    + intros k Hk. destruct (Hlow k) as [-> ->]; [lia |]. apply Hoth; lia.
Qed.

(** C1: on an adaptive integer builder (signed or unsigned) whose pending
    position is inside the 1024-slot pending region, a scalar [Append(v)]
    or an [AppendNull] writes the pending data, the pending validity flag,
    the pending-nulls flag and the pending position only, leaving the
    committed state (base members, data buffer, element width) as it was,
    and ends in a call of [CommitPendingData] exactly when the pending
    position reaches 1024; consequently a run of appends that does not fill
    the region returns OK with the committed state, and with it the length,
    the capacity and the null count, unchanged, while the appended entries
    sit in the pending region. *)
Theorem adaptive_appends_write_only_pending
        (signed : bool) (commit : AdaptiveIntBuilderBase.t -> Status * AdaptiveIntBuilderBase.t)
        (o : adaptive_op) (ops : list adaptive_op) (b : AdaptiveIntBuilderBase.t) :
  0 <= pending_pos_ b < pending_size_ ->
  List.length (pending_data_ b) = Z.to_nat pending_size_ ->
  List.length (pending_valid_ b) = Z.to_nat pending_size_ ->
  (exists b1,
     committed b1 = committed b /\
     pending_pos_ b1 = pending_pos_ b + 1 /\
     BitUtil.at_ (pending_data_ b1) (pending_pos_ b) = adaptive_value signed o /\
     BitUtil.at_ (pending_valid_ b1) (pending_pos_ b) = adaptive_valid o /\
     pending_has_nulls_ b1 = (adaptive_is_null o || pending_has_nulls_ b)%bool /\
     (adaptive_body signed o b = CallsCommitPendingData b1
        <-> pending_pos_ b + 1 = pending_size_) /\
     (adaptive_body signed o b = Returns OK b1
        <-> pending_pos_ b + 1 < pending_size_) /\
     adaptive_step signed commit o b
       = (if pending_pos_ b + 1 =? pending_size_ then commit b1 else (OK, b1))) /\
  (pending_pos_ b + Z.of_nat (List.length ops) < pending_size_ ->
   exists b',
     adaptive_run signed commit ops b = (OK, b') /\
     committed b' = committed b /\
     length (base_ b') = length (base_ b) /\
     capacity (base_ b') = capacity (base_ b) /\
     null_count (base_ b') = null_count (base_ b) /\
     pending_pos_ b' = pending_pos_ b + Z.of_nat (List.length ops) /\
     (forall k o', ops !! k = Some o' ->
        BitUtil.at_ (pending_data_ b') (pending_pos_ b + Z.of_nat k)
          = adaptive_value signed o' /\
        BitUtil.at_ (pending_valid_ b') (pending_pos_ b + Z.of_nat k)
          = adaptive_valid o')).
Proof.
  intros Hpos Hd Hv. unfold pending_size_ in *. split.
  - destruct (write_pending_facts (adaptive_value signed o) (adaptive_valid o)
                (adaptive_is_null o) b) as (Hc & Hp & Hdat & Hval & Hnulls & _);
      [lia | lia | lia |].
    exists (write_pending (adaptive_value signed o) (adaptive_valid o)
              (adaptive_is_null o) b).
    rewrite adaptive_step_eq, adaptive_body_eq. unfold commit_if_full.
    rewrite Hp. unfold pending_size_.
    split; [exact Hc |]. split; [reflexivity |]. split; [exact Hdat |].
    split; [exact Hval |]. split; [exact Hnulls |].
    destruct (Z.geb_spec (pending_pos_ b + 1) 1024) as [Hfull | Hroom].
    + rewrite (proj2 (Z.eqb_eq _ _)) by lia.
      split; [split; [lia | reflexivity] |].
      split; [split; [discriminate | lia] | reflexivity].
    + rewrite (proj2 (Z.eqb_neq _ _)) by lia.
      split; [split; [discriminate | lia] |].
      split; [split; [lia | reflexivity] | reflexivity].
  - intros Hroom.
    destruct (adaptive_run_stages signed commit ops b) as (b' & Hrun & Hc & Hp & Hin & _);
      unfold pending_size_; try lia.
    exists b'. unfold length, capacity, null_count.
    assert (Hbase : base_ b' = base_ b) by (unfold committed in Hc; congruence).
    rewrite Hbase. repeat split; try assumption; apply (Hin _ _ H).
Qed.

Lemma adaptive_appends_write_only_pending_witness :
  exists b',
    adaptive_run true (fun b => (OutOfMemory, b)) [AdaptiveAppend (-1)]
      AdaptiveIntBuilder_example = (OK, b') /\
    committed b' = committed AdaptiveIntBuilder_example /\
    length (base_ b') = 0 /\
    pending_pos_ b' = 1023 /\
    BitUtil.at_ (pending_data_ b') 1022 = 2 ^ 64 - 1.
Proof.
  destruct (adaptive_appends_write_only_pending true (fun b => (OutOfMemory, b))
              AdaptiveAppendNull [AdaptiveAppend (-1)] AdaptiveIntBuilder_example)
    as [_ Hrun];
    [unfold pending_size_; simpl; lia | reflexivity | reflexivity |].
  destruct Hrun as (b' & Hr & Hc & Hl & _ & _ & Hp & Hin);
    [unfold pending_size_; simpl; lia |].
  exists b'. split; [exact Hr |]. split; [exact Hc |]. split; [exact Hl |].
  split; [exact Hp |]. exact (proj1 (Hin 0%nat (AdaptiveAppend (-1)) eq_refl)).
Defined.

(** ** BinaryBuilder: offsets and length *)

Lemma BinaryBuilder_step_counts (o : BinaryBuilder.op) (b : BinaryBuilder.t) :
  TypedBufferBuilder.length (BinaryBuilder.offsets_builder_ (BinaryBuilder.step b o))
    = TypedBufferBuilder.length (BinaryBuilder.offsets_builder_ b) + 1 /\
  length_ (BinaryBuilder.base_ (BinaryBuilder.step b o))
    = length_ (BinaryBuilder.base_ b) + 1.
Proof.
  unfold TypedBufferBuilder.length.
  destruct o; simpl; rewrite length_app; simpl; split; lia.
Qed.

Lemma BinaryBuilder_run_counts (ops : list BinaryBuilder.op) (b : BinaryBuilder.t) :
  TypedBufferBuilder.length (BinaryBuilder.offsets_builder_ (BinaryBuilder.run ops b))
    = TypedBufferBuilder.length (BinaryBuilder.offsets_builder_ b)
      + Z.of_nat (List.length ops) /\
  length_ (BinaryBuilder.base_ (BinaryBuilder.run ops b))
    = length_ (BinaryBuilder.base_ b) + Z.of_nat (List.length ops).
Proof.
  revert b. induction ops as [| o ops IH]; intros b.
  - simpl. lia.
  - change (BinaryBuilder.run (o :: ops) b)
      with (BinaryBuilder.run ops (BinaryBuilder.step b o)).
    destruct (IH (BinaryBuilder.step b o)) as [-> ->].
    destruct (BinaryBuilder_step_counts o b) as [-> ->].
    change (List.length (o :: ops)) with (S (List.length ops)). lia.
Qed.

Lemma BinaryBuilder_step_buffers (o : BinaryBuilder.op) (b : BinaryBuilder.t) :
  TypedBufferBuilder.values_ (BinaryBuilder.value_data_builder_ (BinaryBuilder.step b o))
    = TypedBufferBuilder.values_ (BinaryBuilder.value_data_builder_ b) ++ slot_bytes o /\
  TypedBufferBuilder.values_ (BinaryBuilder.offsets_builder_ (BinaryBuilder.step b o))
    = TypedBufferBuilder.values_ (BinaryBuilder.offsets_builder_ b)
      ++ [to_int32 (BinaryBuilder.value_data_length b)] /\
  BinaryBuilder.base_ (BinaryBuilder.step b o)
    = UnsafeAppendToBitmap (slot_valid o) (BinaryBuilder.base_ b).
Proof.
  destruct o as [value |]; simpl.
  - rewrite Nat2Z.id, firstn_all. repeat split.
  - rewrite app_nil_r. repeat split.
Qed.

Lemma BinaryBuilder_run_buffers (ops : list BinaryBuilder.op) (b : BinaryBuilder.t) :
  TypedBufferBuilder.values_ (BinaryBuilder.value_data_builder_ (BinaryBuilder.run ops b))
    = TypedBufferBuilder.values_ (BinaryBuilder.value_data_builder_ b) ++ slots_data ops /\
  TypedBufferBuilder.values_ (BinaryBuilder.offsets_builder_ (BinaryBuilder.run ops b))
    = TypedBufferBuilder.values_ (BinaryBuilder.offsets_builder_ b)
      ++ List.map to_int32 (slot_starts (BinaryBuilder.value_data_length b) ops) /\
  BinaryBuilder.base_ (BinaryBuilder.run ops b)
    = bitmap_run (List.map (fun o => AppendBit (slot_valid o)) ops) (BinaryBuilder.base_ b).
Proof.
  revert b. induction ops as [| o ops IH]; intros b.
  - simpl. rewrite !app_nil_r. repeat split.
  - change (BinaryBuilder.run (o :: ops) b)
      with (BinaryBuilder.run ops (BinaryBuilder.step b o)).
    destruct (IH (BinaryBuilder.step b o)) as (-> & -> & ->).
    destruct (BinaryBuilder_step_buffers o b) as (Hd & Ho & Hb).
    assert (Hlen : BinaryBuilder.value_data_length (BinaryBuilder.step b o)
                   = BinaryBuilder.value_data_length b
                     + Z.of_nat (List.length (slot_bytes o))).
    { unfold BinaryBuilder.value_data_length, TypedBufferBuilder.length.
      rewrite Hd, length_app. lia. }
    rewrite Hd, Ho, Hb, Hlen. simpl. rewrite <- !app_assoc. repeat split.
Qed.

Lemma bitmap_flags_all_bits (flags : list bool) :
  bitmap_flags_all (List.map AppendBit flags) = flags.
Proof. induction flags as [| v flags IH]; simpl; [| rewrite IH]; reflexivity. Qed.

Lemma BinaryBuilder_run_bitmap (ops : list BinaryBuilder.op) (b : BinaryBuilder.t) :
  bitmap_consistent (BinaryBuilder.base_ b) ->
  length_ (BinaryBuilder.base_ b) + Z.of_nat (List.length ops)
    <= capacity_ (BinaryBuilder.base_ b) ->
  bitmap_consistent (BinaryBuilder.base_ (BinaryBuilder.run ops b)) /\
  null_count_ (BinaryBuilder.base_ (BinaryBuilder.run ops b))
    = null_count_ (BinaryBuilder.base_ b) + count_invalid (List.map slot_valid ops) /\
  (forall k o, ops !! k = Some o ->
     BitUtil.GetBit (null_bitmap_data_ (BinaryBuilder.base_ (BinaryBuilder.run ops b)))
       (length_ (BinaryBuilder.base_ b) + Z.of_nat k) = slot_valid o) /\
  (forall j, 0 <= j < length_ (BinaryBuilder.base_ b) ->
     BitUtil.GetBit (null_bitmap_data_ (BinaryBuilder.base_ (BinaryBuilder.run ops b))) j
     = BitUtil.GetBit (null_bitmap_data_ (BinaryBuilder.base_ b)) j).
Proof.
  intros Hcons Hroom.
  destruct (BinaryBuilder_run_buffers ops b) as (_ & _ & Hb).
  assert (Hflags : bitmap_flags_all (List.map (fun o => AppendBit (slot_valid o)) ops)
                   = List.map slot_valid ops).
  { rewrite <- (bitmap_flags_all_bits (List.map slot_valid ops)), List.map_map.
    reflexivity. }
  destruct (bitmap_run_consistent
              (List.map (fun o => AppendBit (slot_valid o)) ops) (BinaryBuilder.base_ b) Hcons)
    as (Hc & _ & Hn & Hin & Hlow).
  { rewrite Hflags, length_map. exact Hroom. }
  rewrite Hflags in Hn, Hin. rewrite <- Hb in *.
  split; [exact Hc |]. split; [exact Hn |]. split; [| exact Hlow].
  intros k o Hk. apply Hin.
  clear - Hk. revert k Hk. induction ops as [| a ops IH]; intros k Hk; [discriminate |].
  destruct k as [| k]; simpl in *; [congruence | apply IH, Hk].
Qed.

Lemma BinaryBuilder_Reserve (n : Z) (b b' : BinaryBuilder.t) (s : Status) :
  Reserve n b = (s, b') -> bitmap_consistent (BinaryBuilder.base_ b) ->
  (s <> OK -> b' = b) /\
  (s = OK ->
     bitmap_consistent (BinaryBuilder.base_ b') /\
     length_ (BinaryBuilder.base_ b') = length_ (BinaryBuilder.base_ b) /\
     null_count_ (BinaryBuilder.base_ b') = null_count_ (BinaryBuilder.base_ b) /\
     TypedBufferBuilder.values_ (BinaryBuilder.offsets_builder_ b')
       = TypedBufferBuilder.values_ (BinaryBuilder.offsets_builder_ b) /\
     BinaryBuilder.value_data_builder_ b' = BinaryBuilder.value_data_builder_ b /\
     length_ (BinaryBuilder.base_ b) + n <= capacity_ (BinaryBuilder.base_ b')).
Proof.
  intros HR Hcons.
  destruct (Reserve_cases n b) as [[Hroom Heq] | [Hgrow (c & Hc & Heq)]];
    rewrite Heq in HR; simpl in *.
  - injection HR as <- <-. split; [done |]. intros _.
    split; [exact Hcons |]. repeat split; try lia; reflexivity.
  - revert HR. unfold BinaryBuilder.Resize, RETURN_NOT_OK.
    destruct (CheckCapacity c _);
      try (intros [= <- <-]; split; [reflexivity | discriminate]).
    cbv zeta.
    destruct (pool_grants _ _); [| intros [= <- <-]; split; [reflexivity | discriminate]].
    destruct (ArrayBuilder.Resize _ (BinaryBuilder.base_ b)) as [s' a] eqn:HRb.
    destruct (ArrayBuilder_Resize_counters _ _ _ _ HRb) as (Hl & Hn & _ & _ & Hcap & _).
    destruct s'; intros [= <- <-]; (split; [try reflexivity; congruence |]);
      try discriminate.
    intros _. destruct (Hcap eq_refl) as (Hcap' & _ & _).
    destruct (ArrayBuilder_Resize_consistent _ _ _ HRb Hcons) as [Hcons' _].
    simpl. split; [exact Hcons' |]. split; [exact Hl |]. split; [exact Hn |].
    split; [reflexivity |]. split; [reflexivity | lia].
Qed.

Lemma BinaryBuilder_ReserveData_frame (n : Z) (b b' : BinaryBuilder.t) (s : Status) :
  BinaryBuilder.ReserveData n b = (s, b') ->
  BinaryBuilder.base_ b' = BinaryBuilder.base_ b /\
  BinaryBuilder.offsets_builder_ b' = BinaryBuilder.offsets_builder_ b /\
  TypedBufferBuilder.values_ (BinaryBuilder.value_data_builder_ b')
    = TypedBufferBuilder.values_ (BinaryBuilder.value_data_builder_ b) /\
  (s = OK -> BinaryBuilder.value_data_length b + n <= BinaryBuilder.value_data_capacity b') /\
  (s <> OK -> b' = b).
Proof.
  unfold BinaryBuilder.ReserveData.
  destruct (Z.gtb_spec (BinaryBuilder.value_data_length b + n)
              (BinaryBuilder.value_data_capacity b)) as [Hgrow | Hroom].
  - cbv zeta. destruct (pool_grants _ _); intros [= <- <-]; simpl.
    + repeat split; try reflexivity; try congruence.
      intros _. unfold BinaryBuilder.value_data_capacity. simpl.
      apply NextPower2_ge.
    + repeat split; try reflexivity; try discriminate.
  - intros [= <- <-]. repeat split; try reflexivity; try congruence; intros _; lia.
Qed.

Lemma BinaryBuilder_reserved_eq :
  BinaryBuilder_reserved
  = {| BinaryBuilder.base_ :=
         {| pool_ := mkPool 4096 170; null_bitmap_data_ := [0; 0; 0; 0];
            null_count_ := 0; length_ := 0; capacity_ := 32 |};
       BinaryBuilder.offsets_builder_ :=
         {| TypedBufferBuilder.values_ := []; TypedBufferBuilder.capacity_ := 33 |};
       BinaryBuilder.value_data_builder_ :=
         {| TypedBufferBuilder.values_ := []; TypedBufferBuilder.capacity_ := 4 |} |}.
Proof. reflexivity. Qed.

Lemma BinaryBuilder_reserved_presized :
  bitmap_consistent (BinaryBuilder.base_ BinaryBuilder_reserved) /\
  (forall ops : list BinaryBuilder.op,
     (List.length ops <= 32)%nat -> (List.length (slots_data ops) <= 4)%nat ->
     BinaryBuilder_presized ops BinaryBuilder_reserved).
Proof.
  split.
  - exact (proj1 (ArrayBuilder_Resize_consistent 32 (ArrayBuilder.new (mkPool 4096 170))
                    (BinaryBuilder.base_ BinaryBuilder_reserved)
                    eq_refl (bitmap_consistent_new (mkPool 4096 170)))).
  - intros ops Hn Hbytes. unfold BinaryBuilder_presized.
    rewrite BinaryBuilder_reserved_eq.
    unfold BinaryBuilder.value_data_length, BinaryBuilder.value_data_capacity,
      TypedBufferBuilder.length. simpl. lia.
Qed.

(** Scenario 3 of the spec, before Finish: the appends of
    [""], ["a"], null, ["bc"] to a new builder presized for them. *)
Lemma BinaryBuilder_scenario :
  BinaryBuilder.run
    [BinaryBuilder.OpAppend []; BinaryBuilder.OpAppend [97];
     BinaryBuilder.OpAppendNull; BinaryBuilder.OpAppend [98; 99]]
    BinaryBuilder_reserved
  = {| BinaryBuilder.base_ :=
         {| pool_ := mkPool 4096 170; null_bitmap_data_ := [11; 0; 0; 0];
            null_count_ := 1; length_ := 4; capacity_ := 32 |};
       BinaryBuilder.offsets_builder_ :=
         {| TypedBufferBuilder.values_ := [0; 0; 1; 1];
            TypedBufferBuilder.capacity_ := 33 |};
       BinaryBuilder.value_data_builder_ :=
         {| TypedBufferBuilder.values_ := [97; 98; 99];
            TypedBufferBuilder.capacity_ := 4 |} |}.
Proof. reflexivity. Qed.

(** C5, as the spec states it, fails: after one [AppendNull] on a new
    builder that has reserved room the offsets builder holds one entry,
    which is the length and not the length plus one. *)
Lemma BinaryBuilder_offsets_counterexample :
  TypedBufferBuilder.length
    (BinaryBuilder.offsets_builder_
       (BinaryBuilder.UnsafeAppendNull
          (snd (Reserve 1 (BinaryBuilder.new (mkPool 4096 170)))))) = 1 /\
  length
    (BinaryBuilder.base_
       (BinaryBuilder.UnsafeAppendNull
          (snd (Reserve 1 (BinaryBuilder.new (mkPool 4096 170)))))) = 1 /\
  TypedBufferBuilder.length
    (BinaryBuilder.offsets_builder_
       (BinaryBuilder.UnsafeAppendNull
          (snd (Reserve 1 (BinaryBuilder.new (mkPool 4096 170))))))
  <> length
       (BinaryBuilder.base_
          (BinaryBuilder.UnsafeAppendNull
             (snd (Reserve 1 (BinaryBuilder.new (mkPool 4096 170)))))) + 1.
Proof. split; [reflexivity |]. split; [reflexivity |]. discriminate. Qed.

(** C5, amended in the count of offsets only: on a BinaryBuilder (and a
    StringBuilder, which adds no member) in a consistent state and
    presized for the element, [AppendNull] pushes the current value-data
    byte length as the next offset and appends no value byte (a
    zero-length slot), the validity bit of the new element is clear, and
    the length has grown by one (as has the null count); the builder stays
    consistent.  After every logical append (value or null) the offsets
    builder holds exactly [length] entries: a run of appends on a presized
    builder adds one offset per element, [Reserve] and [ReserveData] add
    neither, and so from a new builder, presized by them, the two counts
    are equal. *)
Theorem BinaryBuilder_AppendNull_pushes_offset (b : BinaryBuilder.t) :
  bitmap_consistent (BinaryBuilder.base_ b) ->
  BinaryBuilder_presized [BinaryBuilder.OpAppendNull] b ->
  TypedBufferBuilder.values_ (BinaryBuilder.offsets_builder_ (BinaryBuilder.UnsafeAppendNull b))
    = TypedBufferBuilder.values_ (BinaryBuilder.offsets_builder_ b)
      ++ [to_int32 (BinaryBuilder.value_data_length b)] /\
  (0 <= BinaryBuilder.value_data_length b < 2 ^ 31 ->
     to_int32 (BinaryBuilder.value_data_length b) = BinaryBuilder.value_data_length b) /\
  BinaryBuilder.value_data_builder_ (BinaryBuilder.UnsafeAppendNull b)
    = BinaryBuilder.value_data_builder_ b /\
  BitUtil.GetBit (null_bitmap_data_ (BinaryBuilder.base_ (BinaryBuilder.UnsafeAppendNull b)))
    (length (BinaryBuilder.base_ b)) = false /\
  length (BinaryBuilder.base_ (BinaryBuilder.UnsafeAppendNull b))
    = length (BinaryBuilder.base_ b) + 1 /\
  null_count (BinaryBuilder.base_ (BinaryBuilder.UnsafeAppendNull b))
    = null_count (BinaryBuilder.base_ b) + 1 /\
  bitmap_consistent (BinaryBuilder.base_ (BinaryBuilder.UnsafeAppendNull b)) /\
  (forall ops : list BinaryBuilder.op,
     BinaryBuilder_presized ops b ->
     TypedBufferBuilder.length (BinaryBuilder.offsets_builder_ (BinaryBuilder.run ops b))
       - length (BinaryBuilder.base_ (BinaryBuilder.run ops b))
     = TypedBufferBuilder.length (BinaryBuilder.offsets_builder_ b)
       - length (BinaryBuilder.base_ b) /\
     bitmap_consistent (BinaryBuilder.base_ (BinaryBuilder.run ops b))) /\
  (forall (n : Z) (b1 : BinaryBuilder.t),
     Reserve n b = (OK, b1) \/ BinaryBuilder.ReserveData n b = (OK, b1) ->
     TypedBufferBuilder.length (BinaryBuilder.offsets_builder_ b1)
       = TypedBufferBuilder.length (BinaryBuilder.offsets_builder_ b) /\
     length (BinaryBuilder.base_ b1) = length (BinaryBuilder.base_ b) /\
     bitmap_consistent (BinaryBuilder.base_ b1)) /\
  (forall (pool : MemoryPool) (n m : Z) (b1 b2 : BinaryBuilder.t)
          (ops : list BinaryBuilder.op),
     Reserve n (BinaryBuilder.new pool) = (OK, b1) ->
     BinaryBuilder.ReserveData m b1 = (OK, b2) ->
     BinaryBuilder_presized ops b2 ->
     TypedBufferBuilder.length (BinaryBuilder.offsets_builder_ (BinaryBuilder.run ops b2))
     = length (BinaryBuilder.base_ (BinaryBuilder.run ops b2)) /\
     bitmap_consistent (BinaryBuilder.base_ (BinaryBuilder.run ops b2))).
Proof.
  unfold length, null_count. intros Hcons Hroom.
  pose proof Hcons as (_ & _ & _ & Hclean).
  destruct Hroom as (Hlen & Hcap & _).
  split; [reflexivity |]. split.
  { intros Hrange. unfold to_int32. rewrite Z.mod_small by lia. lia. }
  split; [reflexivity |]. split; [apply Hclean; lia |].
  split; [reflexivity |]. split; [reflexivity |]. split; [| split; [| split]].
  - destruct (bitmap_step_consistent (AppendBit false) (BinaryBuilder.base_ b) Hcons)
      as (Hc & _); [exact Hcap | exact Hc].
  - intros ops (_ & Hroom & _).
    destruct (BinaryBuilder_run_counts ops b) as [-> ->].
    split; [lia |]. apply (BinaryBuilder_run_bitmap ops b Hcons Hroom).
  - intros n b1 [HR | HD].
    + destruct (BinaryBuilder_Reserve _ _ _ _ HR Hcons) as [_ Hok].
      destruct (Hok eq_refl) as (Hc1 & Hl1 & _ & Hoff1 & _).
      unfold TypedBufferBuilder.length. rewrite Hoff1.
      split; [reflexivity |]. split; [exact Hl1 | exact Hc1].
    + destruct (BinaryBuilder_ReserveData_frame _ _ _ _ HD) as (Hbase & Hoff & _).
      rewrite Hbase, Hoff. split; [reflexivity |]. split; [reflexivity | exact Hcons].
  - intros pool n m b1 b2 ops HR HD (_ & Hroom & _).
    destruct (BinaryBuilder_Reserve _ _ _ _ HR (bitmap_consistent_new pool)) as [_ Hok].
    destruct (Hok eq_refl) as (Hc1 & Hl1 & _ & Hoff1 & _).
    destruct (BinaryBuilder_ReserveData_frame _ _ _ _ HD) as (Hbase & Hoff2 & _).
    rewrite <- Hbase in Hc1.
    destruct (BinaryBuilder_run_counts ops b2) as [-> ->].
    split; [| apply (BinaryBuilder_run_bitmap ops b2 Hc1 Hroom)].
    unfold TypedBufferBuilder.length. rewrite Hoff2, Hoff1, Hbase, Hl1. reflexivity.
Qed.

Lemma BinaryBuilder_AppendNull_pushes_offset_witness :
  TypedBufferBuilder.values_
    (BinaryBuilder.offsets_builder_
       (BinaryBuilder.UnsafeAppendNull
          (BinaryBuilder.run [BinaryBuilder.OpAppend [97; 98]] BinaryBuilder_reserved)))
    = [0; 2] /\
  BitUtil.GetBit
    (null_bitmap_data_
       (BinaryBuilder.base_
          (BinaryBuilder.UnsafeAppendNull
             (BinaryBuilder.run [BinaryBuilder.OpAppend [97; 98]] BinaryBuilder_reserved))))
    1 = false /\
  length
    (BinaryBuilder.base_
       (BinaryBuilder.UnsafeAppendNull
          (BinaryBuilder.run [BinaryBuilder.OpAppend [97; 98]] BinaryBuilder_reserved)))
    = 2 /\
  null_count
    (BinaryBuilder.base_
       (BinaryBuilder.UnsafeAppendNull
          (BinaryBuilder.run [BinaryBuilder.OpAppend [97; 98]] BinaryBuilder_reserved)))
    = 1.
Proof.
  destruct BinaryBuilder_reserved_presized as [Hcons Hpre].
  destruct (BinaryBuilder_AppendNull_pushes_offset
              (BinaryBuilder.run [BinaryBuilder.OpAppend [97; 98]] BinaryBuilder_reserved))
    as (Hoff & _ & _ & Hbit & Hlen & Hnull & _).
  - apply (BinaryBuilder_run_bitmap [BinaryBuilder.OpAppend [97; 98]]
             BinaryBuilder_reserved Hcons).
    apply (Hpre [BinaryBuilder.OpAppend [97; 98]]); simpl; lia.
  - unfold BinaryBuilder_presized. rewrite BinaryBuilder_reserved_eq.
    unfold BinaryBuilder.value_data_length, BinaryBuilder.value_data_capacity,
      TypedBufferBuilder.length. simpl. lia.
  - split; [exact Hoff |]. split; [exact Hbit |]. split; [exact Hlen | exact Hnull].
Defined.

(** ** ListBuilder and StructBuilder: AppendNull *)

Lemma StructBuilder_Reserve (n : Z) (b b' : StructBuilder.t) (s : Status) :
  Reserve n b = (s, b') -> bitmap_consistent (StructBuilder.base_ b) ->
  (s <> OK -> b' = b) /\
  (s = OK ->
     bitmap_consistent (StructBuilder.base_ b') /\
     length_ (StructBuilder.base_ b') = length_ (StructBuilder.base_ b) /\
     null_count_ (StructBuilder.base_ b') = null_count_ (StructBuilder.base_ b) /\
     length_ (StructBuilder.base_ b) + n <= capacity_ (StructBuilder.base_ b') /\
     (forall j, 0 <= j ->
        BitUtil.GetBit (null_bitmap_data_ (StructBuilder.base_ b')) j
        = BitUtil.GetBit (null_bitmap_data_ (StructBuilder.base_ b)) j)).
Proof.
  intros HR Hcons.
  destruct (Reserve_cases n b) as [[Hroom Heq] | [Hgrow (c & Hc & Heq)]];
    rewrite Heq in HR; simpl in *.
  - injection HR as <- <-. split; [done |]. intros _.
    split; [exact Hcons |]. repeat split; try lia; reflexivity.
  - unfold StructBuilder.Resize in HR.
    destruct (ArrayBuilder.Resize c (StructBuilder.base_ b)) as [s' a] eqn:HRb.
    injection HR as <- <-.
    destruct (ArrayBuilder_Resize_counters _ _ _ _ HRb) as (Hl & Hn & _ & _ & Hcap & Herr).
    split.
    { intros Hne. rewrite (Herr Hne). destruct b; reflexivity. }
    intros ->. destruct (Hcap eq_refl) as (Hcap' & _ & _).
    destruct (ArrayBuilder_Resize_consistent _ _ _ HRb Hcons) as [Hcons' Hbits].
    simpl. split; [exact Hcons' |]. split; [exact Hl |]. split; [exact Hn |].
    split; [lia | exact Hbits].
Qed.

(** C8: for ListBuilder, whatever the body of [Append] is, and for
    StructBuilder, [AppendNull()] is [Append(false)]: the same resulting
    state and the same status; on a StructBuilder it appends one null (the
    length and the null count grow by one and the validity bit of the new
    element is clear) or, when [Reserve(1)] fails, returns that status with
    the builder as it was. *)
Theorem AppendNull_is_Append_false :
  (forall (Append : bool -> ListBuilder.t -> Status * ListBuilder.t) (b : ListBuilder.t),
     ListBuilder.AppendNull Append b = Append false b) /\
  (forall b : StructBuilder.t,
     StructBuilder.AppendNull b = StructBuilder.Append false b) /\
  (forall (b b' : StructBuilder.t) (s : Status),
     bitmap_consistent (StructBuilder.base_ b) ->
     StructBuilder.AppendNull b = (s, b') ->
     s = fst (Reserve 1 b) /\
     (s <> OK -> b' = b) /\
     (s = OK ->
        length (StructBuilder.base_ b') = length (StructBuilder.base_ b) + 1 /\
        null_count (StructBuilder.base_ b') = null_count (StructBuilder.base_ b) + 1 /\
        BitUtil.GetBit (null_bitmap_data_ (StructBuilder.base_ b'))
          (length (StructBuilder.base_ b)) = false /\
        bitmap_consistent (StructBuilder.base_ b'))).
Proof.
  split; [reflexivity |]. split; [reflexivity |].
  intros b b' s Hcons. unfold length, null_count.
  unfold StructBuilder.AppendNull, StructBuilder.Append, RETURN_NOT_OK.
  destruct (Reserve 1 b) as [s1 b1] eqn:HR.
  destruct (StructBuilder_Reserve _ _ _ _ HR Hcons) as [Herr Hok].
  destruct s1; try (intros [= <- <-]; simpl;
                    split; [reflexivity | split; [intros _; apply Herr |]]; discriminate).
  intros [= <- <-]. simpl fst.
  split; [reflexivity |]. split; [congruence |]. intros _.
  destruct (Hok eq_refl) as (Hc1 & Hl & Hn & Hroom & Hbits).
  pose proof Hc1 as (_ & _ & _ & Hclean1).
  destruct (bitmap_step_consistent (AppendBit false) (StructBuilder.base_ b1) Hc1)
    as (Hc2 & _); [simpl; lia |].
  simpl in *. split; [lia |]. split; [lia |]. split; [| exact Hc2].
  rewrite <- Hl. apply Hclean1. lia.
Qed.

(** ** FixedSizeBinaryBuilder: what Reserve keeps *)

Lemma FixedSizeBinaryBuilder_Reserve_counters
      (n : Z) (b b' : FixedSizeBinaryBuilder.t) (s : Status) :
  Reserve n b = (s, b') ->
  length_ (FixedSizeBinaryBuilder.base_ b') = length_ (FixedSizeBinaryBuilder.base_ b) /\
  null_count_ (FixedSizeBinaryBuilder.base_ b')
    = null_count_ (FixedSizeBinaryBuilder.base_ b) /\
  BufferBuilder.data_ (FixedSizeBinaryBuilder.byte_builder_ b')
    = BufferBuilder.data_ (FixedSizeBinaryBuilder.byte_builder_ b) /\
  (s <> OK -> b' = b).
Proof.
  intros HR.
  destruct (Reserve_cases n b) as [[Hroom Heq] | [Hgrow (c & Hc & Heq)]];
    rewrite Heq in HR; simpl in *.
  - injection HR as <- <-. repeat split; reflexivity.
  - revert HR. unfold FixedSizeBinaryBuilder.Resize, RETURN_NOT_OK.
    destruct (CheckCapacity c _); try (intros [= <- <-]; repeat split; reflexivity).
    cbv zeta. unfold BufferBuilder.Resize.
    destruct (pool_grants _ _); [| intros [= <- <-]; repeat split; reflexivity].
    destruct (ArrayBuilder.Resize _ (FixedSizeBinaryBuilder.base_ b)) as [s' a] eqn:HRb.
    destruct (ArrayBuilder_Resize_counters _ _ _ _ HRb) as (Hl & Hn & _).
    destruct s'; simpl; intros [= <- <-]; simpl;
      repeat split; try assumption; try reflexivity; intros Hne; congruence.
Qed.

(** ** The checked appends keep the bitmap consistent *)

Lemma StructBuilder_Append_consistent (is_valid : bool) (b b' : StructBuilder.t) :
  bitmap_consistent (StructBuilder.base_ b) ->
  StructBuilder.Append is_valid b = (OK, b') ->
  bitmap_consistent (StructBuilder.base_ b') /\
  length_ (StructBuilder.base_ b') = length_ (StructBuilder.base_ b) + 1 /\
  null_count_ (StructBuilder.base_ b')
    = null_count_ (StructBuilder.base_ b) + count_invalid [is_valid].
Proof.
  intros Hcons. unfold StructBuilder.Append, RETURN_NOT_OK.
  destruct (Reserve 1 b) as [s1 b1] eqn:HR.
  destruct (StructBuilder_Reserve _ _ _ _ HR Hcons) as [_ Hok].
  destruct s1; try discriminate. intros [= <-].
  destruct (Hok eq_refl) as (Hc1 & Hl & Hn & Hroom & _).
  destruct (bitmap_step_consistent (AppendBit is_valid) (StructBuilder.base_ b1) Hc1)
    as (Hc2 & Hl2 & Hn2 & _); [simpl; lia |].
  change (bitmap_flags (AppendBit is_valid)) with [is_valid] in Hl2, Hn2.
  change (Z.of_nat (List.length [is_valid])) with 1 in Hl2.
  split; [exact Hc2 |]. split.
  - etransitivity; [exact Hl2 | lia].
  - etransitivity; [exact Hn2 | lia].
Qed.

Lemma BooleanBuilder_base_UnsafeAppend (val : bool) (b : BooleanBuilder.t) :
  BooleanBuilder.base_ (BooleanBuilder.UnsafeAppend val b)
  = UnsafeAppendToBitmap true (BooleanBuilder.base_ b).
Proof. destruct val; reflexivity. Qed.

Lemma BooleanBuilder_Append_consistent (val : bool) (b b' : BooleanBuilder.t) :
  boolean_consistent b ->
  BooleanBuilder.Append val b = (OK, b') ->
  bitmap_consistent (BooleanBuilder.base_ b') /\
  length_ (BooleanBuilder.base_ b') = length_ (BooleanBuilder.base_ b) + 1 /\
  null_count_ (BooleanBuilder.base_ b') = null_count_ (BooleanBuilder.base_ b).
Proof.
  intros Hcons. unfold BooleanBuilder.Append, RETURN_NOT_OK.
  destruct (Reserve 1 b) as [s1 b1] eqn:HR.
  destruct (BooleanBuilder_Reserve _ _ _ _ HR Hcons) as [_ Hok].
  destruct s1; try discriminate. intros [= <-].
  destruct (Hok eq_refl) as ([Hc1 _] & Hl & Hn & Hroom & _).
  destruct (bitmap_step_consistent (AppendBit true) (BooleanBuilder.base_ b1) Hc1)
    as (Hc2 & Hl2 & Hn2 & _); [simpl; lia |].
  rewrite BooleanBuilder_base_UnsafeAppend.
  change (Z.of_nat (List.length (bitmap_flags (AppendBit true)))) with 1 in Hl2.
  change (count_invalid (bitmap_flags (AppendBit true))) with 0 in Hn2.
  split; [exact Hc2 |]. split.
  - etransitivity; [exact Hl2 | lia].
  - etransitivity; [exact Hn2 | lia].
Qed.

Lemma BooleanBuilder_AppendNull_consistent (b b' : BooleanBuilder.t) :
  boolean_consistent b ->
  BooleanBuilder.AppendNull b = (OK, b') ->
  bitmap_consistent (BooleanBuilder.base_ b') /\
  length_ (BooleanBuilder.base_ b') = length_ (BooleanBuilder.base_ b) + 1 /\
  null_count_ (BooleanBuilder.base_ b') = null_count_ (BooleanBuilder.base_ b) + 1.
Proof.
  intros Hcons. unfold BooleanBuilder.AppendNull, RETURN_NOT_OK.
  destruct (Reserve 1 b) as [s1 b1] eqn:HR.
  destruct (BooleanBuilder_Reserve _ _ _ _ HR Hcons) as [_ Hok].
  destruct s1; try discriminate. intros [= <-].
  destruct (Hok eq_refl) as ([Hc1 _] & Hl & Hn & Hroom & _).
  destruct (bitmap_step_consistent (AppendBit false) (BooleanBuilder.base_ b1) Hc1)
    as (Hc2 & Hl2 & Hn2 & _); [simpl; lia |].
  change (Z.of_nat (List.length (bitmap_flags (AppendBit false)))) with 1 in Hl2.
  change (count_invalid (bitmap_flags (AppendBit false))) with 1 in Hn2.
  split; [exact Hc2 |]. split.
  - etransitivity; [exact Hl2 | lia].
  - etransitivity; [exact Hn2 | lia].
Qed.

(** X16: in a builder whose null count is the number of zero bits of the
    validity bitmap below its length (and whose bitmap has no bit set at or
    beyond the length, as [Resize] leaves it), every run of single-bit
    appends and of iterator-based appends of non-empty ranges that fits the
    reserved capacity leaves the null count equal to the number of zero
    bits of the bitmap at the positions 0 to length (exclusive); the run
    adds one to the null count for each flag that says invalid and to the
    length the number of flags appended, and the bits recorded are the
    flags.  The checked appends built on them ([StructBuilder::Append],
    [BooleanBuilder::Append] and [AppendNull]) keep the equality whenever
    they succeed. *)
Theorem null_count_counts_zero_bits (ops : list bitmap_op) (b : ArrayBuilder.t) :
  bitmap_consistent b ->
  Forall (fun o => bitmap_flags o <> []) ops ->
  length_ b + Z.of_nat (List.length (bitmap_flags_all ops)) <= capacity_ b ->
  (null_count (bitmap_run ops b)
     = zero_bits (null_bitmap_data_ (bitmap_run ops b))
         (Z.to_nat (length (bitmap_run ops b))) /\
   null_count (bitmap_run ops b)
     = null_count b + count_invalid (bitmap_flags_all ops) /\
   length (bitmap_run ops b)
     = length b + Z.of_nat (List.length (bitmap_flags_all ops)) /\
   (forall k v, bitmap_flags_all ops !! k = Some v ->
      BitUtil.GetBit (null_bitmap_data_ (bitmap_run ops b)) (length b + Z.of_nat k) = v) /\
   bitmap_consistent (bitmap_run ops b)) /\
  (forall (is_valid : bool) (s s' : StructBuilder.t),
     StructBuilder.base_ s = b -> StructBuilder.Append is_valid s = (OK, s') ->
     null_count (StructBuilder.base_ s')
       = zero_bits (null_bitmap_data_ (StructBuilder.base_ s'))
           (Z.to_nat (length (StructBuilder.base_ s'))) /\
     null_count (StructBuilder.base_ s') = null_count b + count_invalid [is_valid] /\
     length (StructBuilder.base_ s') = length b + 1) /\
  (forall (val : bool) (s s' : BooleanBuilder.t),
     BooleanBuilder.base_ s = b ->
     capacity b <= 8 * Z.of_nat (List.length (BooleanBuilder.raw_data_ s)) ->
     (BooleanBuilder.Append val s = (OK, s') ->
        null_count (BooleanBuilder.base_ s')
          = zero_bits (null_bitmap_data_ (BooleanBuilder.base_ s'))
              (Z.to_nat (length (BooleanBuilder.base_ s'))) /\
        null_count (BooleanBuilder.base_ s') = null_count b /\
        length (BooleanBuilder.base_ s') = length b + 1) /\
     (BooleanBuilder.AppendNull s = (OK, s') ->
        null_count (BooleanBuilder.base_ s')
          = zero_bits (null_bitmap_data_ (BooleanBuilder.base_ s'))
              (Z.to_nat (length (BooleanBuilder.base_ s'))) /\
        null_count (BooleanBuilder.base_ s') = null_count b + 1 /\
        length (BooleanBuilder.base_ s') = length b + 1)).
Proof.
  intros Hcons _ Hroom. unfold null_count, length, capacity.
  split; [| split].
  - destruct (bitmap_run_consistent ops b Hcons Hroom) as (Hc & Hl & Hn & Hin & _).
    exact (conj (proj1 (proj2 (proj2 Hc))) (conj Hn (conj Hl (conj Hin Hc)))).
  - intros is_valid s s' Hs HA. subst b.
    destruct (StructBuilder_Append_consistent is_valid s s' Hcons HA) as (Hc & Hl & Hn).
    exact (conj (proj1 (proj2 (proj2 Hc))) (conj Hn Hl)).
  - intros val s s' Hs Hdata. subst b.
    assert (Hbool : boolean_consistent s) by (split; assumption).
    split; intros HA.
    + destruct (BooleanBuilder_Append_consistent val s s' Hbool HA) as (Hc & Hl & Hn).
      exact (conj (proj1 (proj2 (proj2 Hc))) (conj Hn Hl)).
    + destruct (BooleanBuilder_AppendNull_consistent s s' Hbool HA) as (Hc & Hl & Hn).
      exact (conj (proj1 (proj2 (proj2 Hc))) (conj Hn Hl)).
Qed.

Lemma ArrayBuilder_reserved_consistent : bitmap_consistent ArrayBuilder_reserved.
Proof.
  apply (ArrayBuilder_Resize_consistent 32 (ArrayBuilder.new (mkPool 4096 170))).
  - reflexivity.
  - apply bitmap_consistent_new.
Qed.

Lemma null_count_counts_zero_bits_witness :
  null_count (bitmap_run bitmap_ops_example ArrayBuilder_reserved)
    = zero_bits (null_bitmap_data_ (bitmap_run bitmap_ops_example ArrayBuilder_reserved))
        (Z.to_nat (length (bitmap_run bitmap_ops_example ArrayBuilder_reserved))) /\
  null_count (bitmap_run bitmap_ops_example ArrayBuilder_reserved) = 4 /\
  length (bitmap_run bitmap_ops_example ArrayBuilder_reserved) = 11 /\
  null_bitmap_data_ (bitmap_run bitmap_ops_example ArrayBuilder_reserved)
    = [229; 5; 0; 0].
Proof.
  destruct (null_count_counts_zero_bits bitmap_ops_example ArrayBuilder_reserved)
    as ((Hzero & Hnull & Hlen & _) & _).
  - apply ArrayBuilder_reserved_consistent.
  - repeat constructor; discriminate.
  - simpl. lia.
  - split; [exact Hzero |]. split; [exact Hnull |]. split; [exact Hlen | reflexivity].
Defined.

(* ===================================================================== *)
(** * Further properties of the code *)
(* ===================================================================== *)

(** ** The iterator-based bitmap append on any bitmap *)

Lemma write_bits_app (flags1 flags2 : list bool) (bits : list Z) (i : Z) :
  write_bits bits i (flags1 ++ flags2)
  = write_bits (write_bits bits i flags1) (i + Z.of_nat (List.length flags1)) flags2.
Proof.
  revert bits i. induction flags1 as [| v flags1 IH]; intros bits i.
  - simpl. rewrite Z.add_0_r. reflexivity.
  - change ((v :: flags1) ++ flags2) with (v :: (flags1 ++ flags2)).
    cbn [write_bits]. rewrite IH. f_equal.
    change (List.length (v :: flags1)) with (S (List.length flags1)). lia.
Qed.

(** X1: the iterator-based [UnsafeAppendToBitmap(begin, end)] needs no
    clean bitmap: on a builder whose bitmap holds the byte the function
    reads first and has room for the flags, whatever the bytes of the
    bitmap hold, the bits at the positions [length .. length + n) become
    the flags (a set bit for valid, a cleared bit for null), every other
    bit and the size of the bitmap stay as they were, the null count grows
    by the number of nulls and the length by [n]. *)
Theorem range_append_records_flags (flags : list bool) (b : ArrayBuilder.t) :
  0 <= length_ b ->
  length_ b < 8 * Z.of_nat (List.length (null_bitmap_data_ b)) ->
  length_ b + Z.of_nat (List.length flags)
    <= 8 * Z.of_nat (List.length (null_bitmap_data_ b)) ->
  length_ (UnsafeAppendToBitmap_range flags b)
    = length_ b + Z.of_nat (List.length flags) /\
  null_count_ (UnsafeAppendToBitmap_range flags b)
    = null_count_ b + count_invalid flags /\
  capacity_ (UnsafeAppendToBitmap_range flags b) = capacity_ b /\
  List.length (null_bitmap_data_ (UnsafeAppendToBitmap_range flags b))
    = List.length (null_bitmap_data_ b) /\
  (forall k v, flags !! k = Some v ->
     BitUtil.GetBit (null_bitmap_data_ (UnsafeAppendToBitmap_range flags b))
       (length_ b + Z.of_nat k) = v) /\
  (forall j, 0 <= j ->
     j < length_ b \/ length_ b + Z.of_nat (List.length flags) <= j ->
     BitUtil.GetBit (null_bitmap_data_ (UnsafeAppendToBitmap_range flags b)) j
     = BitUtil.GetBit (null_bitmap_data_ b) j).
Proof.
  intros Hlen Hfirst Hroom.
  rewrite UnsafeAppendToBitmap_range_write_bits by assumption. simpl.
  split; [reflexivity |]. split; [reflexivity |]. split; [reflexivity |].
  split; [apply length_write_bits |]. split.
  - intros k v Hk. apply GetBit_write_bits_inside; assumption.
  - intros j Hj Hout. apply GetBit_write_bits_outside; assumption.
Qed.

Lemma range_append_records_flags_witness :
  null_bitmap_data_
    (UnsafeAppendToBitmap_range [false; true; false; false; false; false; true]
       {| pool_ := mkPool 64 170; null_bitmap_data_ := [255; 255];
          null_count_ := 0; length_ := 3; capacity_ := 16 |})
    = [23; 254] /\
  BitUtil.GetBit
    (null_bitmap_data_
       (UnsafeAppendToBitmap_range [false; true; false; false; false; false; true]
          {| pool_ := mkPool 64 170; null_bitmap_data_ := [255; 255];
             null_count_ := 0; length_ := 3; capacity_ := 16 |}))
    8 = false /\
  null_count_
    (UnsafeAppendToBitmap_range [false; true; false; false; false; false; true]
       {| pool_ := mkPool 64 170; null_bitmap_data_ := [255; 255];
          null_count_ := 0; length_ := 3; capacity_ := 16 |})
    = 5.
Proof.
  destruct (range_append_records_flags
              [false; true; false; false; false; false; true]
              {| pool_ := mkPool 64 170; null_bitmap_data_ := [255; 255];
                 null_count_ := 0; length_ := 3; capacity_ := 16 |})
    as (_ & Hnull & _ & _ & Hin & _); [simpl; lia | simpl; lia | simpl; lia |].
  split; [reflexivity |]. split; [| exact Hnull].
  exact (Hin 5%nat false eq_refl).
Defined.

(** X2: an empty range is a no-op: on a builder whose bitmap holds the
    byte of the next element, which the function reads and, when the
    length is not a multiple of 8, writes back, [UnsafeAppendToBitmap(begin,
    begin)] leaves every member of the builder as it was. *)
Theorem range_append_empty (b : ArrayBuilder.t) :
  0 <= length_ b ->
  length_ b < 8 * Z.of_nat (List.length (null_bitmap_data_ b)) ->
  UnsafeAppendToBitmap_range [] b = b.
Proof.
  intros _ _. unfold UnsafeAppendToBitmap_range. simpl fold_left. cbn [bit_offset byte_offset bitset c_bitmap c_null_count].
  assert (Hbits : <[Z.to_nat (Z.quot (length_ b) 8) :=
                      BitUtil.at_ (null_bitmap_data_ b) (Z.quot (length_ b) 8)]>
                    (null_bitmap_data_ b) = null_bitmap_data_ b).
  { apply list_insert_id'. intros Hlt. unfold BitUtil.at_.
    destruct (lookup_lt_is_Some_2 _ _ Hlt) as [x Hx]. rewrite Hx. reflexivity. }
  destruct b as [pool bits nulls len cap]. simpl in *.
  rewrite Z.add_0_r. f_equal.
  destruct (Z.rem len 8 =? 0); simpl; [reflexivity | exact Hbits].
Qed.

Lemma range_append_empty_witness :
  UnsafeAppendToBitmap_range []
    {| pool_ := mkPool 64 170; null_bitmap_data_ := [255; 170];
       null_count_ := 0; length_ := 11; capacity_ := 16 |}
  = {| pool_ := mkPool 64 170; null_bitmap_data_ := [255; 170];
       null_count_ := 0; length_ := 11; capacity_ := 16 |}.
Proof. apply range_append_empty; simpl; lia. Defined.

(** X3: appending a range in two parts is appending it at once: on a
    builder with room for both, whose bitmap holds the byte each of the
    calls reads first, [UnsafeAppendToBitmap] over the flags
    [flags1 ++ flags2] gives the very builder that the append of [flags1]
    followed by the append of [flags2] gives. *)
Theorem range_append_app (flags1 flags2 : list bool) (b : ArrayBuilder.t) :
  0 <= length_ b ->
  length_ b + Z.of_nat (List.length flags1)
    < 8 * Z.of_nat (List.length (null_bitmap_data_ b)) ->
  length_ b + Z.of_nat (List.length flags1) + Z.of_nat (List.length flags2)
    <= 8 * Z.of_nat (List.length (null_bitmap_data_ b)) ->
  UnsafeAppendToBitmap_range (flags1 ++ flags2) b
  = UnsafeAppendToBitmap_range flags2 (UnsafeAppendToBitmap_range flags1 b).
Proof.
  intros Hlen Hsecond Hroom.
  rewrite (UnsafeAppendToBitmap_range_write_bits (flags1 ++ flags2))
    by (rewrite ?length_app; lia).
  rewrite (UnsafeAppendToBitmap_range_write_bits flags1 b) by lia.
  rewrite UnsafeAppendToBitmap_range_write_bits
    by (simpl; rewrite ?length_write_bits; lia).
  simpl. rewrite write_bits_app, count_invalid_app, length_app.
  f_equal; lia.
Qed.

Lemma range_append_app_witness :
  UnsafeAppendToBitmap_range ([true; false; true] ++ [true; true; false; true; true; true])
    ArrayBuilder_reserved
  = UnsafeAppendToBitmap_range [true; true; false; true; true; true]
      (UnsafeAppendToBitmap_range [true; false; true] ArrayBuilder_reserved) /\
  null_bitmap_data_
    (UnsafeAppendToBitmap_range ([true; false; true] ++ [true; true; false; true; true; true])
       ArrayBuilder_reserved)
  = [221; 1; 0; 0].
Proof.
  split; [| reflexivity].
  apply (range_append_app [true; false; true] [true; true; false; true; true; true]
           ArrayBuilder_reserved); simpl; lia.
Defined.

Lemma ClearBit_clear_bit (bits : list Z) (i : Z) :
  0 <= i ->
  BitUtil.GetBit bits i = false ->
  0 <= BitUtil.at_ bits (Z.quot i 8) < 256 ->
  BitUtil.ClearBit bits i = bits.
Proof.
  intros Hi Hbit Hbyte. unfold BitUtil.ClearBit, BitUtil.GetBit in *.
  assert (Hr : 0 <= Z.rem i 8 < 8)
    by (rewrite Z.rem_mod_nonneg by lia; apply Z.mod_pos_bound; lia).
  set (byte := BitUtil.at_ bits (Z.quot i 8)) in *.
  assert (Hland : Z.land byte (BitUtil.at_ BitUtil.kFlippedBitmask (Z.rem i 8)) = byte).
  { apply Z.bits_inj'. intros n Hn. rewrite Z.land_spec.
    destruct (Z_lt_le_dec n 8) as [Hlt | Hge].
    - rewrite kFlippedBitmask_bits by lia.
      destruct (Z.eqb_spec n (Z.rem i 8)) as [-> | Hne].
      + rewrite Hbit. reflexivity.
      + apply andb_true_r.
    - assert (Hhigh : Z.testbit byte n = false).
      { destruct (Z.eq_dec byte 0) as [-> | Hpos]; [apply Z.testbit_0_l |].
        apply Z.bits_above_log2; [lia |].
        assert (Z.log2 byte < 8) by (apply Z.log2_lt_pow2; lia). lia. }
      rewrite Hhigh. reflexivity. }
  rewrite Hland. apply list_insert_id'. intros Hlt. unfold byte, BitUtil.at_.
  destruct (lookup_lt_is_Some_2 _ _ Hlt) as [x Hx]. rewrite Hx. reflexivity.
Qed.

(** X4: the single-bit append and the iterator-based append of one flag
    differ only in how a null is recorded.  With room for the element, for
    a valid element the two give the same builder; for a null they give
    the same counters, but the single-bit append leaves the bit at index
    [length] as the bitmap held it, while the iterator-based append clears
    it; so, the entries of the bitmap being bytes, the two give the same
    builder for a null exactly when that bit was clear. *)
Theorem single_bit_append_leaves_stale_bit (b : ArrayBuilder.t) :
  0 <= length_ b ->
  length_ b < 8 * Z.of_nat (List.length (null_bitmap_data_ b)) ->
  UnsafeAppendToBitmap_range [true] b = UnsafeAppendToBitmap true b /\
  UnsafeAppendToBitmap_range [false] b
    = set_bitmap (BitUtil.ClearBit (null_bitmap_data_ b) (length_ b))
        (UnsafeAppendToBitmap false b) /\
  null_bitmap_data_ (UnsafeAppendToBitmap false b) = null_bitmap_data_ b /\
  BitUtil.GetBit (null_bitmap_data_ (UnsafeAppendToBitmap false b)) (length_ b)
    = BitUtil.GetBit (null_bitmap_data_ b) (length_ b) /\
  BitUtil.GetBit (null_bitmap_data_ (UnsafeAppendToBitmap_range [false] b)) (length_ b)
    = false /\
  (0 <= BitUtil.at_ (null_bitmap_data_ b) (Z.quot (length_ b) 8) < 256 ->
   (UnsafeAppendToBitmap_range [false] b = UnsafeAppendToBitmap false b
    <-> BitUtil.GetBit (null_bitmap_data_ b) (length_ b) = false)).
Proof.
  intros Hlen Hroom.
  assert (Hstale : BitUtil.GetBit
                     (null_bitmap_data_ (UnsafeAppendToBitmap_range [false] b)) (length_ b)
                   = false).
  { rewrite UnsafeAppendToBitmap_range_write_bits by (simpl; lia).
    change (BitUtil.GetBit (write_bit (null_bitmap_data_ b) (length_ b) false)
              (length_ b) = false).
    rewrite GetBit_write_bit by lia. rewrite Z.eqb_refl. reflexivity. }
  assert (Hsame : UnsafeAppendToBitmap_range [false] b
                  = set_bitmap (BitUtil.ClearBit (null_bitmap_data_ b) (length_ b))
                      (UnsafeAppendToBitmap false b)).
  { rewrite UnsafeAppendToBitmap_range_write_bits by (simpl; lia).
    unfold UnsafeAppendToBitmap, set_length, set_bitmap, set_null_count. simpl.
    f_equal; lia. }
  split; [| split; [exact Hsame | split; [reflexivity | split; [reflexivity |]]]].
  - rewrite UnsafeAppendToBitmap_range_write_bits by (simpl; lia).
    unfold UnsafeAppendToBitmap, set_length, set_bitmap. simpl.
    f_equal; lia.
  - split; [exact Hstale |]. intros Hbyte. split.
    + intros Heq. rewrite Heq in Hstale. exact Hstale.
    + intros Hclear. rewrite Hsame, (ClearBit_clear_bit _ _ Hlen Hclear Hbyte).
      destruct b; reflexivity.
Qed.

Lemma single_bit_append_leaves_stale_bit_witness :
  BitUtil.GetBit
    (null_bitmap_data_
       (UnsafeAppendToBitmap false
          {| pool_ := mkPool 64 170; null_bitmap_data_ := [255; 255];
             null_count_ := 0; length_ := 3; capacity_ := 16 |})) 3 = true /\
  BitUtil.GetBit
    (null_bitmap_data_
       (UnsafeAppendToBitmap_range [false]
          {| pool_ := mkPool 64 170; null_bitmap_data_ := [255; 255];
             null_count_ := 0; length_ := 3; capacity_ := 16 |})) 3 = false.
Proof.
  destruct (single_bit_append_leaves_stale_bit
              {| pool_ := mkPool 64 170; null_bitmap_data_ := [255; 255];
                 null_count_ := 0; length_ := 3; capacity_ := 16 |})
    as (_ & _ & _ & Hstale & Hclear & _); [simpl; lia | simpl; lia |].
  split; [etransitivity; [exact Hstale | reflexivity] | exact Hclear].
Defined.

(** ** Slices of a byte buffer *)

Lemma lookup_slice (l : list Z) (offset n : Z) (k : nat) :
  slice l offset n !! k
  = if decide (k < Z.to_nat n)%nat then l !! (Z.to_nat offset + k)%nat else None.
Proof. unfold slice. rewrite lookup_take, lookup_drop. reflexivity. Qed.

Lemma lookup_store (l w : list Z) (offset : Z) (i : nat) :
  store l offset w !! i
  = if decide ((Z.to_nat offset <= i < Z.to_nat offset + List.length w)%nat
               /\ (i < List.length l)%nat)
    then w !! (i - Z.to_nat offset)%nat else l !! i.
Proof.
  unfold store. case_decide as Hin.
  - apply list_lookup_inserts; lia.
  - destruct (decide (i < Z.to_nat offset)%nat);
      [apply list_lookup_inserts_lt; lia |].
    destruct (decide (Z.to_nat offset + List.length w <= i)%nat);
      [apply list_lookup_inserts_ge; lia |].
    rewrite !lookup_ge_None_2; [reflexivity | lia | rewrite length_inserts; lia].
Qed.

Lemma length_store (l w : list Z) (offset : Z) :
  List.length (store l offset w) = List.length l.
Proof. apply length_inserts. Qed.

Lemma slice_all (w : list Z) : slice w 0 (Z.of_nat (List.length w)) = w.
Proof. unfold slice. simpl. apply take_ge. lia. Qed.

Lemma slice_store_inner (l w : list Z) (offset o n : Z) :
  0 <= offset -> 0 <= o -> 0 <= n ->
  o + n <= Z.of_nat (List.length w) ->
  offset + Z.of_nat (List.length w) <= Z.of_nat (List.length l) ->
  slice (store l offset w) (offset + o) n = slice w o n.
Proof.
  intros Hoff Ho Hn Hw Hl. apply list_eq. intros k.
  rewrite !lookup_slice. case_decide; [| reflexivity].
  rewrite lookup_store. rewrite decide_True by lia. f_equal. lia.
Qed.

Lemma slice_store_outside (l w : list Z) (offset offset' n : Z) :
  0 <= offset -> 0 <= offset' -> 0 <= n ->
  offset' + n <= offset \/ offset + Z.of_nat (List.length w) <= offset' ->
  slice (store l offset w) offset' n = slice l offset' n.
Proof.
  intros Hoff Hoff' Hn Hout. apply list_eq. intros k.
  rewrite !lookup_slice. case_decide; [| reflexivity].
  rewrite lookup_store. rewrite decide_False by lia. reflexivity.
Qed.

Lemma slice_ext_at (l1 l2 : list Z) (offset n : Z) :
  0 <= offset -> 0 <= n ->
  offset + n <= Z.of_nat (List.length l1) ->
  offset + n <= Z.of_nat (List.length l2) ->
  (forall k, offset <= k < offset + n -> BitUtil.at_ l1 k = BitUtil.at_ l2 k) ->
  slice l1 offset n = slice l2 offset n.
Proof.
  intros Hoff Hn H1 H2 Hat. apply list_eq. intros k.
  rewrite !lookup_slice. case_decide; [| reflexivity].
  specialize (Hat (offset + Z.of_nat k)). unfold BitUtil.at_ in Hat.
  replace (Z.to_nat (offset + Z.of_nat k)) with (Z.to_nat offset + k)%nat in Hat by lia.
  destruct (lookup_lt_is_Some_2 l1 (Z.to_nat offset + k)) as [x1 Hx1]; [lia |].
  destruct (lookup_lt_is_Some_2 l2 (Z.to_nat offset + k)) as [x2 Hx2]; [lia |].
  rewrite Hx1, Hx2 in *. simpl in Hat. f_equal. apply Hat. lia.
Qed.

(** ** NumericBuilder: a slot written and read back *)

Lemma primitive_slot_written (b1 b' : PrimitiveBuilder.t) (w : list Z) (v : bool) :
  primitive_consistent b1 ->
  length_ (PrimitiveBuilder.base_ b1) + 1 <= capacity_ (PrimitiveBuilder.base_ b1) ->
  Z.of_nat (List.length w) = PrimitiveBuilder.sizeof_value_type b1 ->
  PrimitiveBuilder.base_ b' = UnsafeAppendToBitmap v (PrimitiveBuilder.base_ b1) ->
  PrimitiveBuilder.sizeof_value_type b' = PrimitiveBuilder.sizeof_value_type b1 ->
  PrimitiveBuilder.raw_data_ b'
    = store (PrimitiveBuilder.raw_data_ b1)
        (length_ (PrimitiveBuilder.base_ b1) * PrimitiveBuilder.sizeof_value_type b1) w ->
  primitive_consistent b' /\
  length_ (PrimitiveBuilder.base_ b') = length_ (PrimitiveBuilder.base_ b1) + 1 /\
  null_count_ (PrimitiveBuilder.base_ b')
    = null_count_ (PrimitiveBuilder.base_ b1) + count_invalid [v] /\
  NumericBuilder.GetValue (length_ (PrimitiveBuilder.base_ b1)) b' = w /\
  BitUtil.GetBit (null_bitmap_data_ (PrimitiveBuilder.base_ b'))
    (length_ (PrimitiveBuilder.base_ b1)) = v /\
  (forall i, 0 <= i < length_ (PrimitiveBuilder.base_ b1) ->
     NumericBuilder.GetValue i b' = NumericBuilder.GetValue i b1 /\
     BitUtil.GetBit (null_bitmap_data_ (PrimitiveBuilder.base_ b')) i
     = BitUtil.GetBit (null_bitmap_data_ (PrimitiveBuilder.base_ b1)) i).
Proof.
  intros (Hc1 & Hsz1 & Hd1) Hroom Hw Hbase Hsz Hraw.
  pose proof Hc1 as (Hord1 & _).
  destruct (bitmap_step_consistent (AppendBit v) (PrimitiveBuilder.base_ b1) Hc1)
    as (Hc2 & Hl2 & Hn2 & Hcap2 & Hin2 & Hlow2); [simpl; lia |].
  change (bitmap_step (PrimitiveBuilder.base_ b1) (AppendBit v))
    with (UnsafeAppendToBitmap v (PrimitiveBuilder.base_ b1)) in *.
  change (bitmap_flags (AppendBit v)) with [v] in *.
  change (Z.of_nat (List.length [v])) with 1 in Hl2.
  rewrite <- Hbase in *.
  assert (Hfit : length_ (PrimitiveBuilder.base_ b1) * PrimitiveBuilder.sizeof_value_type b1
                 + Z.of_nat (List.length w)
                 <= Z.of_nat (List.length (PrimitiveBuilder.raw_data_ b1))) by nia.
  split; [split; [exact Hc2 | split; [lia |]] |].
  { rewrite Hraw, length_store, Hcap2, Hsz. exact Hd1. }
  split; [exact Hl2 |]. split; [exact Hn2 |]. split; [| split].
  - unfold NumericBuilder.GetValue. rewrite Hraw, Hsz, <- Hw.
    pose proof (slice_store_inner (PrimitiveBuilder.raw_data_ b1) w
                  (length_ (PrimitiveBuilder.base_ b1) * Z.of_nat (List.length w))
                  0 (Z.of_nat (List.length w))) as Hs.
    rewrite Z.add_0_r in Hs. rewrite Hs by nia. apply slice_all.
  - specialize (Hin2 0%nat v eq_refl). rewrite Z.add_0_r in Hin2. exact Hin2.
  - intros i Hi. split; [| apply Hlow2; exact Hi].
    unfold NumericBuilder.GetValue. rewrite Hraw, Hsz.
    apply slice_store_outside; nia.
Qed.

Lemma NumericBuilder_base_UnsafeAppend (val : list Z) (b : PrimitiveBuilder.t) :
  PrimitiveBuilder.base_ (NumericBuilder.UnsafeAppend val b)
  = UnsafeAppendToBitmap true (PrimitiveBuilder.base_ b).
Proof. reflexivity. Qed.

(** X5: [NumericBuilder<T>::UnsafeAppend(val)] on a consistent builder
    with a free slot stores the value where [GetValue] finds it: element
    [length] of the data reads back as [val] and its validity bit is set,
    the length grows by one, the null count does not change, and every
    element and validity bit below stays as it was. *)
Theorem NumericBuilder_UnsafeAppend_GetValue (val : list Z) (b : PrimitiveBuilder.t) :
  primitive_consistent b ->
  length (PrimitiveBuilder.base_ b) < capacity (PrimitiveBuilder.base_ b) ->
  Z.of_nat (List.length val) = PrimitiveBuilder.sizeof_value_type b ->
  NumericBuilder.GetValue (length (PrimitiveBuilder.base_ b))
    (NumericBuilder.UnsafeAppend val b) = val /\
  BitUtil.GetBit
    (null_bitmap_data_ (PrimitiveBuilder.base_ (NumericBuilder.UnsafeAppend val b)))
    (length (PrimitiveBuilder.base_ b)) = true /\
  length (PrimitiveBuilder.base_ (NumericBuilder.UnsafeAppend val b))
    = length (PrimitiveBuilder.base_ b) + 1 /\
  null_count (PrimitiveBuilder.base_ (NumericBuilder.UnsafeAppend val b))
    = null_count (PrimitiveBuilder.base_ b) /\
  (forall i, 0 <= i < length (PrimitiveBuilder.base_ b) ->
     NumericBuilder.GetValue i (NumericBuilder.UnsafeAppend val b)
       = NumericBuilder.GetValue i b /\
     BitUtil.GetBit
       (null_bitmap_data_ (PrimitiveBuilder.base_ (NumericBuilder.UnsafeAppend val b))) i
     = BitUtil.GetBit (null_bitmap_data_ (PrimitiveBuilder.base_ b)) i) /\
  primitive_consistent (NumericBuilder.UnsafeAppend val b).
Proof.
  unfold length, capacity, null_count. intros Hcons Hroom Hval.
  destruct (primitive_slot_written b (NumericBuilder.UnsafeAppend val b) val true)
    as (Hc & Hl & Hn & Hget & Hbit & Hlow);
    try assumption; try reflexivity; [lia | |].
  { simpl. rewrite take_ge by lia. reflexivity. }
  simpl count_invalid in Hn.
  split; [exact Hget |]. split; [exact Hbit |]. split; [exact Hl |].
  split; [lia |]. split; [exact Hlow | exact Hc].
Qed.

Lemma Int32Builder_reserved_consistent : primitive_consistent Int32Builder_reserved.
Proof.
  destruct (PrimitiveBuilder_Reserve 1 (PrimitiveBuilder.new 4 (mkPool 4096 170))
              Int32Builder_reserved OK) as [_ Hok].
  - reflexivity.
  - apply primitive_consistent_new. lia.
  - apply Hok. reflexivity.
Qed.

Lemma NumericBuilder_UnsafeAppend_GetValue_witness :
  NumericBuilder.GetValue 0
    (NumericBuilder.UnsafeAppend [7; 1; 0; 0] Int32Builder_reserved) = [7; 1; 0; 0] /\
  BitUtil.GetBit
    (null_bitmap_data_
       (PrimitiveBuilder.base_
          (NumericBuilder.UnsafeAppend [7; 1; 0; 0] Int32Builder_reserved))) 0 = true /\
  length
    (PrimitiveBuilder.base_
       (NumericBuilder.UnsafeAppend [7; 1; 0; 0] Int32Builder_reserved)) = 1.
Proof.
  destruct (NumericBuilder_UnsafeAppend_GetValue [7; 1; 0; 0] Int32Builder_reserved)
    as (Hget & Hbit & Hlen & _).
  - apply Int32Builder_reserved_consistent.
  - reflexivity.
  - reflexivity.
  - split; [exact Hget |]. split; [exact Hbit | exact Hlen].
Defined.

(** ** NumericBuilder: runs of checked appends *)

Lemma PrimitiveBuilder_Reserve_GetValue (n : Z) (b b1 : PrimitiveBuilder.t) :
  Reserve n b = (OK, b1) -> primitive_consistent b ->
  forall i, 0 <= i < length_ (PrimitiveBuilder.base_ b) ->
    NumericBuilder.GetValue i b1 = NumericBuilder.GetValue i b.
Proof.
  intros HR Hcons i Hi.
  destruct (PrimitiveBuilder_Reserve _ _ _ _ HR Hcons) as [_ Hok].
  destruct (Hok eq_refl) as ((Hc1 & Hsz1 & Hd1) & Hl & _ & Hsz & Hroom & _ & Hlow).
  destruct Hcons as (Hc & Hsz0 & Hd). pose proof Hc as (Hord & _).
  pose proof Hc1 as (Hord1 & _).
  unfold NumericBuilder.GetValue. rewrite Hsz.
  apply slice_ext_at; try nia.
  intros k Hk. apply Hlow. nia.
Qed.

Lemma NumericBuilder_step_OK (o : NumericBuilder.op) (b b' : PrimitiveBuilder.t) :
  primitive_consistent b ->
  NumericBuilder.well_sized (PrimitiveBuilder.sizeof_value_type b) o ->
  NumericBuilder.step o b = (OK, b') ->
  primitive_consistent b' /\
  PrimitiveBuilder.sizeof_value_type b' = PrimitiveBuilder.sizeof_value_type b /\
  length_ (PrimitiveBuilder.base_ b') = length_ (PrimitiveBuilder.base_ b) + 1 /\
  null_count_ (PrimitiveBuilder.base_ b')
    = null_count_ (PrimitiveBuilder.base_ b) + count_invalid [NumericBuilder.is_valid o] /\
  NumericBuilder.GetValue (length_ (PrimitiveBuilder.base_ b)) b'
    = NumericBuilder.stored (PrimitiveBuilder.sizeof_value_type b) o /\
  BitUtil.GetBit (null_bitmap_data_ (PrimitiveBuilder.base_ b'))
    (length_ (PrimitiveBuilder.base_ b)) = NumericBuilder.is_valid o /\
  (forall i, 0 <= i < length_ (PrimitiveBuilder.base_ b) ->
     NumericBuilder.GetValue i b' = NumericBuilder.GetValue i b /\
     BitUtil.GetBit (null_bitmap_data_ (PrimitiveBuilder.base_ b')) i
     = BitUtil.GetBit (null_bitmap_data_ (PrimitiveBuilder.base_ b)) i).
Proof.
  intros Hcons Hsized Hstep.
  pose proof Hcons as (_ & Hsz0 & _).
  assert (Hshape : exists b1,
            Reserve 1 b = (OK, b1) /\
            PrimitiveBuilder.base_ b'
              = UnsafeAppendToBitmap (NumericBuilder.is_valid o) (PrimitiveBuilder.base_ b1) /\
            PrimitiveBuilder.sizeof_value_type b' = PrimitiveBuilder.sizeof_value_type b1 /\
            PrimitiveBuilder.raw_data_ b'
              = store (PrimitiveBuilder.raw_data_ b1)
                  (length_ (PrimitiveBuilder.base_ b1)
                   * PrimitiveBuilder.sizeof_value_type b1)
                  (take (Z.to_nat (PrimitiveBuilder.sizeof_value_type b1))
                     (NumericBuilder.stored (PrimitiveBuilder.sizeof_value_type b1) o))).
  { destruct o as [val |]; simpl in Hstep;
      unfold NumericBuilder.Append, PrimitiveBuilder.AppendNull, RETURN_NOT_OK in Hstep;
      destruct (Reserve 1 b) as [s1 b1]; destruct s1; try discriminate;
      injection Hstep as <-; exists b1.
    - repeat split.
    - split; [reflexivity |]. split; [reflexivity |]. split; [reflexivity |].
      simpl. rewrite take_ge by (rewrite length_replicate; lia). reflexivity. }
  destruct Hshape as (b1 & HR & Hbase & Hsz' & Hraw).
  destruct (PrimitiveBuilder_Reserve _ _ _ _ HR Hcons) as [_ Hok].
  destruct (Hok eq_refl) as (Hc1 & Hl & Hn & Hsz & Hroom & Hbits & _).
  assert (Hw : Z.of_nat (List.length
                           (NumericBuilder.stored (PrimitiveBuilder.sizeof_value_type b1) o))
               = PrimitiveBuilder.sizeof_value_type b1).
  { rewrite Hsz. destruct o as [val |]; simpl in *; [exact Hsized |].
    rewrite length_replicate. lia. }
  rewrite take_ge in Hraw by lia.
  destruct (primitive_slot_written b1 b'
              (NumericBuilder.stored (PrimitiveBuilder.sizeof_value_type b1) o)
              (NumericBuilder.is_valid o) Hc1)
    as (Hc' & Hl' & Hn' & Hget & Hbit & Hlow); try assumption; [lia |].
  rewrite Hl in *. rewrite Hsz in *. rewrite Hn in *.
  split; [exact Hc' |]. split; [congruence |]. split; [exact Hl' |].
  split; [exact Hn' |]. split; [exact Hget |]. split; [exact Hbit |].
  intros i Hi. destruct (Hlow i Hi) as [Hv Hb].
  rewrite Hv, Hb. split.
  - apply (PrimitiveBuilder_Reserve_GetValue 1 b b1 HR Hcons i Hi).
  - apply Hbits. lia.
Qed.

(** X6: a run of checked scalar appends to a [NumericBuilder<T>] reads
    back as it was appended.  When every [Append(val)] and [AppendNull()]
    of the run returns OK, reallocations included, then for every position
    [k] of the run [GetValue] at index [length + k] is the value appended
    there, or [sizeof(T)] zero bytes for a null, and the validity bit is
    set exactly for the values; the length has grown by the number of
    appends and the null count by the number of nulls, and the elements
    that were there before are untouched. *)
Theorem NumericBuilder_run_reads_back
        (ops : list NumericBuilder.op) (b b' : PrimitiveBuilder.t) :
  primitive_consistent b ->
  Forall (NumericBuilder.well_sized (PrimitiveBuilder.sizeof_value_type b)) ops ->
  NumericBuilder.run ops b = (OK, b') ->
  length (PrimitiveBuilder.base_ b')
    = length (PrimitiveBuilder.base_ b) + Z.of_nat (List.length ops) /\
  null_count (PrimitiveBuilder.base_ b')
    = null_count (PrimitiveBuilder.base_ b)
      + count_invalid (List.map NumericBuilder.is_valid ops) /\
  (forall k o, ops !! k = Some o ->
     NumericBuilder.GetValue (length (PrimitiveBuilder.base_ b) + Z.of_nat k) b'
       = NumericBuilder.stored (PrimitiveBuilder.sizeof_value_type b) o /\
     BitUtil.GetBit (null_bitmap_data_ (PrimitiveBuilder.base_ b'))
       (length (PrimitiveBuilder.base_ b) + Z.of_nat k) = NumericBuilder.is_valid o) /\
  (forall i, 0 <= i < length (PrimitiveBuilder.base_ b) ->
     NumericBuilder.GetValue i b' = NumericBuilder.GetValue i b /\
     BitUtil.GetBit (null_bitmap_data_ (PrimitiveBuilder.base_ b')) i
     = BitUtil.GetBit (null_bitmap_data_ (PrimitiveBuilder.base_ b)) i) /\
  primitive_consistent b'.
Proof.
  unfold length, null_count.
  revert b. induction ops as [| o ops IH]; intros b Hcons Hsized Hrun.
  - injection Hrun as <-. simpl.
    split; [lia |]. split; [lia |]. split; [intros k o Hk; discriminate |].
    split; [intros i Hi; split; reflexivity | exact Hcons].
  - apply Forall_cons in Hsized as [Hsz_o Hsized].
    simpl in Hrun. unfold RETURN_NOT_OK in Hrun.
    destruct (NumericBuilder.step o b) as [s1 b1] eqn:Hstep.
    destruct s1; try discriminate.
    destruct (NumericBuilder_step_OK o b b1 Hcons Hsz_o Hstep)
      as (Hc1 & Hsz1 & Hl1 & Hn1 & Hget1 & Hbit1 & Hlow1).
    rewrite <- Hsz1 in Hsized.
    destruct (IH b1 Hc1 Hsized Hrun) as (Hl & Hn & Hin & Hlow & Hc).
    pose proof Hcons as ((Hord & _) & _).
    change (List.length (o :: ops)) with (S (List.length ops)).
    simpl List.map. cbn [count_invalid]. simpl count_invalid in Hn1.
    split; [lia |]. split; [lia |]. split; [| split; [| exact Hc]].
    + intros [| k] o' Hk.
      * injection Hk as <-. simpl Z.of_nat. rewrite Z.add_0_r.
        destruct (Hlow (length_ (PrimitiveBuilder.base_ b))) as [-> ->]; [lia |].
        split; assumption.
      * simpl in Hk. destruct (Hin k o' Hk) as [H1 H2].
        rewrite Hl1, Hsz1 in *.
        replace (length_ (PrimitiveBuilder.base_ b) + Z.of_nat (S k))
          with (length_ (PrimitiveBuilder.base_ b) + 1 + Z.of_nat k) by lia.
        split; assumption.
    + intros i Hi. destruct (Hlow i) as [-> ->]; [lia |]. apply Hlow1, Hi.
Qed.

Lemma run_OK_pair {B : Type} (r : Status * B) : fst r = OK -> r = (OK, snd r).
Proof. destruct r as [s b]. simpl. intros ->. reflexivity. Qed.

Lemma NumericBuilder_run_reads_back_witness :
  fst (NumericBuilder.run Int32_scenario (PrimitiveBuilder.new 4 (mkPool 4096 170))) = OK /\
  length
    (PrimitiveBuilder.base_
       (snd (NumericBuilder.run Int32_scenario (PrimitiveBuilder.new 4 (mkPool 4096 170)))))
    = 4 /\
  null_count
    (PrimitiveBuilder.base_
       (snd (NumericBuilder.run Int32_scenario (PrimitiveBuilder.new 4 (mkPool 4096 170)))))
    = 1 /\
  NumericBuilder.GetValue 2
    (snd (NumericBuilder.run Int32_scenario (PrimitiveBuilder.new 4 (mkPool 4096 170))))
    = [0; 0; 0; 0] /\
  NumericBuilder.GetValue 3
    (snd (NumericBuilder.run Int32_scenario (PrimitiveBuilder.new 4 (mkPool 4096 170))))
    = [4; 0; 0; 0] /\
  take 1
    (null_bitmap_data_
       (PrimitiveBuilder.base_
          (snd (NumericBuilder.run Int32_scenario
                  (PrimitiveBuilder.new 4 (mkPool 4096 170))))))
    = [11].
Proof.
  destruct (NumericBuilder_run_reads_back Int32_scenario
              (PrimitiveBuilder.new 4 (mkPool 4096 170))
              (snd (NumericBuilder.run Int32_scenario
                      (PrimitiveBuilder.new 4 (mkPool 4096 170)))))
    as (Hl & Hn & Hin & _).
  - apply primitive_consistent_new. lia.
  - repeat constructor.
  - apply run_OK_pair. reflexivity.
  - split; [reflexivity |]. split; [exact Hl |]. split; [exact Hn |].
    split; [exact (proj1 (Hin 2%nat NumericBuilder.OpAppendNull eq_refl)) |].
    split; [exact (proj1 (Hin 3%nat (NumericBuilder.OpAppend [4; 0; 0; 0]) eq_refl)) |].
    reflexivity.
Defined.

(** ** NumericBuilder: the bulk append with a validity iterator *)

Lemma map_take_sized (m : Z) (values : list (list Z)) :
  Forall (fun v => Z.of_nat (List.length v) = m) values ->
  List.map (take (Z.to_nat m)) values = values.
Proof.
  induction 1 as [| v values Hv _ IH]; simpl; [reflexivity |].
  rewrite IH, take_ge by lia. reflexivity.
Qed.

Lemma length_concat_sized (m : Z) (values : list (list Z)) :
  Forall (fun v => Z.of_nat (List.length v) = m) values ->
  Z.of_nat (List.length (List.concat values)) = Z.of_nat (List.length values) * m.
Proof.
  induction 1 as [| v values Hv _ IH]; simpl; [reflexivity |].
  rewrite length_app. lia.
Qed.

Lemma slice_concat_sized (m : Z) (values : list (list Z)) (k : nat) (v : list Z) :
  0 <= m ->
  Forall (fun v => Z.of_nat (List.length v) = m) values ->
  values !! k = Some v ->
  slice (List.concat values) (Z.of_nat k * m) m = v.
Proof.
  intros Hm Hall. revert k. induction Hall as [| v0 values Hv0 _ IH]; intros k Hk;
    [discriminate |].
  destruct k as [| k]; simpl in Hk.
  - injection Hk as <-. unfold slice. simpl.
    apply take_app_length'. lia.
  - unfold slice. simpl List.concat.
    replace (Z.to_nat (Z.of_nat (S k) * m))
      with (List.length v0 + Z.to_nat (Z.of_nat k * m))%nat by nia.
    rewrite drop_app_add. apply (IH k Hk).
Qed.

(** X7: the bulk [AppendValues(values_begin, values_end, valid_begin)] of
    [PrimitiveBuilder<T>] with a validity iterator, when it returns OK,
    has stored every value of the range, those flagged null included, at
    the indices [length ..], has recorded the first [n] flags of the
    validity iterator as validity bits, and has added [n] to the length
    and the number of flags that say null to the null count; what was in
    the builder before is untouched.  The range of values is not empty, so
    that the byte of the bitmap the append reads first has been reserved. *)
Theorem NumericBuilder_AppendValues_stores
        (values : list (list Z)) (valid : list bool) (b b' : PrimitiveBuilder.t) :
  primitive_consistent b ->
  values <> [] ->
  Forall (fun v => Z.of_nat (List.length v) = PrimitiveBuilder.sizeof_value_type b) values ->
  (List.length values <= List.length valid)%nat ->
  NumericBuilder.AppendValues values valid b = (OK, b') ->
  length (PrimitiveBuilder.base_ b')
    = length (PrimitiveBuilder.base_ b) + Z.of_nat (List.length values) /\
  null_count (PrimitiveBuilder.base_ b')
    = null_count (PrimitiveBuilder.base_ b)
      + count_invalid (take (List.length values) valid) /\
  (forall k v, values !! k = Some v ->
     NumericBuilder.GetValue (length (PrimitiveBuilder.base_ b) + Z.of_nat k) b' = v) /\
  (forall k f, (k < List.length values)%nat -> valid !! k = Some f ->
     BitUtil.GetBit (null_bitmap_data_ (PrimitiveBuilder.base_ b'))
       (length (PrimitiveBuilder.base_ b) + Z.of_nat k) = f) /\
  (forall i, 0 <= i < length (PrimitiveBuilder.base_ b) ->
     NumericBuilder.GetValue i b' = NumericBuilder.GetValue i b /\
     BitUtil.GetBit (null_bitmap_data_ (PrimitiveBuilder.base_ b')) i
     = BitUtil.GetBit (null_bitmap_data_ (PrimitiveBuilder.base_ b)) i) /\
  primitive_consistent b'.
Proof.
  unfold length, null_count. intros Hcons _ Hsized Hvalid.
  unfold NumericBuilder.AppendValues, RETURN_NOT_OK.
  destruct (Reserve (Z.of_nat (List.length values)) b) as [s1 b1] eqn:HR.
  destruct s1; try discriminate. intros [= <-].
  destruct (PrimitiveBuilder_Reserve _ _ _ _ HR Hcons) as [_ Hok].
  destruct (Hok eq_refl) as (Hc1 & Hl & Hn & Hsz & Hroom & Hbits & _).
  pose proof (PrimitiveBuilder_Reserve_GetValue _ _ _ HR Hcons) as Hvals.
  pose proof Hc1 as (Hb1 & Hsz1 & Hd1). pose proof Hb1 as (Hord1 & _).
  rewrite Nat2Z.id. rewrite <- Hsz in Hsized. rewrite (map_take_sized _ _ Hsized).
  set (flags := take (List.length values) valid).
  assert (Hflags : List.length flags = List.length values)
    by (unfold flags; rewrite length_take; lia).
  destruct (bitmap_step_consistent (AppendRange flags) (PrimitiveBuilder.base_ b1) Hb1)
    as (Hc2 & Hl2 & Hn2 & Hcap2 & Hin2 & Hlow2); [simpl; lia |].
  change (bitmap_step (PrimitiveBuilder.base_ b1) (AppendRange flags))
    with (UnsafeAppendToBitmap_range flags (PrimitiveBuilder.base_ b1)) in *.
  change (bitmap_flags (AppendRange flags)) with flags in *.
  pose proof (length_concat_sized _ _ Hsized) as Hlen.
  cbn [PrimitiveBuilder.base_ PrimitiveBuilder.set_base PrimitiveBuilder.set_raw_data
       PrimitiveBuilder.raw_data_ PrimitiveBuilder.sizeof_value_type].
  rewrite Hl2, Hn2, Hflags, Hl, Hn.
  split; [reflexivity |]. split; [reflexivity |].
  split; [| split; [| split]].
  - intros k v Hk. unfold NumericBuilder.GetValue.
    cbn [PrimitiveBuilder.base_ PrimitiveBuilder.set_base PrimitiveBuilder.set_raw_data
         PrimitiveBuilder.raw_data_ PrimitiveBuilder.sizeof_value_type].
    pose proof (lookup_lt_Some _ _ _ Hk) as Hklt.
    replace ((length_ (PrimitiveBuilder.base_ b) + Z.of_nat k)
             * PrimitiveBuilder.sizeof_value_type b1)
      with (length_ (PrimitiveBuilder.base_ b) * PrimitiveBuilder.sizeof_value_type b1
            + Z.of_nat k * PrimitiveBuilder.sizeof_value_type b1) by ring.
    rewrite slice_store_inner by nia.
    apply slice_concat_sized; [lia | exact Hsized | exact Hk].
  - intros k f Hklt Hk. rewrite <- Hl. apply Hin2.
    unfold flags. rewrite lookup_take_lt by lia. exact Hk.
  - intros i Hi. split.
    + rewrite <- (Hvals i Hi). unfold NumericBuilder.GetValue.
      cbn [PrimitiveBuilder.base_ PrimitiveBuilder.set_base PrimitiveBuilder.set_raw_data
           PrimitiveBuilder.raw_data_ PrimitiveBuilder.sizeof_value_type].
      apply slice_store_outside; nia.
    + rewrite Hlow2 by lia. apply Hbits. lia.
  - split; [exact Hc2 |]. split; [exact Hsz1 |].
    cbn [PrimitiveBuilder.base_ PrimitiveBuilder.set_base PrimitiveBuilder.set_raw_data
         PrimitiveBuilder.raw_data_ PrimitiveBuilder.sizeof_value_type].
    rewrite length_store, Hcap2. exact Hd1.
Qed.

Lemma NumericBuilder_AppendValues_stores_witness :
  fst (NumericBuilder.AppendValues [[1; 0]; [9; 9]; [3; 0]] [true; false; true; true]
         (PrimitiveBuilder.new 2 (mkPool 4096 170))) = OK /\
  NumericBuilder.GetValue 1
    (snd (NumericBuilder.AppendValues [[1; 0]; [9; 9]; [3; 0]] [true; false; true; true]
            (PrimitiveBuilder.new 2 (mkPool 4096 170)))) = [9; 9] /\
  BitUtil.GetBit
    (null_bitmap_data_
       (PrimitiveBuilder.base_
          (snd (NumericBuilder.AppendValues [[1; 0]; [9; 9]; [3; 0]]
                  [true; false; true; true]
                  (PrimitiveBuilder.new 2 (mkPool 4096 170)))))) 1 = false /\
  null_count
    (PrimitiveBuilder.base_
       (snd (NumericBuilder.AppendValues [[1; 0]; [9; 9]; [3; 0]] [true; false; true; true]
               (PrimitiveBuilder.new 2 (mkPool 4096 170))))) = 1.
Proof.
  destruct (NumericBuilder_AppendValues_stores
              [[1; 0]; [9; 9]; [3; 0]] [true; false; true; true]
              (PrimitiveBuilder.new 2 (mkPool 4096 170))
              (snd (NumericBuilder.AppendValues [[1; 0]; [9; 9]; [3; 0]]
                      [true; false; true; true]
                      (PrimitiveBuilder.new 2 (mkPool 4096 170)))))
    as (_ & Hnull & Hval & Hbit & _).
  - apply primitive_consistent_new. lia.
  - discriminate.
  - repeat constructor.
  - simpl. lia.
  - apply run_OK_pair. reflexivity.
  - split; [reflexivity |]. split; [exact (Hval 1%nat [9; 9] eq_refl) |].
    split; [| exact Hnull].
    apply (Hbit 1%nat false); [simpl; lia | reflexivity].
Defined.

(** ** BooleanBuilder: runs of checked appends *)

Lemma BooleanBuilder_raw_UnsafeAppend (val : bool) (b : BooleanBuilder.t) :
  BooleanBuilder.raw_data_ (BooleanBuilder.UnsafeAppend val b)
  = write_bit (BooleanBuilder.raw_data_ b) (length_ (BooleanBuilder.base_ b)) val.
Proof. destruct val; reflexivity. Qed.

Lemma BooleanRun_step_OK (o : BooleanRun.op) (b b' : BooleanBuilder.t) :
  boolean_consistent b ->
  BooleanRun.step o b = (OK, b') ->
  boolean_consistent b' /\
  length_ (BooleanBuilder.base_ b') = length_ (BooleanBuilder.base_ b) + 1 /\
  null_count_ (BooleanBuilder.base_ b')
    = null_count_ (BooleanBuilder.base_ b) + count_invalid [BooleanRun.is_valid o] /\
  BitUtil.GetBit (null_bitmap_data_ (BooleanBuilder.base_ b'))
    (length_ (BooleanBuilder.base_ b)) = BooleanRun.is_valid o /\
  (forall val, o = BooleanRun.OpAppend val ->
     BitUtil.GetBit (BooleanBuilder.raw_data_ b') (length_ (BooleanBuilder.base_ b)) = val) /\
  (forall i, 0 <= i < length_ (BooleanBuilder.base_ b) ->
     BitUtil.GetBit (null_bitmap_data_ (BooleanBuilder.base_ b')) i
     = BitUtil.GetBit (null_bitmap_data_ (BooleanBuilder.base_ b)) i /\
     BitUtil.GetBit (BooleanBuilder.raw_data_ b') i
     = BitUtil.GetBit (BooleanBuilder.raw_data_ b) i).
Proof.
  intros Hcons Hstep.
  assert (Hshape : exists b1,
            Reserve 1 b = (OK, b1) /\
            BooleanBuilder.base_ b'
              = UnsafeAppendToBitmap (BooleanRun.is_valid o) (BooleanBuilder.base_ b1) /\
            match o with
            | BooleanRun.OpAppend val =>
                BooleanBuilder.raw_data_ b'
                = write_bit (BooleanBuilder.raw_data_ b1)
                    (length_ (BooleanBuilder.base_ b1)) val
            | BooleanRun.OpAppendNull =>
                BooleanBuilder.raw_data_ b' = BooleanBuilder.raw_data_ b1
            end).
  { destruct o as [val |]; simpl in Hstep;
      unfold BooleanBuilder.Append, BooleanBuilder.AppendNull, RETURN_NOT_OK in Hstep;
      destruct (Reserve 1 b) as [s1 b1]; destruct s1; try discriminate;
      injection Hstep as <-; exists b1.
    - split; [reflexivity |].
      split; [apply BooleanBuilder_base_UnsafeAppend | apply BooleanBuilder_raw_UnsafeAppend].
    - repeat split. }
  destruct Hshape as (b1 & HR & Hbase & Hraw).
  destruct (BooleanBuilder_Reserve _ _ _ _ HR Hcons) as [_ Hok].
  destruct (Hok eq_refl) as ([Hc1 Hd1] & Hl & Hn & Hroom & Hbits & Hdata).
  pose proof Hc1 as (Hord1 & Hcap1 & _).
  destruct (bitmap_step_consistent (AppendBit (BooleanRun.is_valid o))
              (BooleanBuilder.base_ b1) Hc1)
    as (Hc2 & Hl2 & Hn2 & Hcap2 & Hin2 & Hlow2); [simpl; lia |].
  change (bitmap_step (BooleanBuilder.base_ b1) (AppendBit (BooleanRun.is_valid o)))
    with (UnsafeAppendToBitmap (BooleanRun.is_valid o) (BooleanBuilder.base_ b1)) in *.
  change (bitmap_flags (AppendBit (BooleanRun.is_valid o)))
    with [BooleanRun.is_valid o] in *.
  change (Z.of_nat (List.length [BooleanRun.is_valid o])) with 1 in Hl2.
  rewrite <- Hbase in *.
  assert (Hlen_raw : List.length (BooleanBuilder.raw_data_ b')
                     = List.length (BooleanBuilder.raw_data_ b1)).
  { destruct o; rewrite Hraw; [apply length_write_bit | reflexivity]. }
  split; [split; [exact Hc2 | rewrite Hlen_raw, Hcap2; exact Hd1] |].
  split; [lia |]. split; [lia |]. split; [| split].
  - specialize (Hin2 0%nat _ eq_refl). rewrite Z.add_0_r, Hl in Hin2. exact Hin2.
  - intros val ->. rewrite Hraw, <- Hl.
    rewrite GetBit_write_bit by lia. rewrite Z.eqb_refl. reflexivity.
  - intros i Hi. split.
    + rewrite Hlow2 by lia. apply Hbits. lia.
    + rewrite <- (Hdata i Hi). destruct o as [val |]; rewrite Hraw; [| reflexivity].
      rewrite GetBit_write_bit by lia.
      rewrite (proj2 (Z.eqb_neq i _)) by lia. reflexivity.
Qed.

(** X8: a run of checked appends to a [BooleanBuilder] reads back as it
    was appended.  When every [Append(val)] and [AppendNull()] of the run
    returns OK, reallocations included, the validity bit at index
    [length + k] is set exactly when the [k]-th append was a value, the
    data bit there is that value, the length has grown by the number of
    appends and the null count by the number of nulls, and the bits of the
    elements that were there before are untouched. *)
Theorem BooleanBuilder_run_reads_back
        (ops : list BooleanRun.op) (b b' : BooleanBuilder.t) :
  boolean_consistent b ->
  BooleanRun.run ops b = (OK, b') ->
  length (BooleanBuilder.base_ b')
    = length (BooleanBuilder.base_ b) + Z.of_nat (List.length ops) /\
  null_count (BooleanBuilder.base_ b')
    = null_count (BooleanBuilder.base_ b)
      + count_invalid (List.map BooleanRun.is_valid ops) /\
  (forall k o, ops !! k = Some o ->
     BitUtil.GetBit (null_bitmap_data_ (BooleanBuilder.base_ b'))
       (length (BooleanBuilder.base_ b) + Z.of_nat k) = BooleanRun.is_valid o /\
     (forall val, o = BooleanRun.OpAppend val ->
        BitUtil.GetBit (BooleanBuilder.raw_data_ b')
          (length (BooleanBuilder.base_ b) + Z.of_nat k) = val)) /\
  (forall i, 0 <= i < length (BooleanBuilder.base_ b) ->
     BitUtil.GetBit (null_bitmap_data_ (BooleanBuilder.base_ b')) i
     = BitUtil.GetBit (null_bitmap_data_ (BooleanBuilder.base_ b)) i /\
     BitUtil.GetBit (BooleanBuilder.raw_data_ b') i
     = BitUtil.GetBit (BooleanBuilder.raw_data_ b) i) /\
  boolean_consistent b'.
Proof.
  unfold length, null_count.
  revert b. induction ops as [| o ops IH]; intros b Hcons Hrun.
  - injection Hrun as <-. simpl.
    split; [lia |]. split; [lia |]. split; [intros k o Hk; discriminate |].
    split; [intros i Hi; split; reflexivity | exact Hcons].
  - simpl in Hrun. unfold RETURN_NOT_OK in Hrun.
    destruct (BooleanRun.step o b) as [s1 b1] eqn:Hstep.
    destruct s1; try discriminate.
    destruct (BooleanRun_step_OK o b b1 Hcons Hstep)
      as (Hc1 & Hl1 & Hn1 & Hbit1 & Hval1 & Hlow1).
    destruct (IH b1 Hc1 Hrun) as (Hl & Hn & Hin & Hlow & Hc).
    pose proof Hcons as ((Hord & _) & _).
    change (List.length (o :: ops)) with (S (List.length ops)).
    simpl List.map. cbn [count_invalid]. simpl count_invalid in Hn1.
    split; [lia |]. split; [lia |]. split; [| split; [| exact Hc]].
    + intros [| k] o' Hk.
      * injection Hk as <-. simpl Z.of_nat. rewrite Z.add_0_r.
        destruct (Hlow (length_ (BooleanBuilder.base_ b))) as [-> ->]; [lia |].
        split; assumption.
      * simpl in Hk. destruct (Hin k o' Hk) as [H1 H2].
        rewrite Hl1 in *.
        replace (length_ (BooleanBuilder.base_ b) + Z.of_nat (S k))
          with (length_ (BooleanBuilder.base_ b) + 1 + Z.of_nat k) by lia.
        split; assumption.
    + intros i Hi. destruct (Hlow i) as [-> ->]; [lia |]. apply Hlow1, Hi.
Qed.

Lemma BooleanBuilder_run_reads_back_witness :
  fst (BooleanRun.run
         [BooleanRun.OpAppend true; BooleanRun.OpAppendNull; BooleanRun.OpAppend false;
          BooleanRun.OpAppend true]
         (BooleanBuilder.new (mkPool 64 170))) = OK /\
  BitUtil.GetBit
    (BooleanBuilder.raw_data_
       (snd (BooleanRun.run
               [BooleanRun.OpAppend true; BooleanRun.OpAppendNull;
                BooleanRun.OpAppend false; BooleanRun.OpAppend true]
               (BooleanBuilder.new (mkPool 64 170))))) 2 = false /\
  BooleanBuilder.raw_data_
    (snd (BooleanRun.run
            [BooleanRun.OpAppend true; BooleanRun.OpAppendNull;
             BooleanRun.OpAppend false; BooleanRun.OpAppend true]
            (BooleanBuilder.new (mkPool 64 170)))) = [171; 170; 170; 170] /\
  null_count
    (BooleanBuilder.base_
       (snd (BooleanRun.run
               [BooleanRun.OpAppend true; BooleanRun.OpAppendNull;
                BooleanRun.OpAppend false; BooleanRun.OpAppend true]
               (BooleanBuilder.new (mkPool 64 170))))) = 1.
Proof.
  destruct (BooleanBuilder_run_reads_back
              [BooleanRun.OpAppend true; BooleanRun.OpAppendNull;
               BooleanRun.OpAppend false; BooleanRun.OpAppend true]
              (BooleanBuilder.new (mkPool 64 170))
              (snd (BooleanRun.run
                      [BooleanRun.OpAppend true; BooleanRun.OpAppendNull;
                       BooleanRun.OpAppend false; BooleanRun.OpAppend true]
                      (BooleanBuilder.new (mkPool 64 170)))))
    as (_ & Hnull & Hin & _).
  - split; [apply bitmap_consistent_new | simpl; lia].
  - apply run_OK_pair. reflexivity.
  - split; [reflexivity |].
    split; [exact (proj2 (Hin 2%nat (BooleanRun.OpAppend false) eq_refl) false eq_refl) |].
    split; [reflexivity | exact Hnull].
Defined.

(** ** StructBuilder: runs of checked appends *)

Lemma StructBuilder_Append_OK (is_valid : bool) (b b' : StructBuilder.t) :
  bitmap_consistent (StructBuilder.base_ b) ->
  StructBuilder.Append is_valid b = (OK, b') ->
  bitmap_consistent (StructBuilder.base_ b') /\
  length_ (StructBuilder.base_ b') = length_ (StructBuilder.base_ b) + 1 /\
  null_count_ (StructBuilder.base_ b')
    = null_count_ (StructBuilder.base_ b) + count_invalid [is_valid] /\
  BitUtil.GetBit (null_bitmap_data_ (StructBuilder.base_ b'))
    (length_ (StructBuilder.base_ b)) = is_valid /\
  (forall i, 0 <= i < length_ (StructBuilder.base_ b) ->
     BitUtil.GetBit (null_bitmap_data_ (StructBuilder.base_ b')) i
     = BitUtil.GetBit (null_bitmap_data_ (StructBuilder.base_ b)) i).
Proof.
  intros Hcons. unfold StructBuilder.Append, RETURN_NOT_OK.
  destruct (Reserve 1 b) as [s1 b1] eqn:HR.
  destruct (StructBuilder_Reserve _ _ _ _ HR Hcons) as [_ Hok].
  destruct s1; try discriminate. intros [= <-].
  destruct (Hok eq_refl) as (Hc1 & Hl & Hn & Hroom & Hbits).
  pose proof Hc1 as (Hord1 & _).
  destruct (bitmap_step_consistent (AppendBit is_valid) (StructBuilder.base_ b1) Hc1)
    as (Hc2 & Hl2 & Hn2 & _ & Hin2 & Hlow2); [simpl; lia |].
  change (bitmap_flags (AppendBit is_valid)) with [is_valid] in *.
  change (Z.of_nat (List.length [is_valid])) with 1 in Hl2.
  split; [exact Hc2 |]. split; [etransitivity; [exact Hl2 | lia] |].
  split; [etransitivity; [exact Hn2 | lia] |]. split.
  - specialize (Hin2 0%nat _ eq_refl). rewrite Z.add_0_r, Hl in Hin2. exact Hin2.
  - intros i Hi. etransitivity; [apply Hlow2; lia | apply Hbits; lia].
Qed.

(** X9: a run of [StructBuilder::Append(is_valid)] records its flags.
    When every call of the run returns OK, reallocations included, the
    validity bit at index [length + k] is the [k]-th flag, the length has
    grown by the number of calls and the null count by the number of flags
    that say null, and the bits that were there before are untouched. *)
Theorem StructBuilder_run_records_flags
        (flags : list bool) (b b' : StructBuilder.t) :
  bitmap_consistent (StructBuilder.base_ b) ->
  StructBuilder_run flags b = (OK, b') ->
  length (StructBuilder.base_ b')
    = length (StructBuilder.base_ b) + Z.of_nat (List.length flags) /\
  null_count (StructBuilder.base_ b')
    = null_count (StructBuilder.base_ b) + count_invalid flags /\
  (forall k v, flags !! k = Some v ->
     BitUtil.GetBit (null_bitmap_data_ (StructBuilder.base_ b'))
       (length (StructBuilder.base_ b) + Z.of_nat k) = v) /\
  (forall i, 0 <= i < length (StructBuilder.base_ b) ->
     BitUtil.GetBit (null_bitmap_data_ (StructBuilder.base_ b')) i
     = BitUtil.GetBit (null_bitmap_data_ (StructBuilder.base_ b)) i) /\
  null_count (StructBuilder.base_ b')
    = zero_bits (null_bitmap_data_ (StructBuilder.base_ b'))
        (Z.to_nat (length (StructBuilder.base_ b'))).
Proof.
  unfold length, null_count.
  revert b. induction flags as [| v flags IH]; intros b Hcons Hrun.
  - injection Hrun as <-. simpl.
    split; [lia |]. split; [lia |]. split; [intros k o Hk; discriminate |].
    split; [intros i Hi; reflexivity | apply Hcons].
  - simpl in Hrun. unfold RETURN_NOT_OK in Hrun.
    destruct (StructBuilder.Append v b) as [s1 b1] eqn:Hstep.
    destruct s1; try discriminate.
    destruct (StructBuilder_Append_OK v b b1 Hcons Hstep)
      as (Hc1 & Hl1 & Hn1 & Hbit1 & Hlow1).
    destruct (IH b1 Hc1 Hrun) as (Hl & Hn & Hin & Hlow & Hzero).
    pose proof Hcons as (Hord & _).
    change (List.length (v :: flags)) with (S (List.length flags)).
    cbn [count_invalid]. simpl count_invalid in Hn1.
    split; [lia |]. split; [lia |]. split; [| split; [| exact Hzero]].
    + intros [| k] v' Hk.
      * injection Hk as <-. simpl Z.of_nat. rewrite Z.add_0_r.
        rewrite Hlow by lia. exact Hbit1.
      * simpl in Hk. specialize (Hin k v' Hk). rewrite Hl1 in Hin.
        replace (length_ (StructBuilder.base_ b) + Z.of_nat (S k))
          with (length_ (StructBuilder.base_ b) + 1 + Z.of_nat k) by lia.
        exact Hin.
    + intros i Hi. rewrite Hlow by lia. apply Hlow1, Hi.
Qed.

Lemma StructBuilder_run_records_flags_witness :
  fst (StructBuilder_run [true; true; false]
         {| StructBuilder.base_ := ArrayBuilder.new (mkPool 64 170);
            StructBuilder.num_fields := 2 |}) = OK /\
  null_count
    (StructBuilder.base_
       (snd (StructBuilder_run [true; true; false]
               {| StructBuilder.base_ := ArrayBuilder.new (mkPool 64 170);
                  StructBuilder.num_fields := 2 |}))) = 1 /\
  length
    (StructBuilder.base_
       (snd (StructBuilder_run [true; true; false]
               {| StructBuilder.base_ := ArrayBuilder.new (mkPool 64 170);
                  StructBuilder.num_fields := 2 |}))) = 3 /\
  null_bitmap_data_
    (StructBuilder.base_
       (snd (StructBuilder_run [true; true; false]
               {| StructBuilder.base_ := ArrayBuilder.new (mkPool 64 170);
                  StructBuilder.num_fields := 2 |}))) = [3; 0; 0; 0].
Proof.
  destruct (StructBuilder_run_records_flags [true; true; false]
              {| StructBuilder.base_ := ArrayBuilder.new (mkPool 64 170);
                 StructBuilder.num_fields := 2 |}
              (snd (StructBuilder_run [true; true; false]
                      {| StructBuilder.base_ := ArrayBuilder.new (mkPool 64 170);
                         StructBuilder.num_fields := 2 |})))
    as (Hl & Hn & _).
  - apply bitmap_consistent_new.
  - apply run_OK_pair. reflexivity.
  - split; [reflexivity |]. split; [exact Hn |]. split; [exact Hl | reflexivity].
Defined.

(** ** BinaryBuilder: the layout of a run of appends *)

Lemma slots_data_app (ops1 ops2 : list BinaryBuilder.op) :
  slots_data (ops1 ++ ops2) = slots_data ops1 ++ slots_data ops2.
Proof.
  induction ops1 as [| o ops1 IH]; [reflexivity |].
  simpl. rewrite IH, app_assoc. reflexivity.
Qed.

Lemma slots_data_split (ops : list BinaryBuilder.op) (k : nat) (o : BinaryBuilder.op) :
  ops !! k = Some o ->
  slots_data ops
  = slots_data (take k ops) ++ slot_bytes o ++ slots_data (drop (S k) ops).
Proof.
  intros Hk. rewrite <- (take_drop_middle ops k o Hk) at 1.
  rewrite slots_data_app. reflexivity.
Qed.

Lemma slot_start_S (n : Z) (ops : list BinaryBuilder.op) (k : nat) (o : BinaryBuilder.op) :
  ops !! k = Some o ->
  slot_start n ops (S k) = slot_start n ops k + Z.of_nat (List.length (slot_bytes o)).
Proof.
  intros Hk. unfold slot_start. rewrite (take_S_r ops k o Hk), slots_data_app.
  simpl. rewrite !length_app. simpl. lia.
Qed.

Lemma slot_start_bounds (n : Z) (ops : list BinaryBuilder.op) (k : nat) :
  n <= slot_start n ops k <= n + Z.of_nat (List.length (slots_data ops)).
Proof.
  unfold slot_start. rewrite <- (take_drop k ops) at 3.
  rewrite slots_data_app, length_app. lia.
Qed.

Lemma slot_starts_lookup (n : Z) (ops : list BinaryBuilder.op) (k : nat)
      (o : BinaryBuilder.op) :
  ops !! k = Some o ->
  List.map to_int32 (slot_starts n ops) !! k = Some (to_int32 (slot_start n ops k)).
Proof.
  revert n k. induction ops as [| a ops IH]; intros n k Hk; [discriminate |].
  destruct k as [| k].
  - simpl. unfold slot_start. simpl. rewrite Z.add_0_r. reflexivity.
  - simpl in Hk. simpl. rewrite (IH _ _ Hk). f_equal. f_equal.
    unfold slot_start. simpl. rewrite length_app. lia.
Qed.

Lemma length_slot_starts (n : Z) (ops : list BinaryBuilder.op) :
  List.length (List.map to_int32 (slot_starts n ops)) = List.length ops.
Proof.
  revert n. induction ops as [| a ops IH]; intros n; [reflexivity |].
  simpl. rewrite IH. reflexivity.
Qed.

Lemma to_int32_small (x : Z) : 0 <= x < 2 ^ 31 -> to_int32 x = x.
Proof. intros Hx. unfold to_int32. rewrite Z.mod_small by lia. lia. Qed.

Lemma slice_app_middle (pre mid post : list Z) :
  slice (pre ++ mid ++ post) (Z.of_nat (List.length pre)) (Z.of_nat (List.length mid)) = mid.
Proof.
  unfold slice. rewrite !Nat2Z.id, drop_app_length, take_app_length. reflexivity.
Qed.

(** X10: the buffers after a run of [BinaryBuilder::UnsafeAppend] and
    [UnsafeAppendNull] on a consistent builder presized for the run: room
    for the elements in the bitmap and in the offsets, room for the bytes
    in the value data.  The value data is the old data followed by the
    bytes of the values in order, a null adding none, and fits the capacity
    reserved; one offset is pushed per slot, value or null; the length
    grows by the number of slots and the null count by the number of nulls;
    the validity bit of slot [k] is set exactly when it is a value; and the
    bits of the elements that were there before are untouched. *)
Theorem BinaryBuilder_run_layout (ops : list BinaryBuilder.op) (b : BinaryBuilder.t) :
  bitmap_consistent (BinaryBuilder.base_ b) ->
  BinaryBuilder_presized ops b ->
  TypedBufferBuilder.values_ (BinaryBuilder.value_data_builder_ (BinaryBuilder.run ops b))
    = TypedBufferBuilder.values_ (BinaryBuilder.value_data_builder_ b) ++ slots_data ops /\
  BinaryBuilder.value_data_length (BinaryBuilder.run ops b)
    <= BinaryBuilder.value_data_capacity b /\
  TypedBufferBuilder.length (BinaryBuilder.offsets_builder_ (BinaryBuilder.run ops b))
    = TypedBufferBuilder.length (BinaryBuilder.offsets_builder_ b)
      + Z.of_nat (List.length ops) /\
  length (BinaryBuilder.base_ (BinaryBuilder.run ops b))
    = length (BinaryBuilder.base_ b) + Z.of_nat (List.length ops) /\
  null_count (BinaryBuilder.base_ (BinaryBuilder.run ops b))
    = null_count (BinaryBuilder.base_ b) + count_invalid (List.map slot_valid ops) /\
  (forall k o, ops !! k = Some o ->
     BitUtil.GetBit (null_bitmap_data_ (BinaryBuilder.base_ (BinaryBuilder.run ops b)))
       (length (BinaryBuilder.base_ b) + Z.of_nat k) = slot_valid o) /\
  (forall j, 0 <= j < length (BinaryBuilder.base_ b) ->
     BitUtil.GetBit (null_bitmap_data_ (BinaryBuilder.base_ (BinaryBuilder.run ops b))) j
     = BitUtil.GetBit (null_bitmap_data_ (BinaryBuilder.base_ b)) j) /\
  bitmap_consistent (BinaryBuilder.base_ (BinaryBuilder.run ops b)).
Proof.
  unfold length, null_count. intros Hcons (_ & Hroom & _ & _ & Hdata).
  destruct (BinaryBuilder_run_buffers ops b) as (Hd & Ho & _).
  destruct (BinaryBuilder_run_bitmap ops b Hcons Hroom) as (Hc & Hn & Hin & Hlow).
  destruct (BinaryBuilder_run_counts ops b) as [_ Hl].
  split; [exact Hd |]. split.
  { unfold BinaryBuilder.value_data_length, TypedBufferBuilder.length in *.
    rewrite Hd, length_app. lia. }
  split.
  { unfold TypedBufferBuilder.length. rewrite Ho, length_app, length_slot_starts. lia. }
  split; [exact Hl |]. split; [exact Hn |].
  split; [exact Hin |]. split; [exact Hlow | exact Hc].
Qed.

Lemma BinaryBuilder_run_layout_witness :
  TypedBufferBuilder.values_
    (BinaryBuilder.value_data_builder_
       (BinaryBuilder.run
          [BinaryBuilder.OpAppend []; BinaryBuilder.OpAppend [97];
           BinaryBuilder.OpAppendNull; BinaryBuilder.OpAppend [98; 99]]
          BinaryBuilder_reserved))
    = [97; 98; 99] /\
  null_count
    (BinaryBuilder.base_
       (BinaryBuilder.run
          [BinaryBuilder.OpAppend []; BinaryBuilder.OpAppend [97];
           BinaryBuilder.OpAppendNull; BinaryBuilder.OpAppend [98; 99]]
          BinaryBuilder_reserved)) = 1 /\
  BitUtil.GetBit
    (null_bitmap_data_
       (BinaryBuilder.base_
          (BinaryBuilder.run
             [BinaryBuilder.OpAppend []; BinaryBuilder.OpAppend [97];
              BinaryBuilder.OpAppendNull; BinaryBuilder.OpAppend [98; 99]]
             BinaryBuilder_reserved))) 2 = false.
Proof.
  destruct BinaryBuilder_reserved_presized as [Hcons Hpre].
  destruct (BinaryBuilder_run_layout
              [BinaryBuilder.OpAppend []; BinaryBuilder.OpAppend [97];
               BinaryBuilder.OpAppendNull; BinaryBuilder.OpAppend [98; 99]]
              BinaryBuilder_reserved)
    as (Hd & _ & _ & _ & Hn & Hin & _).
  - exact Hcons.
  - apply Hpre; simpl; lia.
  - split; [exact Hd |]. split; [exact Hn |].
    exact (Hin 2%nat BinaryBuilder.OpAppendNull eq_refl).
Defined.

(** X11: the offsets a run of [BinaryBuilder::UnsafeAppend] and
    [UnsafeAppendNull] pushes delimit the slots.  On a builder presized
    for the run, and as long as the value data stays below 2^31 bytes, so
    that the cast to [int32_t] does not wrap, the offset pushed for slot
    [k] is the byte position at which the slot starts; the bytes of the
    slot lie there in the value data; and the slot ends where the next one
    starts: at the next offset or, for the last slot, at
    [value_data_length()]. *)
Theorem BinaryBuilder_offsets_delimit_slots
        (ops : list BinaryBuilder.op) (b : BinaryBuilder.t)
        (k : nat) (o : BinaryBuilder.op) :
  BinaryBuilder_presized ops b ->
  BinaryBuilder.value_data_length b + Z.of_nat (List.length (slots_data ops)) < 2 ^ 31 ->
  ops !! k = Some o ->
  TypedBufferBuilder.values_ (BinaryBuilder.offsets_builder_ (BinaryBuilder.run ops b))
    !! (List.length (TypedBufferBuilder.values_ (BinaryBuilder.offsets_builder_ b)) + k)%nat
    = Some (slot_start (BinaryBuilder.value_data_length b) ops k) /\
  slice (TypedBufferBuilder.values_
           (BinaryBuilder.value_data_builder_ (BinaryBuilder.run ops b)))
    (slot_start (BinaryBuilder.value_data_length b) ops k)
    (Z.of_nat (List.length (slot_bytes o))) = slot_bytes o /\
  match
    TypedBufferBuilder.values_ (BinaryBuilder.offsets_builder_ (BinaryBuilder.run ops b))
      !! (List.length (TypedBufferBuilder.values_ (BinaryBuilder.offsets_builder_ b)) + S k)%nat
  with
  | Some next => next
  | None => BinaryBuilder.value_data_length (BinaryBuilder.run ops b)
  end = slot_start (BinaryBuilder.value_data_length b) ops k
        + Z.of_nat (List.length (slot_bytes o)).
Proof.
  intros _ Hsmall Hk.
  destruct (BinaryBuilder_run_buffers ops b) as (Hd & Ho & _).
  assert (Hn0 : 0 <= BinaryBuilder.value_data_length b)
    by (unfold BinaryBuilder.value_data_length, TypedBufferBuilder.length; lia).
  assert (Hint : forall j, to_int32 (slot_start (BinaryBuilder.value_data_length b) ops j)
                           = slot_start (BinaryBuilder.value_data_length b) ops j).
  { intros j. apply to_int32_small.
    pose proof (slot_start_bounds (BinaryBuilder.value_data_length b) ops j). lia. }
  split; [| split].
  - rewrite Ho, lookup_app_r by lia.
    replace (List.length (TypedBufferBuilder.values_ (BinaryBuilder.offsets_builder_ b)) + k
             - List.length (TypedBufferBuilder.values_ (BinaryBuilder.offsets_builder_ b)))%nat
      with k by lia.
    rewrite (slot_starts_lookup _ _ _ _ Hk), Hint. reflexivity.
  - rewrite Hd, (slots_data_split ops k o Hk), app_assoc.
    replace (slot_start (BinaryBuilder.value_data_length b) ops k)
      with (Z.of_nat (List.length
              (TypedBufferBuilder.values_ (BinaryBuilder.value_data_builder_ b)
               ++ slots_data (take k ops)))).
    + apply slice_app_middle.
    + unfold slot_start, BinaryBuilder.value_data_length, TypedBufferBuilder.length.
      rewrite length_app. lia.
  - rewrite <- (slot_start_S _ _ _ _ Hk).
    rewrite Ho, lookup_app_r by lia.
    replace (List.length (TypedBufferBuilder.values_ (BinaryBuilder.offsets_builder_ b)) + S k
             - List.length (TypedBufferBuilder.values_ (BinaryBuilder.offsets_builder_ b)))%nat
      with (S k) by lia.
    destruct (ops !! S k) as [o' |] eqn:Hk'.
    + rewrite (slot_starts_lookup _ _ _ _ Hk'), Hint. reflexivity.
    + apply lookup_ge_None in Hk'.
      rewrite (proj2 (lookup_ge_None _ _)) by (rewrite length_slot_starts; exact Hk').
      unfold slot_start, BinaryBuilder.value_data_length, TypedBufferBuilder.length.
      rewrite Hd, length_app, take_ge by exact Hk'. lia.
Qed.

Lemma BinaryBuilder_offsets_delimit_slots_witness :
  TypedBufferBuilder.values_
    (BinaryBuilder.offsets_builder_
       (BinaryBuilder.run
          [BinaryBuilder.OpAppend []; BinaryBuilder.OpAppend [97];
           BinaryBuilder.OpAppendNull; BinaryBuilder.OpAppend [98; 99]]
          BinaryBuilder_reserved)) !! 3%nat = Some 1 /\
  slice
    (TypedBufferBuilder.values_
       (BinaryBuilder.value_data_builder_
          (BinaryBuilder.run
             [BinaryBuilder.OpAppend []; BinaryBuilder.OpAppend [97];
              BinaryBuilder.OpAppendNull; BinaryBuilder.OpAppend [98; 99]]
             BinaryBuilder_reserved))) 1 2 = [98; 99] /\
  BinaryBuilder.value_data_length
    (BinaryBuilder.run
       [BinaryBuilder.OpAppend []; BinaryBuilder.OpAppend [97];
        BinaryBuilder.OpAppendNull; BinaryBuilder.OpAppend [98; 99]]
       BinaryBuilder_reserved) = 3.
Proof.
  destruct (BinaryBuilder_offsets_delimit_slots
              [BinaryBuilder.OpAppend []; BinaryBuilder.OpAppend [97];
               BinaryBuilder.OpAppendNull; BinaryBuilder.OpAppend [98; 99]]
              BinaryBuilder_reserved 3 (BinaryBuilder.OpAppend [98; 99]))
    as (Hoff & Hslice & Hend).
  - apply (proj2 BinaryBuilder_reserved_presized); simpl; lia.
  - vm_compute. reflexivity.
  - reflexivity.
  - split; [exact Hoff |]. split; [exact Hslice | exact Hend].
Defined.

(** X12: an empty value and a null differ in the validity bitmap only.
    [UnsafeAppend(value, 0)] and [UnsafeAppendNull()] push the same offset,
    append no value byte and add one to the length; the first sets the
    validity bit of the new element and leaves the null count, the second
    leaves the bitmap as it is and adds one to the null count. *)
Theorem BinaryBuilder_empty_value_vs_null (value : list Z) (b : BinaryBuilder.t) :
  0 <= length (BinaryBuilder.base_ b)
    < 8 * Z.of_nat (List.length (null_bitmap_data_ (BinaryBuilder.base_ b))) ->
  BinaryBuilder.offsets_builder_ (BinaryBuilder.UnsafeAppend value 0 b)
    = BinaryBuilder.offsets_builder_ (BinaryBuilder.UnsafeAppendNull b) /\
  TypedBufferBuilder.values_
    (BinaryBuilder.value_data_builder_ (BinaryBuilder.UnsafeAppend value 0 b))
    = TypedBufferBuilder.values_ (BinaryBuilder.value_data_builder_ b) /\
  BinaryBuilder.value_data_builder_ (BinaryBuilder.UnsafeAppendNull b)
    = BinaryBuilder.value_data_builder_ b /\
  length (BinaryBuilder.base_ (BinaryBuilder.UnsafeAppend value 0 b))
    = length (BinaryBuilder.base_ (BinaryBuilder.UnsafeAppendNull b)) /\
  null_count (BinaryBuilder.base_ (BinaryBuilder.UnsafeAppend value 0 b))
    = null_count (BinaryBuilder.base_ b) /\
  null_count (BinaryBuilder.base_ (BinaryBuilder.UnsafeAppendNull b))
    = null_count (BinaryBuilder.base_ b) + 1 /\
  BitUtil.GetBit
    (null_bitmap_data_ (BinaryBuilder.base_ (BinaryBuilder.UnsafeAppend value 0 b)))
    (length (BinaryBuilder.base_ b)) = true /\
  null_bitmap_data_ (BinaryBuilder.base_ (BinaryBuilder.UnsafeAppendNull b))
    = null_bitmap_data_ (BinaryBuilder.base_ b) /\
  (forall j, 0 <= j -> j <> length (BinaryBuilder.base_ b) ->
     BitUtil.GetBit
       (null_bitmap_data_ (BinaryBuilder.base_ (BinaryBuilder.UnsafeAppend value 0 b))) j
     = BitUtil.GetBit (null_bitmap_data_ (BinaryBuilder.base_ b)) j).
Proof.
  unfold length, null_count. intros Hin.
  split; [reflexivity |]. split; [simpl; apply app_nil_r |].
  split; [reflexivity |]. split; [reflexivity |]. split; [reflexivity |].
  split; [reflexivity |].
  assert (Hbits : null_bitmap_data_
                    (BinaryBuilder.base_ (BinaryBuilder.UnsafeAppend value 0 b))
                  = write_bit (null_bitmap_data_ (BinaryBuilder.base_ b))
                      (length_ (BinaryBuilder.base_ b)) true) by reflexivity.
  rewrite Hbits. split; [| split; [reflexivity |]].
  - rewrite GetBit_write_bit by lia. rewrite Z.eqb_refl. reflexivity.
  - intros j Hj Hne. rewrite GetBit_write_bit by lia.
    rewrite (proj2 (Z.eqb_neq _ _)) by exact Hne. reflexivity.
Qed.

Lemma BinaryBuilder_empty_value_vs_null_witness :
  BinaryBuilder.offsets_builder_
    (BinaryBuilder.UnsafeAppend [] 0 (snd (Reserve 1 (BinaryBuilder.new (mkPool 4096 170)))))
  = BinaryBuilder.offsets_builder_
      (BinaryBuilder.UnsafeAppendNull (snd (Reserve 1 (BinaryBuilder.new (mkPool 4096 170)))))
  /\
  BitUtil.GetBit
    (null_bitmap_data_
       (BinaryBuilder.base_
          (BinaryBuilder.UnsafeAppend [] 0
             (snd (Reserve 1 (BinaryBuilder.new (mkPool 4096 170))))))) 0 = true /\
  null_count
    (BinaryBuilder.base_
       (BinaryBuilder.UnsafeAppendNull
          (snd (Reserve 1 (BinaryBuilder.new (mkPool 4096 170)))))) = 1.
Proof.
  destruct (BinaryBuilder_empty_value_vs_null []
              (snd (Reserve 1 (BinaryBuilder.new (mkPool 4096 170)))))
    as (Hoff & _ & _ & _ & _ & Hn & Hbit & _).
  - vm_compute. split; [discriminate | reflexivity].
  - split; [exact Hoff |]. split; [exact Hbit | exact Hn].
Defined.

(** ** FixedSizeBinaryBuilder: how many bytes an append stores *)

Lemma BufferBuilder_Append_OK (bytes : list Z) (bb bb' : BufferBuilder.t) :
  BufferBuilder.Append bytes bb = (OK, bb') ->
  BufferBuilder.data_ bb' = BufferBuilder.data_ bb ++ bytes.
Proof.
  unfold BufferBuilder.Append, BufferBuilder.Resize, RETURN_NOT_OK.
  destruct (_ <? _); [destruct (pool_grants _ _) |]; intros [= <-]; reflexivity.
Qed.

Lemma FixedSizeBinaryBuilder_Reserve_width
      (n : Z) (b b' : FixedSizeBinaryBuilder.t) (s : Status) :
  Reserve n b = (s, b') ->
  FixedSizeBinaryBuilder.byte_width_ b' = FixedSizeBinaryBuilder.byte_width_ b.
Proof.
  intros HR.
  destruct (Reserve_cases n b) as [[Hroom Heq] | [Hgrow (c & Hc & Heq)]];
    rewrite Heq in HR; simpl in *.
  - injection HR as <- <-. reflexivity.
  - revert HR. unfold FixedSizeBinaryBuilder.Resize, RETURN_NOT_OK.
    destruct (CheckCapacity c _); try (intros [= <- <-]; reflexivity).
    cbv zeta.
    destruct (BufferBuilder.Resize _ _) as [s1 bb].
    destruct (ArrayBuilder.Resize _ (FixedSizeBinaryBuilder.base_ b)) as [s2 a].
    destruct s1; try (intros [= <- <-]; reflexivity).
    destruct s2; intros [= <- <-]; reflexivity.
Qed.

Lemma FixedSizeBinaryBuilder_append_shape
      (bytes : list Z) (b b1 b' : FixedSizeBinaryBuilder.t) (bb : BufferBuilder.t) :
  Reserve 1 b = (OK, b1) ->
  BufferBuilder.Append bytes (FixedSizeBinaryBuilder.byte_builder_ b1) = (OK, bb) ->
  b' = FixedSizeBinaryBuilder.set_byte_builder bb
         (FixedSizeBinaryBuilder.set_base
            (UnsafeAppendToBitmap true (FixedSizeBinaryBuilder.base_ b1)) b1) ->
  BufferBuilder.data_ (FixedSizeBinaryBuilder.byte_builder_ b')
    = BufferBuilder.data_ (FixedSizeBinaryBuilder.byte_builder_ b) ++ bytes /\
  FixedSizeBinaryBuilder.byte_width_ b' = FixedSizeBinaryBuilder.byte_width_ b /\
  length_ (FixedSizeBinaryBuilder.base_ b') = length_ (FixedSizeBinaryBuilder.base_ b) + 1 /\
  null_count_ (FixedSizeBinaryBuilder.base_ b')
    = null_count_ (FixedSizeBinaryBuilder.base_ b).
Proof.
  intros HR HA ->.
  destruct (FixedSizeBinaryBuilder_Reserve_counters _ _ _ _ HR) as (Hl & Hn & Hd & _).
  pose proof (FixedSizeBinaryBuilder_Reserve_width _ _ _ _ HR) as Hw.
  pose proof (BufferBuilder_Append_OK _ _ _ HA) as Hb.
  simpl. rewrite Hb, Hd, Hw, Hl, Hn. repeat split.
Qed.

(** X13: a successful [FixedSizeBinaryBuilder::Append(value)] stores
    exactly [byte_width] bytes.  When the pointer has at least that many
    bytes behind it, the value data grows by the first [byte_width] bytes
    of [value], which then lie at the old end of the data; the length grows
    by one, the null count and the byte width stay; and if the data held
    [byte_width] bytes per element before, it does so after. *)
Theorem FixedSizeBinaryBuilder_Append_stores_width
        (value : list Z) (b b' : FixedSizeBinaryBuilder.t) :
  0 <= FixedSizeBinaryBuilder_byte_width b <= Z.of_nat (List.length value) ->
  FixedSizeBinaryBuilder.Append value b = (OK, b') ->
  BufferBuilder.data_ (FixedSizeBinaryBuilder.byte_builder_ b')
    = BufferBuilder.data_ (FixedSizeBinaryBuilder.byte_builder_ b)
      ++ take (Z.to_nat (FixedSizeBinaryBuilder_byte_width b)) value /\
  slice (BufferBuilder.data_ (FixedSizeBinaryBuilder.byte_builder_ b'))
    (FixedSizeBinaryBuilder_value_data_length b) (FixedSizeBinaryBuilder_byte_width b)
    = take (Z.to_nat (FixedSizeBinaryBuilder_byte_width b)) value /\
  FixedSizeBinaryBuilder_value_data_length b'
    = FixedSizeBinaryBuilder_value_data_length b + FixedSizeBinaryBuilder_byte_width b /\
  FixedSizeBinaryBuilder_byte_width b' = FixedSizeBinaryBuilder_byte_width b /\
  length (FixedSizeBinaryBuilder.base_ b') = length (FixedSizeBinaryBuilder.base_ b) + 1 /\
  null_count (FixedSizeBinaryBuilder.base_ b')
    = null_count (FixedSizeBinaryBuilder.base_ b) /\
  (FixedSizeBinaryBuilder_value_data_length b
     = length (FixedSizeBinaryBuilder.base_ b) * FixedSizeBinaryBuilder_byte_width b ->
   FixedSizeBinaryBuilder_value_data_length b'
     = length (FixedSizeBinaryBuilder.base_ b') * FixedSizeBinaryBuilder_byte_width b').
Proof.
  unfold FixedSizeBinaryBuilder_byte_width, FixedSizeBinaryBuilder_value_data_length,
    BufferBuilder.length, length, null_count.
  intros Hw. unfold FixedSizeBinaryBuilder.Append, RETURN_NOT_OK.
  destruct (Reserve 1 b) as [s1 b1] eqn:HR. destruct s1; try discriminate.
  cbv zeta.
  destruct (BufferBuilder.Append _ _) as [s bb] eqn:HA. intros [= -> Hb'].
  pose proof (FixedSizeBinaryBuilder_Reserve_width _ _ _ _ HR) as Hw1.
  change (FixedSizeBinaryBuilder.byte_width_
            (FixedSizeBinaryBuilder.set_base
               (UnsafeAppendToBitmap true (FixedSizeBinaryBuilder.base_ b1)) b1))
    with (FixedSizeBinaryBuilder.byte_width_ b1) in HA.
  change (FixedSizeBinaryBuilder.byte_builder_
            (FixedSizeBinaryBuilder.set_base
               (UnsafeAppendToBitmap true (FixedSizeBinaryBuilder.base_ b1)) b1))
    with (FixedSizeBinaryBuilder.byte_builder_ b1) in HA.
  rewrite Hw1 in HA.
  destruct (FixedSizeBinaryBuilder_append_shape _ b b1 b' bb HR HA (eq_sym Hb'))
    as (Hd & Hwd & Hl & Hn).
  assert (Hlen : List.length (take (Z.to_nat (FixedSizeBinaryBuilder.byte_width_ b)) value)
                 = Z.to_nat (FixedSizeBinaryBuilder.byte_width_ b))
    by (rewrite length_take; lia).
  rewrite Hd, Hwd, Hl, Hn, length_app, Hlen.
  split; [reflexivity |]. split.
  { pose proof (slice_app_middle
                  (BufferBuilder.data_ (FixedSizeBinaryBuilder.byte_builder_ b))
                  (take (Z.to_nat (FixedSizeBinaryBuilder.byte_width_ b)) value) []) as Hs.
    rewrite app_nil_r, Hlen, Z2Nat.id in Hs by lia. exact Hs. }
  split; [lia |]. split; [reflexivity |]. split; [reflexivity |].
  split; [reflexivity |]. intros Hinv. nia.
Qed.

Lemma FixedSizeBinaryBuilder_Append_stores_width_witness :
  fst (FixedSizeBinaryBuilder.Append [1; 2; 3]
         (FixedSizeBinaryBuilder.new 2 (mkPool 4096 170))) = OK /\
  BufferBuilder.data_
    (FixedSizeBinaryBuilder.byte_builder_
       (snd (FixedSizeBinaryBuilder.Append [1; 2; 3]
               (FixedSizeBinaryBuilder.new 2 (mkPool 4096 170))))) = [1; 2] /\
  FixedSizeBinaryBuilder_value_data_length
    (snd (FixedSizeBinaryBuilder.Append [1; 2; 3]
            (FixedSizeBinaryBuilder.new 2 (mkPool 4096 170)))) = 2 /\
  length
    (FixedSizeBinaryBuilder.base_
       (snd (FixedSizeBinaryBuilder.Append [1; 2; 3]
               (FixedSizeBinaryBuilder.new 2 (mkPool 4096 170))))) = 1.
Proof.
  destruct (FixedSizeBinaryBuilder_Append_stores_width [1; 2; 3]
              (FixedSizeBinaryBuilder.new 2 (mkPool 4096 170))
              (snd (FixedSizeBinaryBuilder.Append [1; 2; 3]
                      (FixedSizeBinaryBuilder.new 2 (mkPool 4096 170)))))
    as (Hd & _ & Hv & _ & Hl & _).
  - vm_compute. split; discriminate.
  - apply run_OK_pair. reflexivity.
  - split; [reflexivity |]. split; [exact Hd |]. split; [exact Hv | exact Hl].
Defined.

(** X14: [FixedSizeBinaryBuilder::Append(const std::array<uint8_t, NBYTES>&)]
    stores all [NBYTES] bytes of the array, whatever the byte width of the
    builder is.  On success the value data grows by the whole array and the
    length by one; so a builder that held [byte_width] bytes per element
    still does so after the call exactly when [NBYTES] is the byte width. *)
Theorem FixedSizeBinaryBuilder_Append_array_stores_all
        (value : list Z) (b b' : FixedSizeBinaryBuilder.t) :
  FixedSizeBinaryBuilder.Append_array value b = (OK, b') ->
  BufferBuilder.data_ (FixedSizeBinaryBuilder.byte_builder_ b')
    = BufferBuilder.data_ (FixedSizeBinaryBuilder.byte_builder_ b) ++ value /\
  FixedSizeBinaryBuilder_value_data_length b'
    = FixedSizeBinaryBuilder_value_data_length b + Z.of_nat (List.length value) /\
  FixedSizeBinaryBuilder_byte_width b' = FixedSizeBinaryBuilder_byte_width b /\
  length (FixedSizeBinaryBuilder.base_ b') = length (FixedSizeBinaryBuilder.base_ b) + 1 /\
  null_count (FixedSizeBinaryBuilder.base_ b')
    = null_count (FixedSizeBinaryBuilder.base_ b) /\
  (FixedSizeBinaryBuilder_value_data_length b
     = length (FixedSizeBinaryBuilder.base_ b) * FixedSizeBinaryBuilder_byte_width b ->
   (FixedSizeBinaryBuilder_value_data_length b'
      = length (FixedSizeBinaryBuilder.base_ b') * FixedSizeBinaryBuilder_byte_width b'
    <-> Z.of_nat (List.length value) = FixedSizeBinaryBuilder_byte_width b)).
Proof.
  unfold FixedSizeBinaryBuilder_byte_width, FixedSizeBinaryBuilder_value_data_length,
    BufferBuilder.length, length, null_count.
  unfold FixedSizeBinaryBuilder.Append_array, RETURN_NOT_OK.
  destruct (Reserve 1 b) as [s1 b1] eqn:HR. destruct s1; try discriminate.
  cbv zeta.
  destruct (BufferBuilder.Append _ _) as [s bb] eqn:HA. intros [= -> Hb'].
  change (FixedSizeBinaryBuilder.byte_builder_
            (FixedSizeBinaryBuilder.set_base
               (UnsafeAppendToBitmap true (FixedSizeBinaryBuilder.base_ b1)) b1))
    with (FixedSizeBinaryBuilder.byte_builder_ b1) in HA.
  destruct (FixedSizeBinaryBuilder_append_shape _ b b1 b' bb HR HA (eq_sym Hb'))
    as (Hd & Hwd & Hl & Hn).
  rewrite Hd, Hwd, Hl, Hn, length_app.
  split; [reflexivity |]. split; [lia |]. split; [reflexivity |].
  split; [reflexivity |]. split; [reflexivity |].
  intros Hinv. split; intros H; nia.
Qed.

Lemma FixedSizeBinaryBuilder_Append_array_stores_all_witness :
  fst (FixedSizeBinaryBuilder.Append_array [1; 2; 3]
         (FixedSizeBinaryBuilder.new 2 (mkPool 4096 170))) = OK /\
  BufferBuilder.data_
    (FixedSizeBinaryBuilder.byte_builder_
       (snd (FixedSizeBinaryBuilder.Append_array [1; 2; 3]
               (FixedSizeBinaryBuilder.new 2 (mkPool 4096 170))))) = [1; 2; 3] /\
  FixedSizeBinaryBuilder_value_data_length
    (snd (FixedSizeBinaryBuilder.Append_array [1; 2; 3]
            (FixedSizeBinaryBuilder.new 2 (mkPool 4096 170))))
  <> length
       (FixedSizeBinaryBuilder.base_
          (snd (FixedSizeBinaryBuilder.Append_array [1; 2; 3]
                  (FixedSizeBinaryBuilder.new 2 (mkPool 4096 170)))))
     * FixedSizeBinaryBuilder_byte_width
         (snd (FixedSizeBinaryBuilder.Append_array [1; 2; 3]
                 (FixedSizeBinaryBuilder.new 2 (mkPool 4096 170)))).
Proof.
  destruct (FixedSizeBinaryBuilder_Append_array_stores_all [1; 2; 3]
              (FixedSizeBinaryBuilder.new 2 (mkPool 4096 170))
              (snd (FixedSizeBinaryBuilder.Append_array [1; 2; 3]
                      (FixedSizeBinaryBuilder.new 2 (mkPool 4096 170)))))
    as (Hd & _ & _ & _ & _ & Hinv).
  - apply run_OK_pair. reflexivity.
  - split; [reflexivity |]. split; [exact Hd |].
    intros Hbad. apply (Hinv eq_refl) in Hbad. discriminate Hbad.
Defined.

(** ** The adaptive builders: the append that fills the pending region *)

Lemma adaptive_run_app (signed : bool) (commit : _ -> Status * AdaptiveIntBuilderBase.t)
      (ops1 ops2 : list adaptive_op) (b : AdaptiveIntBuilderBase.t) :
  adaptive_run signed commit (ops1 ++ ops2) b
  = RETURN_NOT_OK (adaptive_run signed commit ops1 b) (adaptive_run signed commit ops2).
Proof.
  revert b. induction ops1 as [| o ops1 IH]; intros b; [reflexivity |].
  simpl. destruct (adaptive_step signed commit o b) as [[| | msg | msg | msg] b1];
    simpl; [apply IH | reflexivity ..].
Qed.

Lemma adaptive_run_pending (signed : bool) (commit : _ -> Status * AdaptiveIntBuilderBase.t)
      (ops : list adaptive_op) (b b' : AdaptiveIntBuilderBase.t) :
  0 <= pending_pos_ b ->
  pending_pos_ b + Z.of_nat (List.length ops) < pending_size_ ->
  List.length (pending_data_ b) = Z.to_nat pending_size_ ->
  List.length (pending_valid_ b) = Z.to_nat pending_size_ ->
  adaptive_run signed commit ops b = (OK, b') ->
  pending_has_nulls_ b' = (adaptive_any_null ops || pending_has_nulls_ b)%bool /\
  List.length (pending_data_ b') = Z.to_nat pending_size_ /\
  List.length (pending_valid_ b') = Z.to_nat pending_size_.
Proof.
  revert b. induction ops as [| o ops IH]; intros b Hpos Hroom Hd Hv Hrun.
  - injection Hrun as <-. repeat split; assumption.
  - simpl List.length in Hroom. unfold pending_size_ in *.
    destruct (write_pending_facts (adaptive_value signed o) (adaptive_valid o)
                (adaptive_is_null o) b) as (_ & Hp & _ & _ & Hnulls & Hld & Hlv & _);
      [lia | lia | lia |].
    set (b1 := write_pending (adaptive_value signed o) (adaptive_valid o)
                 (adaptive_is_null o) b) in *.
    assert (Hstep : adaptive_step signed commit o b = (OK, b1)).
    { rewrite adaptive_step_eq, adaptive_body_eq. fold b1. unfold commit_if_full.
      rewrite Hp. unfold pending_size_.
      destruct (Z.geb_spec (pending_pos_ b + 1) 1024); [lia | reflexivity]. }
    simpl adaptive_run in Hrun. rewrite Hstep in Hrun. simpl RETURN_NOT_OK in Hrun.
    destruct (IH b1) as (Hn' & Hd' & Hv'); [lia | lia | lia | lia | exact Hrun |].
    split; [| split; assumption].
    rewrite Hn', Hnulls. unfold adaptive_any_null. simpl existsb.
    destruct (adaptive_is_null o), (existsb adaptive_is_null ops),
      (pending_has_nulls_ b); reflexivity.
Qed.

(** X15: what [CommitPendingData] is handed when the pending region
    fills.  On an adaptive integer builder, signed or unsigned, a run of
    scalar appends whose last one takes the pending position to 1024
    returns what the virtual [CommitPendingData()] returns on the state the
    appends have built, and no commit is made before: in that state the
    committed members are as before the run, the pending position is 1024,
    every appended entry sits in the pending region in order, with its
    validity flag, the entries pending before are untouched, and the
    pending-nulls flag is set exactly when it was set or the run holds a
    null. *)
Theorem adaptive_run_fills_region
        (signed : bool) (commit : AdaptiveIntBuilderBase.t -> Status * AdaptiveIntBuilderBase.t)
        (ops : list adaptive_op) (o : adaptive_op) (b : AdaptiveIntBuilderBase.t) :
  0 <= pending_pos_ b ->
  pending_pos_ b + Z.of_nat (List.length ops) + 1 = pending_size_ ->
  List.length (pending_data_ b) = Z.to_nat pending_size_ ->
  List.length (pending_valid_ b) = Z.to_nat pending_size_ ->
  exists bfull,
    adaptive_run signed commit (ops ++ [o]) b = commit bfull /\
    committed bfull = committed b /\
    pending_pos_ bfull = pending_size_ /\
    pending_has_nulls_ bfull
      = (adaptive_any_null (ops ++ [o]) || pending_has_nulls_ b)%bool /\
    (forall k o', (ops ++ [o]) !! k = Some o' ->
       BitUtil.at_ (pending_data_ bfull) (pending_pos_ b + Z.of_nat k)
         = adaptive_value signed o' /\
       BitUtil.at_ (pending_valid_ bfull) (pending_pos_ b + Z.of_nat k)
         = adaptive_valid o') /\
    (forall k, 0 <= k < pending_pos_ b ->
       BitUtil.at_ (pending_data_ bfull) k = BitUtil.at_ (pending_data_ b) k /\
       BitUtil.at_ (pending_valid_ bfull) k = BitUtil.at_ (pending_valid_ b) k).
Proof.
  intros Hpos Hfull Hd Hv. unfold pending_size_ in *.
  destruct (adaptive_run_stages signed commit ops b)
    as (b1 & Hrun & Hc1 & Hp1 & Hin1 & Hlow1); unfold pending_size_; try lia.
  destruct (adaptive_run_pending signed commit ops b b1) as (Hn1 & Hd1 & Hv1);
    unfold pending_size_; try lia; [exact Hrun |].
  unfold pending_size_ in *.
  destruct (write_pending_facts (adaptive_value signed o) (adaptive_valid o)
              (adaptive_is_null o) b1) as (Hc & Hp & Hdat & Hval & Hnulls & _ & _ & Hoth);
    [lia | lia | lia |].
  set (bfull := write_pending (adaptive_value signed o) (adaptive_valid o)
                  (adaptive_is_null o) b1) in *.
  exists bfull. split; [| split; [congruence |]; split; [lia |]; split; [| split]].
  - rewrite adaptive_run_app, Hrun. simpl RETURN_NOT_OK. simpl adaptive_run.
    rewrite adaptive_step_eq, adaptive_body_eq. fold bfull. unfold commit_if_full.
    rewrite Hp. unfold pending_size_.
    destruct (Z.geb_spec (pending_pos_ b1 + 1) 1024); [| lia].
    simpl finish. destruct (commit bfull) as [[| | msg | msg | msg] b2]; reflexivity.
  - rewrite Hnulls, Hn1. unfold adaptive_any_null. rewrite existsb_app. simpl existsb.
    destruct (adaptive_is_null o), (existsb adaptive_is_null ops),
      (pending_has_nulls_ b); reflexivity.
  - intros k o' Hk. apply lookup_app_Some in Hk as [Hk | [Hge Hk]].
    + pose proof (lookup_lt_Some _ _ _ Hk) as Hlt.
      destruct (Hoth (pending_pos_ b + Z.of_nat k)) as [-> ->]; [lia | lia |].
      apply (Hin1 _ _ Hk).
    + destruct (k - List.length ops)%nat as [| j] eqn:Hj; [| discriminate].
      injection Hk as <-.
      replace (pending_pos_ b + Z.of_nat k) with (pending_pos_ b1) by lia.
      split; assumption.
  - intros k Hk. destruct (Hoth k) as [-> ->]; [lia | lia |]. apply Hlow1, Hk.
Qed.

Lemma adaptive_run_fills_region_witness :
  exists bfull,
    adaptive_run true (fun b => (OutOfMemory, b)) [AdaptiveAppend (-1); AdaptiveAppendNull]
      AdaptiveIntBuilder_example = (OutOfMemory, bfull) /\
    pending_pos_ bfull = 1024 /\
    pending_has_nulls_ bfull = true /\
    BitUtil.at_ (pending_data_ bfull) 1022 = 2 ^ 64 - 1 /\
    BitUtil.at_ (pending_valid_ bfull) 1023 = 0.
Proof.
  destruct (adaptive_run_fills_region true (fun b => (OutOfMemory, b))
              [AdaptiveAppend (-1)] AdaptiveAppendNull AdaptiveIntBuilder_example)
    as (bfull & Hrun & _ & Hp & Hn & Hin & _);
    [simpl; lia | reflexivity | reflexivity | reflexivity |].
  exists bfull. split; [exact Hrun |]. split; [exact Hp |]. split; [exact Hn |].
  split.
  - exact (proj1 (Hin 0%nat (AdaptiveAppend (-1)) eq_refl)).
  - exact (proj2 (Hin 1%nat AdaptiveAppendNull eq_refl)).
Defined.

(** ** FixedSizeBinaryBuilder: when the append fails *)

Lemma fixed_size_consistent_new (byte_width : Z) (pool : MemoryPool) :
  0 <= byte_width -> fixed_size_consistent (FixedSizeBinaryBuilder.new byte_width pool).
Proof.
  intros Hw. unfold fixed_size_consistent, BufferBuilder.length. simpl. lia.
Qed.

Lemma FixedSizeBinaryBuilder_Reserve_room
      (n : Z) (b b1 : FixedSizeBinaryBuilder.t) :
  Reserve n b = (OK, b1) -> fixed_size_consistent b ->
  fixed_size_consistent b1 /\
  length_ (FixedSizeBinaryBuilder.base_ b) + n <= capacity_ (FixedSizeBinaryBuilder.base_ b1).
Proof.
  intros HR (Hw & Hlen & Hdata & Hcap).
  destruct (FixedSizeBinaryBuilder_Reserve_counters _ _ _ _ HR) as (Hl & _ & Hd & _).
  pose proof (FixedSizeBinaryBuilder_Reserve_width _ _ _ _ HR) as Hw1.
  unfold fixed_size_consistent, BufferBuilder.length in *. rewrite Hl, Hd, Hw1.
  destruct (Reserve_cases n b) as [[Hroom Heq] | [Hgrow (c & Hc & Heq)]];
    rewrite Heq in HR; simpl in *.
  - injection HR as <-. repeat split; assumption.
  - revert HR. unfold FixedSizeBinaryBuilder.Resize, RETURN_NOT_OK.
    destruct (CheckCapacity c _); try discriminate.
    cbv zeta. unfold BufferBuilder.Resize.
    destruct (pool_grants _ _); [| discriminate].
    destruct (ArrayBuilder.Resize _ (FixedSizeBinaryBuilder.base_ b)) as [s' a] eqn:HRb.
    destruct (ArrayBuilder_Resize_counters _ _ _ _ HRb) as (_ & _ & _ & _ & Hok & _).
    destruct s'; try discriminate. intros [= <-]. simpl.
    destruct (Hok eq_refl) as (Hc' & _). pose proof kMinBuilderCapacity_eq as Hmin.
    rewrite Hc'. repeat split; try assumption; lia.
Qed.

(** X17: a [FixedSizeBinaryBuilder::Append(value)] that fails leaves no
    partial append.  On a builder in a consistent state, whose value data
    holds [byte_width] bytes per element in a byte buffer sized by
    [Resize], and for a [value] of at least [byte_width] bytes, the status
    of [Append] is that of [Reserve(1)]: once the reservation has
    succeeded, the append to the byte buffer, which comes after the
    validity bit has been written, finds the room reserved and succeeds.
    So on an error the builder is as it was, and on success it is
    consistent again, one element longer. *)
Theorem FixedSizeBinaryBuilder_Append_fails_unchanged
        (value : list Z) (b b' : FixedSizeBinaryBuilder.t) (s : Status) :
  fixed_size_consistent b ->
  FixedSizeBinaryBuilder.byte_width_ b <= Z.of_nat (List.length value) ->
  FixedSizeBinaryBuilder.Append value b = (s, b') ->
  s = fst (Reserve 1 b) /\
  (s <> OK -> b' = b) /\
  (s = OK ->
     fixed_size_consistent b' /\
     length (FixedSizeBinaryBuilder.base_ b')
       = length (FixedSizeBinaryBuilder.base_ b) + 1 /\
     BufferBuilder.capacity_ (FixedSizeBinaryBuilder.byte_builder_ b')
       = BufferBuilder.capacity_
           (FixedSizeBinaryBuilder.byte_builder_ (snd (Reserve 1 b)))).
Proof.
  unfold length. intros Hcons Hvalue.
  unfold FixedSizeBinaryBuilder.Append, RETURN_NOT_OK.
  destruct (Reserve 1 b) as [s1 b1] eqn:HR. simpl fst. simpl snd.
  destruct (FixedSizeBinaryBuilder_Reserve_counters _ _ _ _ HR) as (Hl & _ & _ & Herr).
  destruct s1;
    try (intros [= <- <-]; split; [reflexivity |];
         split; [intros _; apply Herr; discriminate | discriminate]).
  destruct (FixedSizeBinaryBuilder_Reserve_room _ _ _ HR Hcons)
    as ((Hw1 & Hlen1 & Hdata1 & Hcap1) & Hroom).
  pose proof (FixedSizeBinaryBuilder_Reserve_width _ _ _ _ HR) as Hw.
  cbv zeta.
  change (FixedSizeBinaryBuilder.byte_width_
            (FixedSizeBinaryBuilder.set_base
               (UnsafeAppendToBitmap true (FixedSizeBinaryBuilder.base_ b1)) b1))
    with (FixedSizeBinaryBuilder.byte_width_ b1).
  change (FixedSizeBinaryBuilder.byte_builder_
            (FixedSizeBinaryBuilder.set_base
               (UnsafeAppendToBitmap true (FixedSizeBinaryBuilder.base_ b1)) b1))
    with (FixedSizeBinaryBuilder.byte_builder_ b1).
  assert (Htake : List.length
                    (take (Z.to_nat (FixedSizeBinaryBuilder.byte_width_ b1)) value)
                  = Z.to_nat (FixedSizeBinaryBuilder.byte_width_ b1))
    by (rewrite length_take; lia).
  unfold BufferBuilder.Append, RETURN_NOT_OK.
  unfold BufferBuilder.length in *. rewrite Htake.
  destruct (Z.ltb_spec
              (BufferBuilder.capacity_ (FixedSizeBinaryBuilder.byte_builder_ b1))
              (Z.of_nat (List.length
                           (BufferBuilder.data_ (FixedSizeBinaryBuilder.byte_builder_ b1)))
               + Z.of_nat (Z.to_nat (FixedSizeBinaryBuilder.byte_width_ b1))))
    as [Hfull | Hfits]; [exfalso; nia |].
  intros [= <- <-]. split; [reflexivity |]. split; [congruence |]. intros _.
  unfold fixed_size_consistent, BufferBuilder.length. simpl.
  rewrite length_app, Htake.
  split; [| split; [lia | reflexivity]].
  split; [exact Hw1 |]. split; [lia |]. split; [nia | exact Hcap1].
Qed.

Lemma FixedSizeBinaryBuilder_Append_fails_unchanged_witness :
  FixedSizeBinaryBuilder.Append [1; 2] (FixedSizeBinaryBuilder.new 2 (mkPool 16 170))
  = (OutOfMemory, FixedSizeBinaryBuilder.new 2 (mkPool 16 170)) /\
  fst (FixedSizeBinaryBuilder.Append [1; 2]
         (FixedSizeBinaryBuilder.new 2 (mkPool 64 170))) = OK /\
  length
    (FixedSizeBinaryBuilder.base_
       (snd (FixedSizeBinaryBuilder.Append [1; 2]
               (FixedSizeBinaryBuilder.new 2 (mkPool 64 170))))) = 1.
Proof.
  destruct (FixedSizeBinaryBuilder_Append_fails_unchanged [1; 2]
              (FixedSizeBinaryBuilder.new 2 (mkPool 16 170))
              (snd (FixedSizeBinaryBuilder.Append [1; 2]
                      (FixedSizeBinaryBuilder.new 2 (mkPool 16 170))))
              OutOfMemory)
    as (_ & Hfail & _).
  - apply fixed_size_consistent_new. lia.
  - simpl. lia.
  - reflexivity.
  - destruct (FixedSizeBinaryBuilder_Append_fails_unchanged [1; 2]
                (FixedSizeBinaryBuilder.new 2 (mkPool 64 170))
                (snd (FixedSizeBinaryBuilder.Append [1; 2]
                        (FixedSizeBinaryBuilder.new 2 (mkPool 64 170))))
                OK)
      as (_ & _ & Hok).
    + apply fixed_size_consistent_new. lia.
    + simpl. lia.
    + reflexivity.
    + destruct (Hok eq_refl) as (_ & Hlen & _).
      split; [| split; [reflexivity | exact Hlen]].
      rewrite <- (Hfail ltac:(discriminate)) at 2. reflexivity.
Defined.
